(** * Verification of the transcription filter (src/transcription-filter.cpp)

    A shallow embedding of the audio filter's callbacks: the ingest stage
    [transcription_filter_filter_audio], the lifecycle operations
    [transcription_filter_create], [transcription_filter_update] and
    [transcription_filter_destroy], the output router [set_text_callback]
    and the option defaults [transcription_filter_defaults]; further the
    activation callbacks, the completion callback of a model download, the
    speaker layout [convert_speaker_layout], and the properties view
    [transcription_filter_properties] with [add_sources_to_list].

    The callbacks run in a small state monad over a [world]: the filter
    instance ([gf], the C struct), the part of the host they talk to
    (files, text sources, caption output, model files), the log, and a
    trace of the synchronisation and resource events they perform.  An
    early [return] of the C++ code is an outcome of the monad, and so is a
    crash (a null dereference, a read out of bounds, [std::terminate], an
    assignment to a member that was never constructed where the C++ library
    does not survive it). *)

From Stdlib Require Import ZArith QArith String Ascii List Lia.
From stdpp Require Import base option gmap strings list sorting.

Open Scope string_scope.
Open Scope list_scope.
Open Scope Z_scope.

(** ** Constants of the host and engine headers *)

(** util/base.h log levels. *)
Definition LOG_ERROR : Z := 100.
Definition LOG_WARNING : Z := 200.
Definition LOG_INFO : Z := 300.
Definition LOG_DEBUG : Z := 400.

(** media-io/audio-io.h *)
Definition MAX_AUDIO_CHANNELS : nat := 8.

(** whisper.h *)
Definition WHISPER_SAMPLE_RATE : Z := 16000.

Inductive whisper_sampling_strategy :=
  | WHISPER_SAMPLING_GREEDY
  | WHISPER_SAMPLING_BEAM_SEARCH.

(** The integer value of an enumerator, as stored in a settings object. *)
Definition sampling_value (s : whisper_sampling_strategy) : Z :=
  match s with
  | WHISPER_SAMPLING_GREEDY => 0
  | WHISPER_SAMPLING_BEAM_SEARCH => 1
  end.

Definition sizeof_float : Z := 4.

(** [size_t] arithmetic wraps at 64 bits, [int] at 32 bits (two's complement). *)
Definition size_t (z : Z) : Z := z mod 2 ^ 64.
Definition to_int (z : Z) : Z := (z + 2 ^ 31) mod 2 ^ 32 - 2 ^ 31.

Definition uint32 (z : Z) : Prop := 0 <= z < 2 ^ 32.

(** [strcmp(a, b)]: only its sign matters. *)
Definition strcmp (a b : string) : Z :=
  match String.compare a b with
  | Eq => 0
  | Lt => -1
  | Gt => 1
  end.

Definition strlen (a : string) : Z := Z.of_nat (String.length a).

(** [enum speaker_layout] and the conversion of the source. *)
Inductive speaker_layout :=
  | SPEAKERS_UNKNOWN
  | SPEAKERS_MONO
  | SPEAKERS_STEREO
  | SPEAKERS_2POINT1
  | SPEAKERS_4POINT0
  | SPEAKERS_4POINT1
  | SPEAKERS_5POINT1
  | SPEAKERS_7POINT1.

Definition convert_speaker_layout (channels : Z) : speaker_layout :=
  match channels with
  | 0 => SPEAKERS_UNKNOWN
  | 1 => SPEAKERS_MONO
  | 2 => SPEAKERS_STEREO
  | 3 => SPEAKERS_2POINT1
  | 4 => SPEAKERS_4POINT0
  | 5 => SPEAKERS_4POINT1
  | 6 => SPEAKERS_5POINT1
  | 8 => SPEAKERS_7POINT1
  | _ => SPEAKERS_UNKNOWN
  end.

(** ** Settings objects ([obs_data_t])

    A settings object is a flat table of named values with a second table
    of defaults; a getter reads the value, then the default, then falls
    back to the zero of its type. *)

Inductive obs_value :=
  | OBS_BOOL (b : bool)
  | OBS_INT (n : Z)
  | OBS_DOUBLE (q : Q)
  | OBS_STRING (s : string).

Record obs_data := {
  values : gmap string obs_value;
  defaults : gmap string obs_value
}.

Definition obs_data_create : obs_data := {| values := ∅; defaults := ∅ |}.

Definition obs_data_set_default (s : obs_data) (name : string) (v : obs_value) : obs_data :=
  {| values := values s; defaults := <[name := v]> (defaults s) |}.

Definition obs_data_set_default_bool s name (b : bool) := obs_data_set_default s name (OBS_BOOL b).
Definition obs_data_set_default_int s name (n : Z) := obs_data_set_default s name (OBS_INT n).
Definition obs_data_set_default_double s name (q : Q) := obs_data_set_default s name (OBS_DOUBLE q).
Definition obs_data_set_default_string s name (v : string) :=
  obs_data_set_default s name (OBS_STRING v).

Definition obs_data_set_string (s : obs_data) (name : string) (v : string) : obs_data :=
  {| values := <[name := OBS_STRING v]> (values s); defaults := defaults s |}.

Definition obs_data_item (s : obs_data) (name : string) : option obs_value :=
  match values s !! name with
  | Some v => Some v
  | None => defaults s !! name
  end.

Definition obs_data_get_bool (s : obs_data) (name : string) : bool :=
  match obs_data_item s name with
  | Some (OBS_BOOL b) => b
  | _ => false
  end.

Definition obs_data_get_int (s : obs_data) (name : string) : Z :=
  match obs_data_item s name with
  | Some (OBS_INT n) => n
  | Some (OBS_DOUBLE q) => Z.quot (Qnum q) (Z.pos (Qden q))
  | _ => 0
  end.

Definition obs_data_get_double (s : obs_data) (name : string) : Q :=
  match obs_data_item s name with
  | Some (OBS_DOUBLE q) => q
  | Some (OBS_INT n) => inject_Z n
  | _ => 0%Q
  end.

(** Never a null pointer: a missing item reads as the empty string. *)
Definition obs_data_get_string (s : obs_data) (name : string) : string :=
  match obs_data_item s name with
  | Some (OBS_STRING v) => v
  | _ => EmptyString
  end.

(** ** transcription_filter_defaults *)

Definition transcription_filter_defaults (s : obs_data) : obs_data :=
  let s := obs_data_set_default_bool s "vad_enabled" true in
  let s := obs_data_set_default_int s "log_level" LOG_DEBUG in
  let s := obs_data_set_default_bool s "log_words" true in
  let s := obs_data_set_default_bool s "caption_to_stream" false in
  let s := obs_data_set_default_string s "whisper_model_path" "models/ggml-tiny.en.bin" in
  let s := obs_data_set_default_string s "whisper_language_select" "en" in
  let s := obs_data_set_default_string s "subtitle_sources" "none" in
  (* Whisper parameters *)
  let s := obs_data_set_default_int s "whisper_sampling_method"
             (sampling_value WHISPER_SAMPLING_BEAM_SEARCH) in
  let s := obs_data_set_default_string s "initial_prompt" EmptyString in
  let s := obs_data_set_default_int s "n_threads" 4 in
  let s := obs_data_set_default_int s "n_max_text_ctx" 16384 in
  let s := obs_data_set_default_bool s "translate" false in
  let s := obs_data_set_default_bool s "no_context" true in
  let s := obs_data_set_default_bool s "single_segment" true in
  let s := obs_data_set_default_bool s "print_special" false in
  let s := obs_data_set_default_bool s "print_progress" false in
  let s := obs_data_set_default_bool s "print_realtime" false in
  let s := obs_data_set_default_bool s "print_timestamps" false in
  let s := obs_data_set_default_bool s "token_timestamps" false in
  let s := obs_data_set_default_double s "thold_pt" (1 # 100) in
  let s := obs_data_set_default_double s "thold_ptsum" (1 # 100) in
  let s := obs_data_set_default_int s "max_len" 0 in
  let s := obs_data_set_default_bool s "split_on_word" false in
  let s := obs_data_set_default_int s "max_tokens" 32 in
  let s := obs_data_set_default_bool s "speed_up" false in
  let s := obs_data_set_default_bool s "suppress_blank" false in
  let s := obs_data_set_default_bool s "suppress_non_speech_tokens" true in
  let s := obs_data_set_default_double s "temperature" (1 # 2) in
  let s := obs_data_set_default_double s "max_initial_ts" 1 in
  let s := obs_data_set_default_double s "length_penalty" (-1) in
  s.

(** The names the defaults operation sets, in source order. *)
Definition option_names : list string :=
  [ "vad_enabled"; "log_level"; "log_words"; "caption_to_stream"; "whisper_model_path";
    "whisper_language_select"; "subtitle_sources"; "whisper_sampling_method";
    "initial_prompt"; "n_threads"; "n_max_text_ctx"; "translate"; "no_context";
    "single_segment"; "print_special"; "print_progress"; "print_realtime";
    "print_timestamps"; "token_timestamps"; "thold_pt"; "thold_ptsum"; "max_len";
    "split_on_word"; "max_tokens"; "speed_up"; "suppress_blank";
    "suppress_non_speech_tokens"; "temperature"; "max_initial_ts"; "length_penalty" ].

(** ** The data model *)

(** The byte-oriented circular buffer of the host library (util/circlebuf.h),
    by its contents: it grows on demand and is only appended to here. *)
Abbreviation circlebuf := (list Byte.byte).

Definition circlebuf_init : circlebuf := [].
Definition circlebuf_free (cb : circlebuf) : circlebuf := [].
Definition circlebuf_size (cb : circlebuf) : Z := Z.of_nat (length cb).

(** [circlebuf_push_back(cb, data, size)] copies [size] bytes found at [data];
    [None] when [data] holds fewer bytes than that (a read past its end). *)
Definition circlebuf_push_back (cb : circlebuf) (data : list Byte.byte) (size : Z)
    : option circlebuf :=
  if decide (size <= Z.of_nat (length data))
  then Some (cb ++ take (Z.to_nat size) data)
  else None.

(** One audio packet of the host: a sample plane per channel, a frame count
    ([uint32_t]) and a timestamp ([uint64_t]). *)
Module audio.
Record obs_audio_data := {
  data : list (list Byte.byte);
  frames : Z;
  timestamp : Z
}.
End audio.
Abbreviation obs_audio_data := audio.obs_audio_data.

(** The metadata record queued next to the samples of a packet. *)
Module info.
Record transcription_filter_audio_info := {
  frames : Z;
  timestamp : Z
}.
End info.
Abbreviation transcription_filter_audio_info := info.transcription_filter_audio_info.

(** A [float] obtained by the cast of a [double] setting. *)
Inductive c_float := float_cast (d : Q).

(** The fields of [whisper_full_params] the filter sets. *)
Record whisper_full_params := {
  strategy : Z;
  duration_ms : Z;
  language : string;
  initial_prompt : string;
  n_threads : Z;
  n_max_text_ctx : Z;
  translate : bool;
  no_context : bool;
  single_segment : bool;
  print_special : bool;
  print_progress : bool;
  print_realtime : bool;
  print_timestamps : bool;
  token_timestamps : bool;
  thold_pt : c_float;
  thold_ptsum : c_float;
  max_len : Z;
  split_on_word : bool;
  max_tokens : Z;
  speed_up : bool;
  suppress_blank : bool;
  suppress_non_speech_tokens : bool;
  temperature : c_float;
  max_initial_ts : c_float;
  length_penalty : c_float
}.

(** [bzalloc] leaves every field zero. *)
Definition whisper_params_zero : whisper_full_params :=
  {| strategy := 0; duration_ms := 0; language := EmptyString;
     initial_prompt := EmptyString; n_threads := 0; n_max_text_ctx := 0; translate := false; no_context := false; single_segment := false;
     print_special := false; print_progress := false; print_realtime := false;
     print_timestamps := false; token_timestamps := false; thold_pt := float_cast 0;
     thold_ptsum := float_cast 0; max_len := 0; split_on_word := false; max_tokens := 0;
     speed_up := false; suppress_blank := false; suppress_non_speech_tokens := false;
     temperature := float_cast 0; max_initial_ts := float_cast 0;
     length_penalty := float_cast 0 |}.

(** [struct resample_info] of the host's resampler (the sample format is
    planar float throughout). *)
Record resample_info := {
  samples_per_sec : Z;
  speakers : speaker_layout
}.

(** [struct transcription_filter_data].  A pointer field is an [option]:
    [None] is the null pointer, [Some n] the object (mutex, engine handle,
    thread, weak reference) of identity [n].  [whisper_thread] is [Some t]
    exactly when the [std::thread] is joinable.  [copy_buffers] is the single
    allocation behind the per-channel pointers, by its size in bytes;
    [info_buffer] is the circular buffer of packet metadata, by its records
    (each takes [sizeof(info)] bytes of it); [resampler] is the resampler by
    the formats (destination, source) it was created for. *)
Record transcription_filter_data := {
  context : option nat;
  channels : nat;
  sample_rate : Z;
  frames : Z;
  last_num_frames : Z;
  overlap_ms : Z;
  overlap_frames : Z;
  input_buffers : list circlebuf;
  info_buffer : list transcription_filter_audio_info;
  copy_buffers : option Z;
  resampler : option (resample_info * resample_info);
  whisper_model_path : string;
  whisper_context : option nat;
  whisper_thread : option nat;
  whisper_buf_mutex : option nat;
  whisper_ctx_mutex : option nat;
  wshiper_thread_cv : option nat;
  text_source_mutex : option nat;
  text_source : option nat;
  text_source_name : option string;
  output_file_path : string;
  log_level : Z;
  vad_enabled : bool;
  log_words : bool;
  caption_to_stream : bool;
  active : bool;
  whisper_params : whisper_full_params
}.

Definition set_context (v : option nat) (x : transcription_filter_data) : transcription_filter_data :=
  {| context := v; channels := channels x; sample_rate := sample_rate x; frames := frames x;
     last_num_frames := last_num_frames x; overlap_ms := overlap_ms x; overlap_frames :=
     overlap_frames x; input_buffers := input_buffers x; info_buffer := info_buffer x;
     copy_buffers := copy_buffers x; resampler := resampler x; whisper_model_path :=
     whisper_model_path x; whisper_context := whisper_context x; whisper_thread :=
     whisper_thread x; whisper_buf_mutex := whisper_buf_mutex x; whisper_ctx_mutex :=
     whisper_ctx_mutex x; wshiper_thread_cv := wshiper_thread_cv x; text_source_mutex :=
     text_source_mutex x; text_source := text_source x; text_source_name := text_source_name
     x; output_file_path := output_file_path x; log_level := log_level x; vad_enabled :=
     vad_enabled x; log_words := log_words x; caption_to_stream := caption_to_stream x;
     active := active x; whisper_params := whisper_params x |}.
Definition set_channels (v : nat) (x : transcription_filter_data) : transcription_filter_data :=
  {| context := context x; channels := v; sample_rate := sample_rate x; frames := frames x;
     last_num_frames := last_num_frames x; overlap_ms := overlap_ms x; overlap_frames :=
     overlap_frames x; input_buffers := input_buffers x; info_buffer := info_buffer x;
     copy_buffers := copy_buffers x; resampler := resampler x; whisper_model_path :=
     whisper_model_path x; whisper_context := whisper_context x; whisper_thread :=
     whisper_thread x; whisper_buf_mutex := whisper_buf_mutex x; whisper_ctx_mutex :=
     whisper_ctx_mutex x; wshiper_thread_cv := wshiper_thread_cv x; text_source_mutex :=
     text_source_mutex x; text_source := text_source x; text_source_name := text_source_name
     x; output_file_path := output_file_path x; log_level := log_level x; vad_enabled :=
     vad_enabled x; log_words := log_words x; caption_to_stream := caption_to_stream x;
     active := active x; whisper_params := whisper_params x |}.
Definition set_sample_rate (v : Z) (x : transcription_filter_data) : transcription_filter_data :=
  {| context := context x; channels := channels x; sample_rate := v; frames := frames x;
     last_num_frames := last_num_frames x; overlap_ms := overlap_ms x; overlap_frames :=
     overlap_frames x; input_buffers := input_buffers x; info_buffer := info_buffer x;
     copy_buffers := copy_buffers x; resampler := resampler x; whisper_model_path :=
     whisper_model_path x; whisper_context := whisper_context x; whisper_thread :=
     whisper_thread x; whisper_buf_mutex := whisper_buf_mutex x; whisper_ctx_mutex :=
     whisper_ctx_mutex x; wshiper_thread_cv := wshiper_thread_cv x; text_source_mutex :=
     text_source_mutex x; text_source := text_source x; text_source_name := text_source_name
     x; output_file_path := output_file_path x; log_level := log_level x; vad_enabled :=
     vad_enabled x; log_words := log_words x; caption_to_stream := caption_to_stream x;
     active := active x; whisper_params := whisper_params x |}.
Definition set_frames (v : Z) (x : transcription_filter_data) : transcription_filter_data :=
  {| context := context x; channels := channels x; sample_rate := sample_rate x; frames :=
     v; last_num_frames := last_num_frames x; overlap_ms := overlap_ms x; overlap_frames :=
     overlap_frames x; input_buffers := input_buffers x; info_buffer := info_buffer x;
     copy_buffers := copy_buffers x; resampler := resampler x; whisper_model_path :=
     whisper_model_path x; whisper_context := whisper_context x; whisper_thread :=
     whisper_thread x; whisper_buf_mutex := whisper_buf_mutex x; whisper_ctx_mutex :=
     whisper_ctx_mutex x; wshiper_thread_cv := wshiper_thread_cv x; text_source_mutex :=
     text_source_mutex x; text_source := text_source x; text_source_name := text_source_name
     x; output_file_path := output_file_path x; log_level := log_level x; vad_enabled :=
     vad_enabled x; log_words := log_words x; caption_to_stream := caption_to_stream x;
     active := active x; whisper_params := whisper_params x |}.
Definition set_last_num_frames (v : Z) (x : transcription_filter_data) : transcription_filter_data :=
  {| context := context x; channels := channels x; sample_rate := sample_rate x; frames :=
     frames x; last_num_frames := v; overlap_ms := overlap_ms x; overlap_frames :=
     overlap_frames x; input_buffers := input_buffers x; info_buffer := info_buffer x;
     copy_buffers := copy_buffers x; resampler := resampler x; whisper_model_path :=
     whisper_model_path x; whisper_context := whisper_context x; whisper_thread :=
     whisper_thread x; whisper_buf_mutex := whisper_buf_mutex x; whisper_ctx_mutex :=
     whisper_ctx_mutex x; wshiper_thread_cv := wshiper_thread_cv x; text_source_mutex :=
     text_source_mutex x; text_source := text_source x; text_source_name := text_source_name
     x; output_file_path := output_file_path x; log_level := log_level x; vad_enabled :=
     vad_enabled x; log_words := log_words x; caption_to_stream := caption_to_stream x;
     active := active x; whisper_params := whisper_params x |}.
Definition set_overlap_ms (v : Z) (x : transcription_filter_data) : transcription_filter_data :=
  {| context := context x; channels := channels x; sample_rate := sample_rate x; frames :=
     frames x; last_num_frames := last_num_frames x; overlap_ms := v; overlap_frames :=
     overlap_frames x; input_buffers := input_buffers x; info_buffer := info_buffer x;
     copy_buffers := copy_buffers x; resampler := resampler x; whisper_model_path :=
     whisper_model_path x; whisper_context := whisper_context x; whisper_thread :=
     whisper_thread x; whisper_buf_mutex := whisper_buf_mutex x; whisper_ctx_mutex :=
     whisper_ctx_mutex x; wshiper_thread_cv := wshiper_thread_cv x; text_source_mutex :=
     text_source_mutex x; text_source := text_source x; text_source_name := text_source_name
     x; output_file_path := output_file_path x; log_level := log_level x; vad_enabled :=
     vad_enabled x; log_words := log_words x; caption_to_stream := caption_to_stream x;
     active := active x; whisper_params := whisper_params x |}.
Definition set_overlap_frames (v : Z) (x : transcription_filter_data) : transcription_filter_data :=
  {| context := context x; channels := channels x; sample_rate := sample_rate x; frames :=
     frames x; last_num_frames := last_num_frames x; overlap_ms := overlap_ms x;
     overlap_frames := v; input_buffers := input_buffers x; info_buffer := info_buffer x;
     copy_buffers := copy_buffers x; resampler := resampler x; whisper_model_path :=
     whisper_model_path x; whisper_context := whisper_context x; whisper_thread :=
     whisper_thread x; whisper_buf_mutex := whisper_buf_mutex x; whisper_ctx_mutex :=
     whisper_ctx_mutex x; wshiper_thread_cv := wshiper_thread_cv x; text_source_mutex :=
     text_source_mutex x; text_source := text_source x; text_source_name := text_source_name
     x; output_file_path := output_file_path x; log_level := log_level x; vad_enabled :=
     vad_enabled x; log_words := log_words x; caption_to_stream := caption_to_stream x;
     active := active x; whisper_params := whisper_params x |}.
Definition set_input_buffers (v : list circlebuf) (x : transcription_filter_data) : transcription_filter_data :=
  {| context := context x; channels := channels x; sample_rate := sample_rate x; frames :=
     frames x; last_num_frames := last_num_frames x; overlap_ms := overlap_ms x;
     overlap_frames := overlap_frames x; input_buffers := v; info_buffer := info_buffer x;
     copy_buffers := copy_buffers x; resampler := resampler x; whisper_model_path :=
     whisper_model_path x; whisper_context := whisper_context x; whisper_thread :=
     whisper_thread x; whisper_buf_mutex := whisper_buf_mutex x; whisper_ctx_mutex :=
     whisper_ctx_mutex x; wshiper_thread_cv := wshiper_thread_cv x; text_source_mutex :=
     text_source_mutex x; text_source := text_source x; text_source_name := text_source_name
     x; output_file_path := output_file_path x; log_level := log_level x; vad_enabled :=
     vad_enabled x; log_words := log_words x; caption_to_stream := caption_to_stream x;
     active := active x; whisper_params := whisper_params x |}.
Definition set_info_buffer (v : list transcription_filter_audio_info) (x : transcription_filter_data) : transcription_filter_data :=
  {| context := context x; channels := channels x; sample_rate := sample_rate x; frames :=
     frames x; last_num_frames := last_num_frames x; overlap_ms := overlap_ms x;
     overlap_frames := overlap_frames x; input_buffers := input_buffers x; info_buffer := v;
     copy_buffers := copy_buffers x; resampler := resampler x; whisper_model_path :=
     whisper_model_path x; whisper_context := whisper_context x; whisper_thread :=
     whisper_thread x; whisper_buf_mutex := whisper_buf_mutex x; whisper_ctx_mutex :=
     whisper_ctx_mutex x; wshiper_thread_cv := wshiper_thread_cv x; text_source_mutex :=
     text_source_mutex x; text_source := text_source x; text_source_name := text_source_name
     x; output_file_path := output_file_path x; log_level := log_level x; vad_enabled :=
     vad_enabled x; log_words := log_words x; caption_to_stream := caption_to_stream x;
     active := active x; whisper_params := whisper_params x |}.
Definition set_copy_buffers (v : option Z) (x : transcription_filter_data) : transcription_filter_data :=
  {| context := context x; channels := channels x; sample_rate := sample_rate x; frames :=
     frames x; last_num_frames := last_num_frames x; overlap_ms := overlap_ms x;
     overlap_frames := overlap_frames x; input_buffers := input_buffers x; info_buffer :=
     info_buffer x; copy_buffers := v; resampler := resampler x; whisper_model_path :=
     whisper_model_path x; whisper_context := whisper_context x; whisper_thread :=
     whisper_thread x; whisper_buf_mutex := whisper_buf_mutex x; whisper_ctx_mutex :=
     whisper_ctx_mutex x; wshiper_thread_cv := wshiper_thread_cv x; text_source_mutex :=
     text_source_mutex x; text_source := text_source x; text_source_name := text_source_name
     x; output_file_path := output_file_path x; log_level := log_level x; vad_enabled :=
     vad_enabled x; log_words := log_words x; caption_to_stream := caption_to_stream x;
     active := active x; whisper_params := whisper_params x |}.
Definition set_resampler (v : option (resample_info * resample_info)) (x : transcription_filter_data) : transcription_filter_data :=
  {| context := context x; channels := channels x; sample_rate := sample_rate x; frames :=
     frames x; last_num_frames := last_num_frames x; overlap_ms := overlap_ms x;
     overlap_frames := overlap_frames x; input_buffers := input_buffers x; info_buffer :=
     info_buffer x; copy_buffers := copy_buffers x; resampler := v; whisper_model_path :=
     whisper_model_path x; whisper_context := whisper_context x; whisper_thread :=
     whisper_thread x; whisper_buf_mutex := whisper_buf_mutex x; whisper_ctx_mutex :=
     whisper_ctx_mutex x; wshiper_thread_cv := wshiper_thread_cv x; text_source_mutex :=
     text_source_mutex x; text_source := text_source x; text_source_name := text_source_name
     x; output_file_path := output_file_path x; log_level := log_level x; vad_enabled :=
     vad_enabled x; log_words := log_words x; caption_to_stream := caption_to_stream x;
     active := active x; whisper_params := whisper_params x |}.
Definition set_whisper_model_path (v : string) (x : transcription_filter_data) : transcription_filter_data :=
  {| context := context x; channels := channels x; sample_rate := sample_rate x; frames :=
     frames x; last_num_frames := last_num_frames x; overlap_ms := overlap_ms x;
     overlap_frames := overlap_frames x; input_buffers := input_buffers x; info_buffer :=
     info_buffer x; copy_buffers := copy_buffers x; resampler := resampler x;
     whisper_model_path := v; whisper_context := whisper_context x; whisper_thread :=
     whisper_thread x; whisper_buf_mutex := whisper_buf_mutex x; whisper_ctx_mutex :=
     whisper_ctx_mutex x; wshiper_thread_cv := wshiper_thread_cv x; text_source_mutex :=
     text_source_mutex x; text_source := text_source x; text_source_name := text_source_name
     x; output_file_path := output_file_path x; log_level := log_level x; vad_enabled :=
     vad_enabled x; log_words := log_words x; caption_to_stream := caption_to_stream x;
     active := active x; whisper_params := whisper_params x |}.
Definition set_whisper_context (v : option nat) (x : transcription_filter_data) : transcription_filter_data :=
  {| context := context x; channels := channels x; sample_rate := sample_rate x; frames :=
     frames x; last_num_frames := last_num_frames x; overlap_ms := overlap_ms x;
     overlap_frames := overlap_frames x; input_buffers := input_buffers x; info_buffer :=
     info_buffer x; copy_buffers := copy_buffers x; resampler := resampler x;
     whisper_model_path := whisper_model_path x; whisper_context := v; whisper_thread :=
     whisper_thread x; whisper_buf_mutex := whisper_buf_mutex x; whisper_ctx_mutex :=
     whisper_ctx_mutex x; wshiper_thread_cv := wshiper_thread_cv x; text_source_mutex :=
     text_source_mutex x; text_source := text_source x; text_source_name := text_source_name
     x; output_file_path := output_file_path x; log_level := log_level x; vad_enabled :=
     vad_enabled x; log_words := log_words x; caption_to_stream := caption_to_stream x;
     active := active x; whisper_params := whisper_params x |}.
Definition set_whisper_thread (v : option nat) (x : transcription_filter_data) : transcription_filter_data :=
  {| context := context x; channels := channels x; sample_rate := sample_rate x; frames :=
     frames x; last_num_frames := last_num_frames x; overlap_ms := overlap_ms x;
     overlap_frames := overlap_frames x; input_buffers := input_buffers x; info_buffer :=
     info_buffer x; copy_buffers := copy_buffers x; resampler := resampler x;
     whisper_model_path := whisper_model_path x; whisper_context := whisper_context x;
     whisper_thread := v; whisper_buf_mutex := whisper_buf_mutex x; whisper_ctx_mutex :=
     whisper_ctx_mutex x; wshiper_thread_cv := wshiper_thread_cv x; text_source_mutex :=
     text_source_mutex x; text_source := text_source x; text_source_name := text_source_name
     x; output_file_path := output_file_path x; log_level := log_level x; vad_enabled :=
     vad_enabled x; log_words := log_words x; caption_to_stream := caption_to_stream x;
     active := active x; whisper_params := whisper_params x |}.
Definition set_whisper_buf_mutex (v : option nat) (x : transcription_filter_data) : transcription_filter_data :=
  {| context := context x; channels := channels x; sample_rate := sample_rate x; frames :=
     frames x; last_num_frames := last_num_frames x; overlap_ms := overlap_ms x;
     overlap_frames := overlap_frames x; input_buffers := input_buffers x; info_buffer :=
     info_buffer x; copy_buffers := copy_buffers x; resampler := resampler x;
     whisper_model_path := whisper_model_path x; whisper_context := whisper_context x;
     whisper_thread := whisper_thread x; whisper_buf_mutex := v; whisper_ctx_mutex :=
     whisper_ctx_mutex x; wshiper_thread_cv := wshiper_thread_cv x; text_source_mutex :=
     text_source_mutex x; text_source := text_source x; text_source_name := text_source_name
     x; output_file_path := output_file_path x; log_level := log_level x; vad_enabled :=
     vad_enabled x; log_words := log_words x; caption_to_stream := caption_to_stream x;
     active := active x; whisper_params := whisper_params x |}.
Definition set_whisper_ctx_mutex (v : option nat) (x : transcription_filter_data) : transcription_filter_data :=
  {| context := context x; channels := channels x; sample_rate := sample_rate x; frames :=
     frames x; last_num_frames := last_num_frames x; overlap_ms := overlap_ms x;
     overlap_frames := overlap_frames x; input_buffers := input_buffers x; info_buffer :=
     info_buffer x; copy_buffers := copy_buffers x; resampler := resampler x;
     whisper_model_path := whisper_model_path x; whisper_context := whisper_context x;
     whisper_thread := whisper_thread x; whisper_buf_mutex := whisper_buf_mutex x;
     whisper_ctx_mutex := v; wshiper_thread_cv := wshiper_thread_cv x; text_source_mutex :=
     text_source_mutex x; text_source := text_source x; text_source_name := text_source_name
     x; output_file_path := output_file_path x; log_level := log_level x; vad_enabled :=
     vad_enabled x; log_words := log_words x; caption_to_stream := caption_to_stream x;
     active := active x; whisper_params := whisper_params x |}.
Definition set_wshiper_thread_cv (v : option nat) (x : transcription_filter_data) : transcription_filter_data :=
  {| context := context x; channels := channels x; sample_rate := sample_rate x; frames :=
     frames x; last_num_frames := last_num_frames x; overlap_ms := overlap_ms x;
     overlap_frames := overlap_frames x; input_buffers := input_buffers x; info_buffer :=
     info_buffer x; copy_buffers := copy_buffers x; resampler := resampler x;
     whisper_model_path := whisper_model_path x; whisper_context := whisper_context x;
     whisper_thread := whisper_thread x; whisper_buf_mutex := whisper_buf_mutex x;
     whisper_ctx_mutex := whisper_ctx_mutex x; wshiper_thread_cv := v; text_source_mutex :=
     text_source_mutex x; text_source := text_source x; text_source_name := text_source_name
     x; output_file_path := output_file_path x; log_level := log_level x; vad_enabled :=
     vad_enabled x; log_words := log_words x; caption_to_stream := caption_to_stream x;
     active := active x; whisper_params := whisper_params x |}.
Definition set_text_source_mutex (v : option nat) (x : transcription_filter_data) : transcription_filter_data :=
  {| context := context x; channels := channels x; sample_rate := sample_rate x; frames :=
     frames x; last_num_frames := last_num_frames x; overlap_ms := overlap_ms x;
     overlap_frames := overlap_frames x; input_buffers := input_buffers x; info_buffer :=
     info_buffer x; copy_buffers := copy_buffers x; resampler := resampler x;
     whisper_model_path := whisper_model_path x; whisper_context := whisper_context x;
     whisper_thread := whisper_thread x; whisper_buf_mutex := whisper_buf_mutex x;
     whisper_ctx_mutex := whisper_ctx_mutex x; wshiper_thread_cv := wshiper_thread_cv x;
     text_source_mutex := v; text_source := text_source x; text_source_name :=
     text_source_name x; output_file_path := output_file_path x; log_level := log_level x;
     vad_enabled := vad_enabled x; log_words := log_words x; caption_to_stream :=
     caption_to_stream x; active := active x; whisper_params := whisper_params x |}.
Definition set_text_source (v : option nat) (x : transcription_filter_data) : transcription_filter_data :=
  {| context := context x; channels := channels x; sample_rate := sample_rate x; frames :=
     frames x; last_num_frames := last_num_frames x; overlap_ms := overlap_ms x;
     overlap_frames := overlap_frames x; input_buffers := input_buffers x; info_buffer :=
     info_buffer x; copy_buffers := copy_buffers x; resampler := resampler x;
     whisper_model_path := whisper_model_path x; whisper_context := whisper_context x;
     whisper_thread := whisper_thread x; whisper_buf_mutex := whisper_buf_mutex x;
     whisper_ctx_mutex := whisper_ctx_mutex x; wshiper_thread_cv := wshiper_thread_cv x;
     text_source_mutex := text_source_mutex x; text_source := v; text_source_name :=
     text_source_name x; output_file_path := output_file_path x; log_level := log_level x;
     vad_enabled := vad_enabled x; log_words := log_words x; caption_to_stream :=
     caption_to_stream x; active := active x; whisper_params := whisper_params x |}.
Definition set_text_source_name (v : option string) (x : transcription_filter_data) : transcription_filter_data :=
  {| context := context x; channels := channels x; sample_rate := sample_rate x; frames :=
     frames x; last_num_frames := last_num_frames x; overlap_ms := overlap_ms x;
     overlap_frames := overlap_frames x; input_buffers := input_buffers x; info_buffer :=
     info_buffer x; copy_buffers := copy_buffers x; resampler := resampler x;
     whisper_model_path := whisper_model_path x; whisper_context := whisper_context x;
     whisper_thread := whisper_thread x; whisper_buf_mutex := whisper_buf_mutex x;
     whisper_ctx_mutex := whisper_ctx_mutex x; wshiper_thread_cv := wshiper_thread_cv x;
     text_source_mutex := text_source_mutex x; text_source := text_source x;
     text_source_name := v; output_file_path := output_file_path x; log_level := log_level
     x; vad_enabled := vad_enabled x; log_words := log_words x; caption_to_stream :=
     caption_to_stream x; active := active x; whisper_params := whisper_params x |}.
Definition set_output_file_path (v : string) (x : transcription_filter_data) : transcription_filter_data :=
  {| context := context x; channels := channels x; sample_rate := sample_rate x; frames :=
     frames x; last_num_frames := last_num_frames x; overlap_ms := overlap_ms x;
     overlap_frames := overlap_frames x; input_buffers := input_buffers x; info_buffer :=
     info_buffer x; copy_buffers := copy_buffers x; resampler := resampler x;
     whisper_model_path := whisper_model_path x; whisper_context := whisper_context x;
     whisper_thread := whisper_thread x; whisper_buf_mutex := whisper_buf_mutex x;
     whisper_ctx_mutex := whisper_ctx_mutex x; wshiper_thread_cv := wshiper_thread_cv x;
     text_source_mutex := text_source_mutex x; text_source := text_source x;
     text_source_name := text_source_name x; output_file_path := v; log_level := log_level
     x; vad_enabled := vad_enabled x; log_words := log_words x; caption_to_stream :=
     caption_to_stream x; active := active x; whisper_params := whisper_params x |}.
Definition set_log_level (v : Z) (x : transcription_filter_data) : transcription_filter_data :=
  {| context := context x; channels := channels x; sample_rate := sample_rate x; frames :=
     frames x; last_num_frames := last_num_frames x; overlap_ms := overlap_ms x;
     overlap_frames := overlap_frames x; input_buffers := input_buffers x; info_buffer :=
     info_buffer x; copy_buffers := copy_buffers x; resampler := resampler x;
     whisper_model_path := whisper_model_path x; whisper_context := whisper_context x;
     whisper_thread := whisper_thread x; whisper_buf_mutex := whisper_buf_mutex x;
     whisper_ctx_mutex := whisper_ctx_mutex x; wshiper_thread_cv := wshiper_thread_cv x;
     text_source_mutex := text_source_mutex x; text_source := text_source x;
     text_source_name := text_source_name x; output_file_path := output_file_path x;
     log_level := v; vad_enabled := vad_enabled x; log_words := log_words x;
     caption_to_stream := caption_to_stream x; active := active x; whisper_params :=
     whisper_params x |}.
Definition set_vad_enabled (v : bool) (x : transcription_filter_data) : transcription_filter_data :=
  {| context := context x; channels := channels x; sample_rate := sample_rate x; frames :=
     frames x; last_num_frames := last_num_frames x; overlap_ms := overlap_ms x;
     overlap_frames := overlap_frames x; input_buffers := input_buffers x; info_buffer :=
     info_buffer x; copy_buffers := copy_buffers x; resampler := resampler x;
     whisper_model_path := whisper_model_path x; whisper_context := whisper_context x;
     whisper_thread := whisper_thread x; whisper_buf_mutex := whisper_buf_mutex x;
     whisper_ctx_mutex := whisper_ctx_mutex x; wshiper_thread_cv := wshiper_thread_cv x;
     text_source_mutex := text_source_mutex x; text_source := text_source x;
     text_source_name := text_source_name x; output_file_path := output_file_path x;
     log_level := log_level x; vad_enabled := v; log_words := log_words x; caption_to_stream
     := caption_to_stream x; active := active x; whisper_params := whisper_params x |}.
Definition set_log_words (v : bool) (x : transcription_filter_data) : transcription_filter_data :=
  {| context := context x; channels := channels x; sample_rate := sample_rate x; frames :=
     frames x; last_num_frames := last_num_frames x; overlap_ms := overlap_ms x;
     overlap_frames := overlap_frames x; input_buffers := input_buffers x; info_buffer :=
     info_buffer x; copy_buffers := copy_buffers x; resampler := resampler x;
     whisper_model_path := whisper_model_path x; whisper_context := whisper_context x;
     whisper_thread := whisper_thread x; whisper_buf_mutex := whisper_buf_mutex x;
     whisper_ctx_mutex := whisper_ctx_mutex x; wshiper_thread_cv := wshiper_thread_cv x;
     text_source_mutex := text_source_mutex x; text_source := text_source x;
     text_source_name := text_source_name x; output_file_path := output_file_path x;
     log_level := log_level x; vad_enabled := vad_enabled x; log_words := v;
     caption_to_stream := caption_to_stream x; active := active x; whisper_params :=
     whisper_params x |}.
Definition set_caption_to_stream (v : bool) (x : transcription_filter_data) : transcription_filter_data :=
  {| context := context x; channels := channels x; sample_rate := sample_rate x; frames :=
     frames x; last_num_frames := last_num_frames x; overlap_ms := overlap_ms x;
     overlap_frames := overlap_frames x; input_buffers := input_buffers x; info_buffer :=
     info_buffer x; copy_buffers := copy_buffers x; resampler := resampler x;
     whisper_model_path := whisper_model_path x; whisper_context := whisper_context x;
     whisper_thread := whisper_thread x; whisper_buf_mutex := whisper_buf_mutex x;
     whisper_ctx_mutex := whisper_ctx_mutex x; wshiper_thread_cv := wshiper_thread_cv x;
     text_source_mutex := text_source_mutex x; text_source := text_source x;
     text_source_name := text_source_name x; output_file_path := output_file_path x;
     log_level := log_level x; vad_enabled := vad_enabled x; log_words := log_words x;
     caption_to_stream := v; active := active x; whisper_params := whisper_params x |}.
Definition set_active (v : bool) (x : transcription_filter_data) : transcription_filter_data :=
  {| context := context x; channels := channels x; sample_rate := sample_rate x; frames :=
     frames x; last_num_frames := last_num_frames x; overlap_ms := overlap_ms x;
     overlap_frames := overlap_frames x; input_buffers := input_buffers x; info_buffer :=
     info_buffer x; copy_buffers := copy_buffers x; resampler := resampler x;
     whisper_model_path := whisper_model_path x; whisper_context := whisper_context x;
     whisper_thread := whisper_thread x; whisper_buf_mutex := whisper_buf_mutex x;
     whisper_ctx_mutex := whisper_ctx_mutex x; wshiper_thread_cv := wshiper_thread_cv x;
     text_source_mutex := text_source_mutex x; text_source := text_source x;
     text_source_name := text_source_name x; output_file_path := output_file_path x;
     log_level := log_level x; vad_enabled := vad_enabled x; log_words := log_words x;
     caption_to_stream := caption_to_stream x; active := v; whisper_params := whisper_params
     x |}.
Definition set_whisper_params (v : whisper_full_params) (x : transcription_filter_data) : transcription_filter_data :=
  {| context := context x; channels := channels x; sample_rate := sample_rate x; frames :=
     frames x; last_num_frames := last_num_frames x; overlap_ms := overlap_ms x;
     overlap_frames := overlap_frames x; input_buffers := input_buffers x; info_buffer :=
     info_buffer x; copy_buffers := copy_buffers x; resampler := resampler x;
     whisper_model_path := whisper_model_path x; whisper_context := whisper_context x;
     whisper_thread := whisper_thread x; whisper_buf_mutex := whisper_buf_mutex x;
     whisper_ctx_mutex := whisper_ctx_mutex x; wshiper_thread_cv := wshiper_thread_cv x;
     text_source_mutex := text_source_mutex x; text_source := text_source x;
     text_source_name := text_source_name x; output_file_path := output_file_path x;
     log_level := log_level x; vad_enabled := vad_enabled x; log_words := log_words x;
     caption_to_stream := caption_to_stream x; active := active x; whisper_params := v |}.

(** The struct as [bzalloc] leaves it: every pointer null, every number
    zero, every buffer empty.  The entries of the two [std::string] members
    stand for bytes that are no string yet; no callback reads them before
    the creation has assigned to the member. *)
Definition filter_data_zero : transcription_filter_data :=
  {| context := None; channels := 0%nat; sample_rate := 0; frames := 0; last_num_frames := 0;
     overlap_ms := 0; overlap_frames := 0; input_buffers := replicate MAX_AUDIO_CHANNELS [];
     info_buffer := []; copy_buffers := None; resampler := None; whisper_model_path := EmptyString;
     whisper_context := None; whisper_thread := None; whisper_buf_mutex := None;
     whisper_ctx_mutex := None; wshiper_thread_cv := None; text_source_mutex := None;
     text_source := None; text_source_name := None; output_file_path := EmptyString;
     log_level := 0; vad_enabled := false; log_words := false; caption_to_stream := false;
     active := false; whisper_params := whisper_params_zero |}.

(** ** The host and the trace *)

(** A text source of the host, by identity, name and displayed text. *)
Record obs_source := {
  src_id : nat;
  src_name : string;
  src_text : string
}.

(** What the destruction releases. *)
Inductive resource :=
  | text_source_name_string
  | resampler_handle
  | copy_buffer_arena
  | input_buffer_storage (c : nat)
  | info_buffer_storage
  | mutex_object (m : nat)
  | condvar_object (cv : nat)
  | filter_struct.

(** Synchronisation, engine, thread and sink events, in program order. *)
Inductive event :=
  | EvLock (m : nat)
  | EvUnlock (m : nat)
  | EvNotifyAll (cv : nat)
  | EvWhisperFree (h : nat)
  | EvStoreContext (v : option nat)
  | EvInitContext (path : string) (v : option nat)
  | EvJoin (t : nat)
  | EvSpawn (t : nat)
  | EvDownload (path : string)
  | EvRelease (r : resource)
  | EvWeakRelease (wk : nat)
  | EvGetSourceByName (name : string)
  | EvWeakGetSource (wk : nat).

Abbreviation log_entry := (Z * string)%type.

(** The filter instance and its surroundings.  [files] maps a path to the
    file's contents, [read_only] holds the paths that cannot be opened for
    writing, [sources] are the live text sources, [captions] what was sent to
    the streaming output, [model_files] the model files present locally (with
    whether the engine can load them), [next_id] the next fresh identity. *)
Record world := {
  gf : transcription_filter_data;
  files : gmap string string;
  read_only : gset string;
  sources : list obs_source;
  streaming_output : option nat;
  captions : list string;
  model_files : gmap string bool;
  audio_channels : nat;
  audio_sample_rate : Z;
  next_id : nat;
  log : list log_entry;
  trace : list event
}.

Definition set_gf (v : transcription_filter_data) (x : world) : world :=
  {| gf := v; files := files x; read_only := read_only x; sources := sources x;
     streaming_output := streaming_output x; captions := captions x; model_files :=
     model_files x; audio_channels := audio_channels x; audio_sample_rate :=
     audio_sample_rate x; next_id := next_id x; log := log x; trace := trace x |}.
Definition set_files (v : gmap string string) (x : world) : world :=
  {| gf := gf x; files := v; read_only := read_only x; sources := sources x;
     streaming_output := streaming_output x; captions := captions x; model_files :=
     model_files x; audio_channels := audio_channels x; audio_sample_rate :=
     audio_sample_rate x; next_id := next_id x; log := log x; trace := trace x |}.
Definition set_read_only (v : gset string) (x : world) : world :=
  {| gf := gf x; files := files x; read_only := v; sources := sources x; streaming_output :=
     streaming_output x; captions := captions x; model_files := model_files x;
     audio_channels := audio_channels x; audio_sample_rate := audio_sample_rate x; next_id
     := next_id x; log := log x; trace := trace x |}.
Definition set_sources (v : list obs_source) (x : world) : world :=
  {| gf := gf x; files := files x; read_only := read_only x; sources := v; streaming_output
     := streaming_output x; captions := captions x; model_files := model_files x;
     audio_channels := audio_channels x; audio_sample_rate := audio_sample_rate x; next_id
     := next_id x; log := log x; trace := trace x |}.
Definition set_streaming_output (v : option nat) (x : world) : world :=
  {| gf := gf x; files := files x; read_only := read_only x; sources := sources x;
     streaming_output := v; captions := captions x; model_files := model_files x;
     audio_channels := audio_channels x; audio_sample_rate := audio_sample_rate x; next_id
     := next_id x; log := log x; trace := trace x |}.
Definition set_captions (v : list string) (x : world) : world :=
  {| gf := gf x; files := files x; read_only := read_only x; sources := sources x;
     streaming_output := streaming_output x; captions := v; model_files := model_files x;
     audio_channels := audio_channels x; audio_sample_rate := audio_sample_rate x; next_id
     := next_id x; log := log x; trace := trace x |}.
Definition set_model_files (v : gmap string bool) (x : world) : world :=
  {| gf := gf x; files := files x; read_only := read_only x; sources := sources x;
     streaming_output := streaming_output x; captions := captions x; model_files := v;
     audio_channels := audio_channels x; audio_sample_rate := audio_sample_rate x; next_id
     := next_id x; log := log x; trace := trace x |}.
Definition set_audio_channels (v : nat) (x : world) : world :=
  {| gf := gf x; files := files x; read_only := read_only x; sources := sources x;
     streaming_output := streaming_output x; captions := captions x; model_files :=
     model_files x; audio_channels := v; audio_sample_rate := audio_sample_rate x; next_id
     := next_id x; log := log x; trace := trace x |}.
Definition set_audio_sample_rate (v : Z) (x : world) : world :=
  {| gf := gf x; files := files x; read_only := read_only x; sources := sources x;
     streaming_output := streaming_output x; captions := captions x; model_files :=
     model_files x; audio_channels := audio_channels x; audio_sample_rate := v; next_id :=
     next_id x; log := log x; trace := trace x |}.
Definition set_next_id (v : nat) (x : world) : world :=
  {| gf := gf x; files := files x; read_only := read_only x; sources := sources x;
     streaming_output := streaming_output x; captions := captions x; model_files :=
     model_files x; audio_channels := audio_channels x; audio_sample_rate :=
     audio_sample_rate x; next_id := v; log := log x; trace := trace x |}.
Definition set_log (v : list log_entry) (x : world) : world :=
  {| gf := gf x; files := files x; read_only := read_only x; sources := sources x;
     streaming_output := streaming_output x; captions := captions x; model_files :=
     model_files x; audio_channels := audio_channels x; audio_sample_rate :=
     audio_sample_rate x; next_id := next_id x; log := v; trace := trace x |}.
Definition set_trace (v : list event) (x : world) : world :=
  {| gf := gf x; files := files x; read_only := read_only x; sources := sources x;
     streaming_output := streaming_output x; captions := captions x; model_files :=
     model_files x; audio_channels := audio_channels x; audio_sample_rate :=
     audio_sample_rate x; next_id := next_id x; log := log x; trace := v |}.

(** ** The monad of the callbacks *)

(** A statement continues with a value, leaves the function with its result
    ([return]), or crashes. *)
Inductive outcome (R A : Type) :=
  | Next (a : A)
  | Return (r : R)
  | Abort.
Arguments Next {R A} a.
Arguments Return {R A} r.
Arguments Abort {R A}.

Definition M (R A : Type) : Type := world → outcome R A * world.

#[global] Instance M_ret {R} : MRet (M R) := λ A a w, (Next a, w).

#[global] Instance M_bind {R} : MBind (M R) := λ A B f m w,
  match m w with
  | (Next a, w') => f a w'
  | (Return r, w') => (Return r, w')
  | (Abort, w') => (Abort, w')
  end.

Definition return_ {R A} (r : R) : M R A := λ w, (Return r, w).
Definition abort {R A} : M R A := λ w, (Abort, w).

(** Read a field of [*gf], assign to fields of [*gf]. *)
Definition gets {R A} (f : transcription_filter_data → A) : M R A := λ w, (Next (f (gf w)), w).
Definition modify {R} (f : transcription_filter_data → transcription_filter_data) : M R unit :=
  λ w, (Next tt, set_gf (f (gf w)) w).

(** Read and change the host. *)
Definition host {R A} (f : world → A) : M R A := λ w, (Next (f w), w).
Definition modify_host {R} (f : world → world) : M R unit := λ w, (Next tt, f w).

Definition emit {R} (e : event) : M R unit := λ w, (Next tt, set_trace (trace w ++ [e]) w).
Definition obs_log {R} (level : Z) (msg : string) : M R unit :=
  λ w, (Next tt, set_log (log w ++ [(level, msg)]) w).

Definition fresh {R} : M R nat := λ w, (Next (next_id w), set_next_id (S (next_id w)) w).

(** Dereference: a null pointer crashes. *)
Definition deref {R A} (p : option A) : M R A :=
  match p with
  | Some a => mret a
  | None => abort
  end.

Definition when {R} (b : bool) (m : M R unit) : M R unit := if b then m else mret tt.

(** A call: the callee's [return] ends the callee only. *)
Definition call {R A} (f : M A A) : M R A := λ w,
  match f w with
  | (Next a, w') | (Return a, w') => (Next a, w')
  | (Abort, w') => (Abort, w')
  end.

(** [std::lock_guard] over the rest of its block: the mutex is released when
    the block is left, by falling through or by [return]. *)
Definition lock_guard {R A} (mtx : nat) (body : M R A) : M R A := λ w,
  match body (set_trace (trace w ++ [EvLock mtx]) w) with
  | (Abort, w') => (Abort, w')
  | (o, w') => (o, set_trace (trace w' ++ [EvUnlock mtx]) w')
  end.

(** [for (size_t c = i; c < i + n; c++) body(c)]. *)
Fixpoint for_range {R} (i : nat) (n : nat) (body : nat → M R unit) : M R unit :=
  match n with
  | O => mret tt
  | S n' => body i ;; for_range (S i) n' body
  end.

(** The result of a callback run to its end; [None] is a crash. *)
Definition run {R} (f : M R R) (w : world) : option R * world :=
  match f w with
  | (Next r, w') | (Return r, w') => (Some r, w')
  | (Abort, w') => (None, w')
  end.

(** ** transcription_filter_filter_audio *)

(** The [void *data] of the callbacks: null, or the instance [gf]. *)
Inductive instance := the_filter.

Definition is_null {A} (p : option A) : bool :=
  match p with
  | Some _ => false
  | None => true
  end.

(** The body of the loop over the channels: push back the samples of
    channel [c]. *)
Definition push_samples (a : obs_audio_data) (c : nat) : M (option obs_audio_data) unit :=
  bufs ← gets input_buffers;
  cb ← deref (bufs !! c);
  plane ← deref (audio.data a !! c);
  cb' ← deref (circlebuf_push_back cb plane (size_t (audio.frames a * sizeof_float)));
  modify (set_input_buffers (<[c := cb']> bufs)).

Definition transcription_filter_filter_audio
    (data : option instance) (audio : option obs_audio_data)
    : M (option obs_audio_data) (option obs_audio_data) :=
  match audio with
  | None => return_ None
  | Some a =>
    match data with
    | None => return_ (Some a)
    | Some the_filter =>
      act ← gets active;
      if negb act then return_ (Some a) else
      ctx ← gets whisper_context;
      if is_null ctx then
        (* Whisper not initialized, just pass through *)
        return_ (Some a)
      else
      buf_mutex ← gets whisper_buf_mutex;
      ctx_mutex ← gets whisper_ctx_mutex;
      if is_null buf_mutex || is_null ctx_mutex then
        obs_log LOG_ERROR "whisper mutexes are null" ;;
        return_ (Some a)
      else
      m ← deref buf_mutex;
      lock_guard m (
        level ← gets log_level;
        obs_log level "pushing %lu frames to input buffer. current size: %lu (bytes)" ;;
        (* push back current audio data to input circlebuf *)
        n ← gets channels;
        for_range 0 n (push_samples a) ;;
        (* push audio packet info (timestamp/frame count) to info circlebuf *)
        let info := {| info.frames := audio.frames a; info.timestamp := audio.timestamp a |} in
        q ← gets info_buffer;
        modify (set_info_buffer (q ++ [info]))) ;;
      mret (Some a)
    end
  end.

(** ** Host, engine and thread primitives *)

(** [obs_get_source_by_name]: the live source of that name, if any. *)
Definition obs_get_source_by_name {R} (name : string) : M R (option obs_source) :=
  emit (EvGetSourceByName name) ;;
  host (λ w, List.find (λ s, String.eqb (src_name s) name) (sources w)).

(** [obs_source_get_weak_source] of a non-null source is never null. *)
Definition obs_source_get_weak_source (s : obs_source) : option nat := Some (src_id s).

(** [obs_weak_source_get_source]: the source behind a weak reference, null
    once that source is gone. *)
Definition obs_weak_source_get_source {R} (wk : nat) : M R (option obs_source) :=
  emit (EvWeakGetSource wk) ;;
  host (λ w, List.find (λ s, Nat.eqb (src_id s) wk) (sources w)).

(** [obs_data_set_string(settings, "text", str); obs_source_update(target, settings)]. *)
Definition obs_source_update_text {R} (target : obs_source) (str : string) : M R unit :=
  modify_host (λ w,
    set_sources
      (map (λ s, if Nat.eqb (src_id s) (src_id target)
                 then {| src_id := src_id s; src_name := src_name s; src_text := str |}
                 else s)
           (sources w)) w).

(** [obs_output_output_caption_text1] on the streaming output. *)
Definition obs_output_output_caption_text1 {R} (str : string) : M R unit :=
  modify_host (λ w, set_captions (captions w ++ [str]) w).

(** [std::ofstream f(path, out | trunc); f << str; f.close()]: the file then
    holds [str] and nothing else; a file that cannot be opened is left alone. *)
Definition ofstream_write_trunc {R} (path str : string) : M R unit :=
  modify_host (λ w,
    if decide (path ∈ read_only w) then w
    else set_files (<[path := str]> (files w)) w).

(** Modelled from the spec: check_if_model_exists (model-downloader), "given a
    model path, reports existence". *)
Definition check_if_model_exists {R} (path : string) : M R bool :=
  host (λ w, bool_decide (is_Some (model_files w !! path))).

(** Modelled from the spec: init_whisper_context (whisper-processing),
    "create(model_path) -> handle | failure", where creation fails on a
    missing, malformed or incompatible weight file. *)
Definition init_whisper_context {R} (path : string) : M R (option nat) :=
  present ← host (λ w, model_files w !! path);
  match present with
  | Some true => h ← fresh; emit (EvInitContext path (Some h)) ;; mret (Some h)
  | _ => emit (EvInitContext path None) ;; mret None
  end.

(** Modelled from the spec: download_model_with_ui_dialog (model-downloader),
    "performs an asynchronous fetch and invokes a completion callback with a
    success/failure status"; the call only starts the fetch. *)
Definition download_model_with_ui_dialog {R} (path : string) : M R unit :=
  emit (EvDownload path).

Definition whisper_free {R} (h : nat) : M R unit := emit (EvWhisperFree h).

(** [gf->whisper_context = v], a store the worker thread observes. *)
Definition store_context {R} (v : option nat) : M R unit :=
  modify (set_whisper_context v) ;; emit (EvStoreContext v).

(** [if (gf->whisper_thread.joinable()) gf->whisper_thread.join();] *)
Definition join_whisper_thread {R} : M R unit :=
  t ← gets whisper_thread;
  match t with
  | Some t => emit (EvJoin t) ;; modify (set_whisper_thread None)
  | None => mret tt
  end.

(** [std::thread new_whisper_thread(whisper_loop, gf);
     gf->whisper_thread.swap(new_whisper_thread);]
    The local then holds the previous thread and is destroyed at the end of
    the block: [std::terminate] if that thread is still joinable. *)
Definition start_whisper_thread {R} : M R unit :=
  t ← fresh;
  emit (EvSpawn t) ;;
  old ← gets whisper_thread;
  modify (set_whisper_thread (Some t)) ;;
  if is_null old then mret tt else abort.

(** [bfree], [delete] and the like do nothing on a null pointer. *)
Definition release {R A} (p : option A) (r : A → resource) : M R unit :=
  match p with
  | Some a => emit (EvRelease (r a))
  | None => mret tt
  end.

(** ** transcription_filter_destroy *)

(** The body of the loop over the channels: free the ring buffer of
    channel [i]. *)
Definition free_input_buffer (i : nat) : M unit unit :=
  bufs ← gets input_buffers;
  cb ← deref (bufs !! i);
  emit (EvRelease (input_buffer_storage i)) ;;
  modify (set_input_buffers (<[i := circlebuf_free cb]> bufs)).

Definition transcription_filter_destroy : M unit unit :=
  level ← gets log_level;
  obs_log level "transcription_filter_destroy" ;;
  ctx_mutex ← gets whisper_ctx_mutex;
  m ← deref ctx_mutex;
  lock_guard m (
    ctx ← gets whisper_context;
    match ctx with
    | Some h =>
      whisper_free h ;;
      store_context None ;;
      cv ← gets wshiper_thread_cv;
      c ← deref cv;
      emit (EvNotifyAll c)
    | None => mret tt
    end) ;;
  (* join the thread *)
  join_whisper_thread ;;
  name ← gets text_source_name;
  when (negb (is_null name)) (
    release name (λ _, text_source_name_string) ;;
    modify (set_text_source_name None)) ;;
  ts ← gets text_source;
  match ts with
  | Some wk => emit (EvWeakRelease wk) ;; modify (set_text_source None)
  | None => mret tt
  end ;;
  r ← gets resampler;
  release r (λ _, resampler_handle) ;;
  buf_mutex ← gets whisper_buf_mutex;
  mb ← deref buf_mutex;
  lock_guard mb (
    copy ← gets copy_buffers;
    release copy (λ _, copy_buffer_arena) ;;
    modify (set_copy_buffers None) ;;
    n ← gets channels;
    for_range 0 n free_input_buffer) ;;
  emit (EvRelease info_buffer_storage) ;;
  modify (set_info_buffer []) ;;
  buf_mutex ← gets whisper_buf_mutex;
  release buf_mutex mutex_object ;;
  ctx_mutex ← gets whisper_ctx_mutex;
  release ctx_mutex mutex_object ;;
  cv ← gets wshiper_thread_cv;
  release cv condvar_object ;;
  text_mutex ← gets text_source_mutex;
  release text_mutex mutex_object ;;
  emit (EvRelease filter_struct).

(** ** The output router *)

Definition acquire_weak_text_source_ref : M unit unit :=
  name ← gets text_source_name;
  match name with
  | None =>
    obs_log LOG_ERROR "text_source_name is null" ;;
    return_ tt
  | Some name =>
    mtx ← gets text_source_mutex;
    m ← deref mtx;
    lock_guard m (
      (* acquire a weak ref to the new text source *)
      source ← obs_get_source_by_name name;
      match source with
      | Some src =>
        modify (set_text_source (obs_source_get_weak_source src)) ;;
        ts ← gets text_source;
        when (is_null ts) (obs_log LOG_ERROR "failed to get weak source for text source %s")
      | None => obs_log LOG_ERROR "text source '%s' not found"
      end)
  end.

Definition set_text_callback (str : string) : M unit unit :=
  cap ← gets caption_to_stream;
  when cap (
    out ← host streaming_output;
    when (negb (is_null out)) (obs_output_output_caption_text1 str)) ;;
  path ← gets output_file_path;
  name ← gets text_source_name;
  if negb (String.eqb path EmptyString) && is_null name then
    (* Write to file, do not append *)
    ofstream_write_trunc path str
  else
    mtx ← gets text_source_mutex;
    if is_null mtx then
      obs_log LOG_ERROR "text_source_mutex is null" ;;
      return_ tt
    else
    ts ← gets text_source;
    when (is_null ts) (
      (* attempt to acquire a weak ref to the text source if it's yet available *)
      call acquire_weak_text_source_ref) ;;
    m ← deref mtx;
    lock_guard m (
      ts ← gets text_source;
      match ts with
      | None =>
        obs_log LOG_ERROR "text_source is null" ;;
        return_ tt
      | Some wk =>
        target ← obs_weak_source_get_source wk;
        match target with
        | None =>
          obs_log LOG_ERROR "text_source target is null" ;;
          return_ tt
        | Some src => obs_source_update_text src str
        end
      end).

(** ** transcription_filter_activate, transcription_filter_deactivate *)

Definition transcription_filter_activate : M unit unit :=
  level ← gets log_level;
  obs_log level "transcription_filter filter activated" ;;
  modify (set_active true).

Definition transcription_filter_deactivate : M unit unit :=
  level ← gets log_level;
  obs_log level "transcription_filter filter deactivated" ;;
  modify (set_active false).

(** ** transcription_filter_update, transcription_filter_create *)

Section Filter.

(** Constants of the filter's own headers, and the frame count of a duration,
    which the source computes in single precision:
    [(size_t)((float)sample_rate / (1000.0f / (float)msec))]. *)
Variable BUFFER_SIZE_MSEC : Z.
Variable OVERLAP_SIZE_MSEC : Z.
Variable frames_of_msec : Z → Z → Z.

(** The creation takes the instance from [bzalloc] and runs no constructor
    on it.  Its [std::string] members [whisper_model_path] and
    [output_file_path] therefore start as zero bytes, and the first
    assignment to each (lines 399 and 430) is made to an object that was
    never constructed: undefined behaviour, whose outcome is that of the C++
    library in use.  [string_on_zero_bytes v] tells whether, with that
    library, [member = std::string(v)] on zero bytes goes through, leaving
    [v] in the member; where it does not, the process crashes there. *)
Variable string_on_zero_bytes : string → bool.

Definition assign_unconstructed (v : string)
    (set : string → transcription_filter_data → transcription_filter_data)
    : M (option instance) unit :=
  if string_on_zero_bytes v then modify (set v) else abort.

(** The test on the selected subtitle output; the host never hands out a
    null string, so the source's null test is always false. *)
Definition text_source_name_invalid (new_text_source_name : string) : bool :=
  (strcmp new_text_source_name "none" =? 0) ||
  (strcmp new_text_source_name "(null)" =? 0) ||
  (strcmp new_text_source_name "text_file" =? 0) ||
  (strlen new_text_source_name =? 0).

(** The block both branches of the update use to detach the cached weak
    reference: it yields [old_weak_text_source]. *)
Definition detach_text_source : M unit (option nat) :=
  ts ← gets text_source;
  match ts with
  | Some wk =>
    mtx ← gets text_source_mutex;
    if is_null mtx then
      obs_log LOG_ERROR "text_source_mutex is null" ;;
      return_ tt
    else
    m ← deref mtx;
    lock_guard m (
      modify (set_text_source None) ;;
      mret (Some wk))
  | None => mret None
  end.

Definition free_text_source_name : M unit unit :=
  name ← gets text_source_name;
  when (negb (is_null name)) (
    release name (λ _, text_source_name_string) ;;
    modify (set_text_source_name None)).

(** The parameters the update assigns.  The cast to the enumeration at line
    347 keeps the low 32 bits of the 64-bit setting, as the casts to [int]
    of the integer fields do. *)
Definition update_whisper_params (s : obs_data) : whisper_full_params :=
  {| strategy := to_int (obs_data_get_int s "whisper_sampling_method");
     duration_ms := BUFFER_SIZE_MSEC;
     language := obs_data_get_string s "whisper_language_select";
     initial_prompt := obs_data_get_string s "initial_prompt";
     n_threads := to_int (obs_data_get_int s "n_threads");
     n_max_text_ctx := to_int (obs_data_get_int s "n_max_text_ctx");
     translate := obs_data_get_bool s "translate";
     no_context := obs_data_get_bool s "no_context";
     single_segment := obs_data_get_bool s "single_segment";
     print_special := obs_data_get_bool s "print_special";
     print_progress := obs_data_get_bool s "print_progress";
     print_realtime := obs_data_get_bool s "print_realtime";
     print_timestamps := obs_data_get_bool s "print_timestamps";
     token_timestamps := obs_data_get_bool s "token_timestamps";
     thold_pt := float_cast (obs_data_get_double s "thold_pt");
     thold_ptsum := float_cast (obs_data_get_double s "thold_ptsum");
     max_len := to_int (obs_data_get_int s "max_len");
     split_on_word := obs_data_get_bool s "split_on_word";
     max_tokens := to_int (obs_data_get_int s "max_tokens");
     speed_up := obs_data_get_bool s "speed_up";
     suppress_blank := obs_data_get_bool s "suppress_blank";
     suppress_non_speech_tokens := obs_data_get_bool s "suppress_non_speech_tokens";
     temperature := float_cast (obs_data_get_double s "temperature");
     max_initial_ts := float_cast (obs_data_get_double s "max_initial_ts");
     length_penalty := float_cast (obs_data_get_double s "length_penalty") |}.

(** The update runs in three steps: the text source, the whisper model, the
    whisper parameters.  A [return] in a step leaves the whole update. *)

(** update the text source *)
Definition update_text_source (s : obs_data) : M unit unit :=
  level ← gets log_level;
  obs_log level "transcription_filter: update text source" ;;
  let new_text_source_name := obs_data_get_string s "subtitle_sources" in
  old_weak_text_source ← (
    if text_source_name_invalid new_text_source_name then
      (* new selected text source is not valid, release the old one *)
      old ← detach_text_source;
      free_text_source_name ;;
      modify (set_output_file_path EmptyString) ;;
      when (strcmp new_text_source_name "text_file" =? 0) (
        (* set the output file path *)
        let output_file_path := obs_data_get_string s "subtitle_output_filename" in
        when (0 <? strlen output_file_path) (modify (set_output_file_path output_file_path))) ;;
      mret old
    else
      (* new selected text source is valid, check if it's different from the old one *)
      name ← gets text_source_name;
      if match name with
         | None => true
         | Some name => negb (strcmp new_text_source_name name =? 0)
         end
      then
        (* new text source is different from the old one, release the old one *)
        old ← detach_text_source;
        free_text_source_name ;;
        modify (set_text_source_name (Some new_text_source_name)) ;;
        mret old
      else mret None);
  match old_weak_text_source with
  | Some wk =>
    obs_log level "releasing old text source" ;;
    emit (EvWeakRelease wk)
  | None => mret tt
  end.

(** update the whisper model path *)
Definition update_whisper_model (s : obs_data) : M unit unit :=
  level ← gets log_level;
  obs_log level "transcription_filter: update whisper model" ;;
  let new_model_path := obs_data_get_string s "whisper_model_path" in
  model_path ← gets whisper_model_path;
  when (negb (String.eqb new_model_path model_path)) (
    (* model path changed, reload the model *)
    obs_log LOG_INFO "model path changed, reloading model" ;;
    ctx ← gets whisper_context;
    match ctx with
    | Some h =>
      (* acquire the mutex before freeing the context *)
      ctx_mutex ← gets whisper_ctx_mutex;
      cv ← gets wshiper_thread_cv;
      if is_null ctx_mutex || is_null cv then
        obs_log LOG_ERROR "whisper_ctx_mutex is null" ;;
        return_ tt
      else
      m ← deref ctx_mutex;
      lock_guard m (
        whisper_free h ;;
        store_context None ;;
        c ← deref cv;
        emit (EvNotifyAll c))
    | None => mret tt
    end ;;
    join_whisper_thread ;;
    modify (set_whisper_model_path new_model_path) ;;
    (* check if the model exists, if not, download it *)
    path ← gets whisper_model_path;
    present ← check_if_model_exists path;
    if negb present then
      obs_log LOG_ERROR "Whisper model does not exist" ;;
      download_model_with_ui_dialog path
    else
      (* Model exists, just load it *)
      ctx ← init_whisper_context path;
      store_context ctx ;;
      start_whisper_thread).

(** update whisper params *)
Definition update_whisper_full_params (s : obs_data) : M unit unit :=
  ctx_mutex ← gets whisper_ctx_mutex;
  if is_null ctx_mutex then
    obs_log LOG_ERROR "whisper_ctx_mutex is null" ;;
    return_ tt
  else
  level ← gets log_level;
  obs_log level "transcription_filter: update whisper params" ;;
  m ← deref ctx_mutex;
  lock_guard m (modify (set_whisper_params (update_whisper_params s))).

Definition transcription_filter_update (s : obs_data) : M unit unit :=
  level ← gets log_level;
  obs_log level "transcription_filter_update" ;;
  modify (set_log_level (to_int (obs_data_get_int s "log_level"))) ;;
  modify (set_vad_enabled (obs_data_get_bool s "vad_enabled")) ;;
  modify (set_log_words (obs_data_get_bool s "log_words")) ;;
  modify (set_caption_to_stream (obs_data_get_bool s "caption_to_stream")) ;;
  update_text_source s ;;
  update_whisper_model s ;;
  update_whisper_full_params s.

(** The completion callback the update hands to the download. *)
Definition model_download_callback (download_status : Z) : M unit unit :=
  if download_status =? 0 then
    obs_log LOG_INFO "Model download complete" ;;
    path ← gets whisper_model_path;
    ctx ← init_whisper_context path;
    store_context ctx ;;
    start_whisper_thread
  else
    obs_log LOG_ERROR "Model download failed".

(** The result is the [void *] handed back to the host: null, or the new
    instance.  The struct starts as the zero bytes of [bzalloc]; of its
    members of class type the two strings are assigned with
    [assign_unconstructed], and the [std::thread], whose zero bytes are the
    id of no thread, starts as not joinable.  On the failure path the struct
    and its copy buffer are not given back. *)
Definition transcription_filter_create (settings : obs_data) (filter : nat)
    : M (option instance) (option instance) :=
  modify (λ _, filter_data_zero) ;;
  (* Get the number of channels for the input source *)
  n ← host audio_channels;
  modify (set_channels n) ;;
  rate ← host audio_sample_rate;
  modify (set_sample_rate rate) ;;
  modify (set_frames (frames_of_msec rate BUFFER_SIZE_MSEC)) ;;
  modify (set_last_num_frames 0) ;;
  modify (set_input_buffers (replicate MAX_AUDIO_CHANNELS circlebuf_init)) ;;
  modify (set_info_buffer []) ;;
  (* allocate copy buffers *)
  window ← gets frames;
  modify (set_copy_buffers (Some (size_t (Z.of_nat n * window * sizeof_float)))) ;;
  modify (set_context (Some filter)) ;;
  assign_unconstructed (obs_data_get_string settings "whisper_model_path")
    set_whisper_model_path ;;
  path ← gets whisper_model_path;
  ctx ← init_whisper_context path;
  store_context ctx ;;
  if is_null ctx then
    obs_log LOG_ERROR "Failed to load whisper model" ;;
    return_ None
  else
  modify (set_overlap_ms OVERLAP_SIZE_MSEC) ;;
  modify (set_overlap_frames (frames_of_msec rate OVERLAP_SIZE_MSEC)) ;;
  level ← gets log_level;
  obs_log level "transcription_filter: channels %d, frames %d, sample_rate %d" ;;
  obs_log level "transcription_filter: setup audio resampler" ;;
  let src := {| samples_per_sec := rate;
                speakers := convert_speaker_layout (Z.of_nat n mod 256) |} in
  let dst := {| samples_per_sec := WHISPER_SAMPLE_RATE;
                speakers := convert_speaker_layout 1 |} in
  modify (set_resampler (Some (dst, src))) ;;
  obs_log level "transcription_filter: setup mutexes and condition variables" ;;
  buf_mutex ← fresh;
  modify (set_whisper_buf_mutex (Some buf_mutex)) ;;
  ctx_mutex ← fresh;
  modify (set_whisper_ctx_mutex (Some ctx_mutex)) ;;
  cv ← fresh;
  modify (set_wshiper_thread_cv (Some cv)) ;;
  text_mutex ← fresh;
  modify (set_text_source_mutex (Some text_mutex)) ;;
  modify (set_text_source None) ;;
  modify (set_text_source_name (Some (obs_data_get_string settings "subtitle_sources"))) ;;
  assign_unconstructed EmptyString set_output_file_path ;;
  obs_log level "transcription_filter: run update" ;;
  (* get the settings updated on the filter data struct *)
  call (transcription_filter_update settings) ;;
  level ← gets log_level;
  obs_log level "transcription_filter: start whisper thread" ;;
  (* start the thread *)
  start_whisper_thread ;;
  modify (set_active true) ;;
  level ← gets log_level;
  obs_log level "transcription_filter: filter created." ;;
  mret (Some the_filter).

End Filter.

(** Two C++ libraries.  With the first, zero bytes are an empty string (so
    libc++ builds its empty string), and every assignment goes through.
    With the second (libstdc++, as of GCC 12), zero bytes are a string whose
    data pointer is null: the move assignment takes over the heap buffer of
    a value longer than the 15 characters a string keeps in place, and
    writes any shorter value, the empty one included, through the null
    pointer. *)
Definition zero_is_empty : string → bool := λ _, true.

Definition libstdcxx : string → bool := λ v, (15 <? String.length v)%nat.

(** ** Specification vocabulary *)

(** One packet handed to the ingest stage of the instance. *)
Definition ingest (a : obs_audio_data) (w : world) : option (option obs_audio_data) * world :=
  run (transcription_filter_filter_audio (Some the_filter) (Some a)) w.

(** A sequence of packets, one call each; the results are collected, and a
    crash ends the sequence. *)
Fixpoint ingest_all (ps : list obs_audio_data) (w : world)
    : option (list (option obs_audio_data)) * world :=
  match ps with
  | [] => (Some [], w)
  | a :: ps' =>
    match ingest a w with
    | (Some r, w') =>
      match ingest_all ps' w' with
      | (Some rs, w'') => (Some (r :: rs), w'')
      | (None, w'') => (None, w'')
      end
    | (None, w') => (None, w')
    end
  end.

(** A packet the host may deliver to a filter of [n] channels: the frame
    count is a [uint32_t], and each of the first [n] planes holds at least
    [frames] floats. *)
Definition packet_fits (n : nat) (a : obs_audio_data) : Prop :=
  uint32 (audio.frames a) ∧
  (n ≤ length (audio.data a))%nat ∧
  Forall (λ plane : list Byte.byte, audio.frames a * sizeof_float <= Z.of_nat (length plane))
         (take n (audio.data a)).

Definition info_of (a : obs_audio_data) : transcription_filter_audio_info :=
  {| info.frames := audio.frames a; info.timestamp := audio.timestamp a |}.

Definition sum_frames (ps : list obs_audio_data) : Z :=
  foldr (λ a acc, audio.frames a + acc) 0 ps.

(** Events on the engine handle or the worker thread. *)
Definition engine_event (e : event) : bool :=
  match e with
  | EvNotifyAll _ | EvWhisperFree _ | EvStoreContext _ | EvInitContext _ _
  | EvJoin _ | EvSpawn _ | EvDownload _ => true
  | _ => false
  end.

(** The join of a thread handle: nothing for a thread that is not joinable. *)
Definition join_of (t : option nat) : list event :=
  match t with
  | Some t => [EvJoin t]
  | None => []
  end.

(** The locks, the condition variable and the buffer array every callback
    relies on, as creation sets them up. *)
Definition filter_wf (g : transcription_filter_data) : Prop :=
  is_Some (whisper_buf_mutex g) ∧
  is_Some (whisper_ctx_mutex g) ∧
  is_Some (wshiper_thread_cv g) ∧
  is_Some (text_source_mutex g) ∧
  (channels g ≤ MAX_AUDIO_CHANNELS)%nat ∧
  length (input_buffers g) = MAX_AUDIO_CHANNELS.

(** Frame conditions: what a step leaves as it was.  [engine_kept] is the
    engine handle, the worker thread, the model path and the supply of fresh
    identities; [setup_kept] the locks, the condition variable and the
    buffers; [host_kept] the host's files, sources and captions. *)
Record engine_kept (w w' : world) : Prop := {
  kept_context : whisper_context (gf w') = whisper_context (gf w);
  kept_thread : whisper_thread (gf w') = whisper_thread (gf w);
  kept_model_path : whisper_model_path (gf w') = whisper_model_path (gf w);
  kept_next_id : next_id w' = next_id w
}.

Record setup_kept (w w' : world) : Prop := {
  kept_buf_mutex : whisper_buf_mutex (gf w') = whisper_buf_mutex (gf w);
  kept_ctx_mutex : whisper_ctx_mutex (gf w') = whisper_ctx_mutex (gf w);
  kept_cv : wshiper_thread_cv (gf w') = wshiper_thread_cv (gf w);
  kept_text_mutex : text_source_mutex (gf w') = text_source_mutex (gf w);
  kept_channels : channels (gf w') = channels (gf w);
  kept_input_buffers : input_buffers (gf w') = input_buffers (gf w);
  kept_info_buffer : info_buffer (gf w') = info_buffer (gf w);
  kept_active : active (gf w') = active (gf w)
}.

Record host_kept (w w' : world) : Prop := {
  kept_files : files w' = files w;
  kept_read_only : read_only w' = read_only w;
  kept_sources : sources w' = sources w;
  kept_streaming_output : streaming_output w' = streaming_output w;
  kept_captions : captions w' = captions w;
  kept_model_files : model_files w' = model_files w
}.

(** The shutdown request: under the engine lock, free and null the handle
    and wake the worker; nothing to do on a handle that is null already. *)
Definition shutdown_events (mc cv : nat) (ctx : option nat) : list event :=
  [EvLock mc] ++
  match ctx with
  | Some h => [EvWhisperFree h; EvStoreContext None; EvNotifyAll cv]
  | None => []
  end ++
  [EvUnlock mc].

(** Events that give a resource back. *)
Definition release_event (e : event) : bool :=
  match e with
  | EvRelease _ | EvWeakRelease _ => true
  | _ => false
  end.

(** The event of a [bfree] or [delete]: none on a null pointer. *)
Definition release_of {A} (p : option A) (r : A → resource) : list event :=
  match p with
  | Some a => [EvRelease (r a)]
  | None => []
  end.

(** The live source a name or a weak reference resolves to. *)
Definition source_named (name : string) (w : world) : option obs_source :=
  List.find (λ s, String.eqb (src_name s) name) (sources w).

Definition source_of_weak (wk : nat) (w : world) : option obs_source :=
  List.find (λ s, Nat.eqb (src_id s) wk) (sources w).

(** The next publish resolves the sink again: it looks the configured name
    up, whatever the host's sources are by then. *)
Definition resolves_again (w : world) (str : string) : Prop :=
  ∀ name, text_source_name (gf w) = Some name →
    ∃ w' evs, run (set_text_callback str) w = (Some tt, w') ∧
      trace w' = trace w ++ evs ∧ EvGetSourceByName name ∈ evs.

(** ** A concrete host and filter

    A host with two audio channels at 48 kHz, three model files (one of
    them malformed), one text source and no streaming output; the filter
    created on it from the default settings; and the states a few updates
    and publishes lead to. *)

Definition example_host : world :=
  {| gf := filter_data_zero;
     files := ∅;
     read_only := ∅;
     sources := [ {| src_id := 7; src_name := "captions"; src_text := EmptyString |} ];
     streaming_output := None;
     captions := [];
     model_files :=
       <["models/ggml-tiny.en.bin" := true]>
         (<["models/ggml-base.bin" := true]> (<["models/broken.bin" := false]> ∅));
     audio_channels := 2;
     audio_sample_rate := 48000;
     next_id := 1;
     log := [];
     trace := [] |}.

Definition example_frames (rate msec : Z) : Z := rate * msec / 1000.

Definition example_settings : obs_data := transcription_filter_defaults obs_data_create.

Definition example_model (path : string) : obs_data :=
  obs_data_set_string example_settings "whisper_model_path" path.

(** The filter as created, with a C++ library whose zero bytes are an empty
    string: locks 2 (buffers), 3 (engine) and 5 (sink), condition variable
    4, engine handle 1, worker thread 6. *)
Definition example_filter : world :=
  snd (run (transcription_filter_create 3000 100 example_frames zero_is_empty
              example_settings 1)
         example_host).

Definition example_inactive : world := snd (run transcription_filter_deactivate example_filter).

(** Two frames on each of two channels. *)
Definition example_plane : list Byte.byte :=
  [Byte.x01; Byte.x02; Byte.x03; Byte.x04; Byte.x05; Byte.x06; Byte.x07; Byte.x08].

Definition example_packet : obs_audio_data :=
  {| audio.data := [example_plane; example_plane]; audio.frames := 2; audio.timestamp := 99 |}.

(** The file sink selected. *)
Definition example_file_sink : world :=
  snd (run (transcription_filter_update 3000
              (obs_data_set_string
                 (obs_data_set_string example_settings "subtitle_sources" "text_file")
                 "subtitle_output_filename" "/tmp/captions.txt"))
         example_filter).

(** A text source selected that the host does not have. *)
Definition example_missing_sink : world :=
  snd (run (transcription_filter_update 3000
              (obs_data_set_string example_settings "subtitle_sources" "subtitles"))
         example_filter).

(** The text source "captions" selected and resolved by a first publish;
    then the host deletes that source and creates another one of the same
    name. *)
Definition example_resolved_sink : world :=
  snd (run (set_text_callback "hello")
         (snd (run (transcription_filter_update 3000
                      (obs_data_set_string example_settings "subtitle_sources" "captions"))
                 example_filter))).

Definition example_stale_sink : world :=
  set_sources [ {| src_id := 9; src_name := "captions"; src_text := EmptyString |} ]
    example_resolved_sink.

(** The bytes one packet contributes to the ring buffer of channel [c]. *)
Definition samples_of (c : nat) (a : obs_audio_data) : list Byte.byte :=
  take (Z.to_nat (audio.frames a * sizeof_float)) (default [] (audio.data a !! c)).

(** What the streaming output receives from one publish. *)
Definition caption_of (w : world) (str : string) : list string :=
  if caption_to_stream (gf w) && negb (is_null (streaming_output w)) then [str] else [].

(** A source with a new text. *)
Definition with_text (s : obs_source) (str : string) : obs_source :=
  {| src_id := src_id s; src_name := src_name s; src_text := str |}.

(** Events of the sink: its lock and its two ways to resolve the element. *)
Definition sink_event (mt : nat) (e : event) : bool :=
  match e with
  | EvLock m | EvUnlock m => Nat.eqb m mt
  | EvGetSourceByName _ | EvWeakGetSource _ => true
  | _ => false
  end.

(** The sources after the element of identity [id] got the text [str]. *)
Definition retext (id : nat) (str : string) (l : list obs_source) : list obs_source :=
  (λ s, if Nat.eqb (src_id s) id then with_text s str else s) <$> l.

(** ** The sink selection of an update *)

(** The selected subtitle output, and the file it names when it is the
    file sink. *)
Definition selection (s : obs_data) : string := obs_data_get_string s "subtitle_sources".

Definition selected_file (s : obs_data) : string :=
  if (strcmp (selection s) "text_file" =? 0) &&
     (0 <? strlen (obs_data_get_string s "subtitle_output_filename"))
  then obs_data_get_string s "subtitle_output_filename"
  else EmptyString.

(** Whether an update gives the current sink up: the selection names no
    text element, or another one than the current. *)
Definition sink_changes (s : obs_data) (g : transcription_filter_data) : bool :=
  text_source_name_invalid (selection s) ||
  match text_source_name g with
  | None => true
  | Some name => negb (strcmp (selection s) name =? 0)
  end.

(** The sink fields after the text-source step of an update. *)
Definition select_sink (s : obs_data) (g : transcription_filter_data)
    : transcription_filter_data :=
  if text_source_name_invalid (selection s) then
    set_output_file_path (selected_file s) (set_text_source_name None (set_text_source None g))
  else if sink_changes s g then
    set_text_source_name (Some (selection s)) (set_text_source None g)
  else g.

(** The events of the text-source step: the cached weak reference is
    detached under the sink lock, the name is freed, and the reference is
    released after the lock. *)
Definition select_events (s : obs_data) (g : transcription_filter_data) (mt : nat)
    : list event :=
  if sink_changes s g then
    match text_source g with Some _ => [EvLock mt; EvUnlock mt] | None => [] end ++
    release_of (text_source_name g) (λ _, text_source_name_string) ++
    match text_source g with Some wk => [EvWeakRelease wk] | None => [] end
  else [].

(** The flags an update copies from the settings, and all an update makes
    of the settings short of the engine handle and the worker thread. *)
Definition apply_flags (s : obs_data) (g : transcription_filter_data)
    : transcription_filter_data :=
  set_caption_to_stream (obs_data_get_bool s "caption_to_stream")
    (set_log_words (obs_data_get_bool s "log_words")
       (set_vad_enabled (obs_data_get_bool s "vad_enabled")
          (set_log_level (to_int (obs_data_get_int s "log_level")) g))).

Definition settle (B : Z) (s : obs_data) (g : transcription_filter_data)
    : transcription_filter_data :=
  set_whisper_params (update_whisper_params B s)
    (set_whisper_model_path (obs_data_get_string s "whisper_model_path")
       (select_sink s (apply_flags s g))).

(** The engine handle and the worker thread of [g'], the rest of [g]. *)
Definition with_engine_of (g' g : transcription_filter_data) : transcription_filter_data :=
  set_whisper_thread (whisper_thread g') (set_whisper_context (whisper_context g') g).

(** ** Sessions of callbacks *)

Definition remove_id (x : nat) (l : list nat) : list nat :=
  List.filter (λ y, negb (Nat.eqb y x)) l.

(** The worker threads started and not joined, and the engine handles
    created and not freed, along a trace. *)
Definition thread_step (l : list nat) (e : event) : list nat :=
  match e with
  | EvSpawn t => l ++ [t]
  | EvJoin t => remove_id t l
  | _ => l
  end.

Definition handle_step (l : list nat) (e : event) : list nat :=
  match e with
  | EvInitContext _ (Some h) => l ++ [h]
  | EvWhisperFree h => remove_id h l
  | _ => l
  end.

Definition live_threads (tr : list event) : list nat := foldl thread_step [] tr.
Definition live_handles (tr : list event) : list nat := foldl handle_step [] tr.

(** The lock held along a trace: [Some None] is no lock, [Some (Some m)] the
    lock [m], and [None] a broken discipline: a lock taken while another is
    held, or given back while it is not held. *)
Definition lock_step (held : option (option nat)) (e : event) : option (option nat) :=
  match held, e with
  | None, _ => None
  | Some None, EvLock m => Some (Some m)
  | Some (Some _), EvLock _ => None
  | Some (Some m), EvUnlock m' => if Nat.eqb m m' then Some None else None
  | Some None, EvUnlock _ => None
  | Some h, _ => Some h
  end.

Definition held_after (tr : list event) : option (option nat) :=
  foldl lock_step (Some None) tr.

(** What a step adds to the trace keeps the books: the locks it takes are
    given back, one at a time, and the threads and handles alive after it
    are those the filter holds. *)
Definition tracked (w w' : world) : Prop :=
  ∃ evs, trace w' = trace w ++ evs ∧
    foldl lock_step (Some None) evs = Some None ∧
    foldl thread_step (option_list (whisper_thread (gf w))) evs =
      option_list (whisper_thread (gf w')) ∧
    foldl handle_step (option_list (whisper_context (gf w))) evs =
      option_list (whisper_context (gf w')).

(** The callbacks of a filter instance between its creation and its
    destruction: the host's, and the text the worker publishes. *)
Inductive callback :=
  | CbUpdate (s : obs_data)
  | CbActivate
  | CbDeactivate
  | CbFilterAudio (a : obs_audio_data)
  | CbText (str : string).

Definition finish {A} (r : option A * world) : option world :=
  match r with
  | (Some _, w') => Some w'
  | (None, _) => None
  end.

Definition call_back (B : Z) (c : callback) (w : world) : option world :=
  match c with
  | CbUpdate s => finish (run (transcription_filter_update B s) w)
  | CbActivate => finish (run transcription_filter_activate w)
  | CbDeactivate => finish (run transcription_filter_deactivate w)
  | CbFilterAudio a => finish (ingest a w)
  | CbText str => finish (run (set_text_callback str) w)
  end.

(** A session: the callbacks one after the other; a crash ends it. *)
Fixpoint session (B : Z) (cs : list callback) (w : world) : option world :=
  match cs with
  | [] => Some w
  | c :: cs' =>
    match call_back B c w with
    | Some w' => session B cs' w'
    | None => None
    end
  end.

Definition callback_fits (n : nat) (c : callback) : Prop :=
  match c with
  | CbFilterAudio a => packet_fits n a
  | _ => True
  end.

(** The state between two callbacks. *)
Record session_inv (w : world) : Prop := {
  inv_wf : filter_wf (gf w);
  inv_threads : live_threads (trace w) = option_list (whisper_thread (gf w));
  inv_handles : live_handles (trace w) = option_list (whisper_context (gf w));
  inv_locks : held_after (trace w) = Some None
}.

(** What the destruction gives back after the join, in program order. *)
Definition destroy_releases (g : transcription_filter_data) (mb mc cv : nat) : list event :=
  release_of (text_source_name g) (λ _, text_source_name_string) ++
  match text_source g with Some wk => [EvWeakRelease wk] | None => [] end ++
  release_of (resampler g) (λ _, resampler_handle) ++
  [EvLock mb] ++
  release_of (copy_buffers g) (λ _, copy_buffer_arena) ++
  ((λ c, EvRelease (input_buffer_storage c)) <$> seq 0 (channels g)) ++
  [EvUnlock mb; EvRelease info_buffer_storage;
   EvRelease (mutex_object mb); EvRelease (mutex_object mc); EvRelease (condvar_object cv)] ++
  release_of (text_source_mutex g) mutex_object ++
  [EvRelease filter_struct].

Definition lock_event (e : event) : bool :=
  match e with
  | EvLock _ | EvUnlock _ => true
  | _ => false
  end.

(** ** More concrete states *)

(** The text source "captions" selected, not resolved yet. *)
Definition example_text_sink : world :=
  snd (run (transcription_filter_update 3000
              (obs_data_set_string example_settings "subtitle_sources" "captions"))
         example_filter).

(** The file sink selected, on a file that cannot be opened for writing. *)
Definition example_locked_file_sink : world :=
  set_read_only {[ "/tmp/captions.txt" ]} example_file_sink.

(** The same, with the file holding an earlier text. *)
Definition example_kept_file : world :=
  set_files {[ "/tmp/captions.txt" := "old" ]} example_locked_file_sink.

(** The filter with its buffer lock gone. *)
Definition example_no_buf_mutex : world :=
  set_gf (set_whisper_buf_mutex None (gf example_filter)) example_filter.

Definition example_file_settings : obs_data :=
  obs_data_set_string
    (obs_data_set_string example_settings "subtitle_sources" "text_file")
    "subtitle_output_filename" "/tmp/captions.txt".

Definition example_text_settings : obs_data :=
  obs_data_set_string example_settings "subtitle_sources" "captions".

Definition example_captions : obs_source :=
  {| src_id := 7; src_name := "captions"; src_text := EmptyString |}.

(** The default settings with a sampling method beyond 32 bits. *)
Definition example_wide_settings : obs_data :=
  {| values := <["whisper_sampling_method" := OBS_INT (2 ^ 32 + 1)]> (values example_settings);
     defaults := defaults example_settings |}.

(** A session: audio, a model swap, a text, a pause with audio in it, and a
    model that has to be downloaded. *)
Definition example_session : list callback :=
  [ CbFilterAudio example_packet;
    CbUpdate (example_model "models/ggml-base.bin");
    CbText "hello";
    CbDeactivate;
    CbFilterAudio example_packet;
    CbActivate;
    CbUpdate (example_model "models/missing.bin") ].

(** ** The properties view ([obs_properties_t])

    Property collections live in a store and are referred to by their index
    in it: a group holds the index of its collection, so what is added to a
    collection after it was made a group shows through the group.  A property
    is referred to by its collection and its position there, so the items
    added to a list after the list was added to a collection show in it. *)

Inductive combo_format := OBS_COMBO_FORMAT_INT | OBS_COMBO_FORMAT_STRING.

Definition combo_format_eqb (a b : combo_format) : bool :=
  match a, b with
  | OBS_COMBO_FORMAT_INT, OBS_COMBO_FORMAT_INT
  | OBS_COMBO_FORMAT_STRING, OBS_COMBO_FORMAT_STRING => true
  | _, _ => false
  end.

Inductive property_kind :=
  | OBS_PROPERTY_BOOL
  | OBS_PROPERTY_LIST (format : combo_format) (items : list (string * obs_value))
  | OBS_PROPERTY_PATH (filter : string)
  | OBS_PROPERTY_INT_SLIDER (min max step : Z)
  | OBS_PROPERTY_FLOAT_SLIDER (min max : Q) (step : c_float)
  | OBS_PROPERTY_TEXT
  | OBS_PROPERTY_GROUP (content : nat).

(** The callback a property runs when its value is modified. *)
Inductive modified_callback := subtitle_sources_modified.

Record obs_property := {
  prop_name : string;
  prop_description : string;
  prop_visible : bool;
  prop_modified : option modified_callback;
  prop_kind : property_kind
}.

Abbreviation obs_properties_store := (list (list obs_property)).

(** A pointer to a property: its collection and its position in it. *)
Abbreviation property_ref := (nat * nat)%type.

Definition PM (A : Type) : Type := obs_properties_store → A * obs_properties_store.

Definition PM_ret {A} (a : A) : PM A := λ st, (a, st).
Definition PM_bind {A B} (f : A → PM B) (m : PM A) : PM B :=
  λ st, let (a, st') := m st in f a st'.

#[export] Instance PM_mret : MRet PM := @PM_ret.
#[export] Instance PM_mbind : MBind PM := @PM_bind.

Definition obs_properties_create : PM nat :=
  λ st, (length st, st ++ [[]]).

Definition new_property (name description : string) (kind : property_kind) : obs_property :=
  {| prop_name := name; prop_description := description; prop_visible := true;
     prop_modified := None; prop_kind := kind |}.

(** Every [obs_properties_add_...]: the property goes to the end of the
    collection and the call returns a pointer to it.  (The library refuses a
    name the view has already; the names of this view are distinct.) *)
Definition add_property (props : nat) (p : obs_property) : PM property_ref :=
  λ st, ((props, length (default [] (st !! props))), alter (λ l, l ++ [p]) props st).

Definition obs_properties_add_bool (props : nat) (name description : string) : PM property_ref :=
  add_property props (new_property name description OBS_PROPERTY_BOOL).

Definition obs_properties_add_list (props : nat) (name description : string)
    (format : combo_format) : PM property_ref :=
  add_property props (new_property name description (OBS_PROPERTY_LIST format [])).

Definition obs_properties_add_path (props : nat) (name description filter : string)
    : PM property_ref :=
  add_property props (new_property name description (OBS_PROPERTY_PATH filter)).

Definition obs_properties_add_int_slider (props : nat) (name description : string)
    (min max step : Z) : PM property_ref :=
  add_property props (new_property name description (OBS_PROPERTY_INT_SLIDER min max step)).

Definition obs_properties_add_float_slider (props : nat) (name description : string)
    (min max : Q) (step : c_float) : PM property_ref :=
  add_property props (new_property name description (OBS_PROPERTY_FLOAT_SLIDER min max step)).

Definition obs_properties_add_text (props : nat) (name description : string) : PM property_ref :=
  add_property props (new_property name description OBS_PROPERTY_TEXT).

Definition obs_properties_add_group (props : nat) (name description : string) (group : nat)
    : PM property_ref :=
  add_property props (new_property name description (OBS_PROPERTY_GROUP group)).

Definition alter_property (f : obs_property → obs_property) (p : property_ref) : PM unit :=
  λ st, (tt, alter (alter f p.2) p.1 st).

(** An item goes to the end of a list of its format, and nowhere else. *)
Definition list_add (format : combo_format) (item : string * obs_value) (p : obs_property)
    : obs_property :=
  match prop_kind p with
  | OBS_PROPERTY_LIST fmt items =>
    if combo_format_eqb fmt format then
      {| prop_name := prop_name p; prop_description := prop_description p;
         prop_visible := prop_visible p; prop_modified := prop_modified p;
         prop_kind := OBS_PROPERTY_LIST fmt (items ++ [item]) |}
    else p
  | _ => p
  end.

Definition obs_property_list_add_int (p : property_ref) (name : string) (val : Z) : PM unit :=
  alter_property (list_add OBS_COMBO_FORMAT_INT (name, OBS_INT val)) p.

Definition obs_property_list_add_string (p : property_ref) (name val : string) : PM unit :=
  alter_property (list_add OBS_COMBO_FORMAT_STRING (name, OBS_STRING val)) p.

Definition set_visible (visible : bool) (p : obs_property) : obs_property :=
  {| prop_name := prop_name p; prop_description := prop_description p;
     prop_visible := visible; prop_modified := prop_modified p; prop_kind := prop_kind p |}.

Definition set_modified (cb : modified_callback) (p : obs_property) : obs_property :=
  {| prop_name := prop_name p; prop_description := prop_description p;
     prop_visible := prop_visible p; prop_modified := Some cb; prop_kind := prop_kind p |}.

(** Nothing happens on a null pointer. *)
Definition obs_property_set_visible (p : option property_ref) (visible : bool) : PM unit :=
  match p with
  | Some p => alter_property (set_visible visible) p
  | None => mret tt
  end.

Definition obs_property_set_modified_callback (p : property_ref) (cb : modified_callback)
    : PM unit :=
  alter_property (set_modified cb) p.

(** [obs_properties_get]: the first property of that name, looking into
    each group on the way; [depth] bounds the nesting of groups. *)
Fixpoint properties_get (depth : nat) (st : obs_properties_store) (props : nat) (name : string)
    : option property_ref :=
  match depth with
  | O => None
  | S depth =>
    (fix scan (l : list obs_property) (i : nat) : option property_ref :=
       match l with
       | [] => None
       | p :: l' =>
         if String.eqb (prop_name p) name then Some (props, i)
         else
           match prop_kind p with
           | OBS_PROPERTY_GROUP content =>
             match properties_get depth st content name with
             | Some r => Some r
             | None => scan l' (S i)
             end
           | _ => scan l' (S i)
           end
       end) (default [] (st !! props)) O
  end.

Definition obs_properties_get (props : nat) (name : string) : PM (option property_ref) :=
  λ st, (properties_get (length st) st props name, st).

Definition property_at (st : obs_properties_store) (r : property_ref) : option obs_property :=
  l ← st !! r.1; l !! r.2.

(** ** add_sources_to_list *)

(** A source as the enumeration hands it out. *)
Record enum_source := {
  obs_source_get_id : string;
  obs_source_get_name : string
}.

Definition add_sources_to_list (list_property : property_ref) (source : enum_source)
    : PM bool :=
  let source_id := obs_source_get_id source in
  if negb (strcmp source_id "text_ft2_source_v2" =? 0) &&
     negb (strcmp source_id "text_gdiplus_v2" =? 0) then
    mret true
  else
    let sources := list_property in
    let name := obs_source_get_name source in
    obs_property_list_add_string sources name name ;;
    mret true.

(** [obs_enum_sources]: the callback on every source in turn, until it
    returns false. *)
Fixpoint obs_enum_sources (enum_proc : property_ref → enum_source → PM bool)
    (param : property_ref) (srcs : list enum_source) : PM unit :=
  match srcs with
  | [] => mret tt
  | source :: srcs' =>
    go ← enum_proc param source;
    if go : bool then obs_enum_sources enum_proc param srcs' else mret tt
  end.

(** ** transcription_filter_properties *)

(** [toupper] in the C locale. *)
Definition toupper (c : ascii) : ascii :=
  let n := nat_of_ascii c in
  if (97 <=? n)%nat && (n <=? 122)%nat then ascii_of_nat (n - 32) else c.

(** [language_name[0] = (char)toupper(language_name[0])]: on the empty
    string this writes the terminator over itself. *)
Definition capitalize (language_name : string) : string :=
  match language_name with
  | EmptyString => EmptyString
  | String c rest => String (toupper c) rest
  end.

(** The entries of a [std::map<std::string, std::string>], in the order of
    its iteration: by key. *)
Definition key_le (a b : string * string) : Prop := String.leb a.1 b.1 = true.

#[export] Instance key_le_dec a b : Decision (key_le a b).
Proof. unfold key_le. apply _. Defined.

Definition map_entries (m : gmap string string) : list (string * string) :=
  merge_sort key_le (map_to_list m).

(** The callback of the subtitle output list: the file name is shown for
    the file output, and hidden otherwise. *)
Definition subtitle_sources_modified_run (props : nat) (settings : obs_data) : PM bool :=
  let new_output := obs_data_get_string settings "subtitle_sources" in
  if strcmp new_output "text_file" =? 0 then
    (* Show the output filename selection input *)
    p ← obs_properties_get props "subtitle_output_filename";
    obs_property_set_visible p true ;;
    mret true
  else
    (* Hide the output filename selection input *)
    p ← obs_properties_get props "subtitle_output_filename";
    obs_property_set_visible p false ;;
    mret true.

(** [obs_property_modified]: the view runs the callback of a property whose
    value was modified. *)
Definition obs_property_modified (props : nat) (p : property_ref) (settings : obs_data)
    : PM bool :=
  λ st,
    match property_at st p with
    | Some {| prop_modified := Some subtitle_sources_modified |} =>
      subtitle_sources_modified_run props settings st
    | _ => (false, st)
    end.

Section Properties.

(** The table of languages of the filter's own headers, code to name. *)
Variable whisper_available_lang : gmap string string.

(** sort the languages by flipping the map *)
Definition whisper_available_lang_flip : gmap string string :=
  foldl (λ flip entry, <[entry.2 := entry.1]> flip) ∅ (map_entries whisper_available_lang).

(** iterate over all available languages and add them to the list *)
Fixpoint add_languages (whisper_language_select_list : property_ref)
    (entries : list (string * string)) : PM unit :=
  match entries with
  | [] => mret tt
  | entry :: entries' =>
    (* Capitalize the language name *)
    let language_name := capitalize entry.1 in
    obs_property_list_add_string whisper_language_select_list language_name entry.2 ;;
    add_languages whisper_language_select_list entries'
  end.

(** [srcs] are the sources the host enumerates. *)
Definition transcription_filter_properties (srcs : list enum_source) : PM nat :=
  ppts ← obs_properties_create;
  obs_properties_add_bool ppts "vad_enabled" "VAD Enabled" ;;
  list ← obs_properties_add_list ppts "log_level" "Log level" OBS_COMBO_FORMAT_INT;
  obs_property_list_add_int list "DEBUG" LOG_DEBUG ;;
  obs_property_list_add_int list "INFO" LOG_INFO ;;
  obs_property_list_add_int list "WARNING" LOG_WARNING ;;
  obs_properties_add_bool ppts "log_words" "Log output words" ;;
  obs_properties_add_bool ppts "caption_to_stream" "Stream captions" ;;
  subs_output ← obs_properties_add_list ppts "subtitle_sources" "Subtitles Output"
                  OBS_COMBO_FORMAT_STRING;
  (* Add "none" option *)
  obs_property_list_add_string subs_output "None / No output" "none" ;;
  obs_property_list_add_string subs_output "Text File output" "text_file" ;;
  (* Add text sources *)
  obs_enum_sources add_sources_to_list subs_output srcs ;;
  obs_properties_add_path ppts "subtitle_output_filename" "Output filename" "Text (*.txt)" ;;
  obs_property_set_modified_callback subs_output subtitle_sources_modified ;;
  (* Add a list of available whisper models to download *)
  whisper_models_list ← obs_properties_add_list ppts "whisper_model_path" "Whisper Model"
                          OBS_COMBO_FORMAT_STRING;
  obs_property_list_add_string whisper_models_list "Tiny (Eng) 75Mb" "models/ggml-tiny.en.bin" ;;
  obs_property_list_add_string whisper_models_list "Tiny 75Mb" "models/ggml-tiny.bin" ;;
  obs_property_list_add_string whisper_models_list "Base (Eng) 142Mb" "models/ggml-base.en.bin" ;;
  obs_property_list_add_string whisper_models_list "Base 142Mb" "models/ggml-base.bin" ;;
  obs_property_list_add_string whisper_models_list "Small (Eng) 466Mb"
    "models/ggml-small.en.bin" ;;
  obs_property_list_add_string whisper_models_list "Small 466Mb" "models/ggml-small.bin" ;;
  whisper_params_group ← obs_properties_create;
  obs_properties_add_group ppts "whisper_params_group" "Whisper Parameters"
    whisper_params_group ;;
  (* Add language selector *)
  whisper_language_select_list ←
    obs_properties_add_list whisper_params_group "whisper_language_select" "Language"
      OBS_COMBO_FORMAT_STRING;
  add_languages whisper_language_select_list (map_entries whisper_available_lang_flip) ;;
  whisper_sampling_method_list ←
    obs_properties_add_list whisper_params_group "whisper_sampling_method"
      "whisper_sampling_method" OBS_COMBO_FORMAT_INT;
  obs_property_list_add_int whisper_sampling_method_list "Beam search"
    (sampling_value WHISPER_SAMPLING_BEAM_SEARCH) ;;
  obs_property_list_add_int whisper_sampling_method_list "Greedy"
    (sampling_value WHISPER_SAMPLING_GREEDY) ;;
  obs_properties_add_int_slider whisper_params_group "n_threads" "n_threads" 1 8 1 ;;
  obs_properties_add_int_slider whisper_params_group "n_max_text_ctx" "n_max_text_ctx"
    0 16384 100 ;;
  obs_properties_add_bool whisper_params_group "translate" "translate" ;;
  obs_properties_add_bool whisper_params_group "no_context" "no_context" ;;
  obs_properties_add_bool whisper_params_group "single_segment" "single_segment" ;;
  obs_properties_add_bool whisper_params_group "print_special" "print_special" ;;
  obs_properties_add_bool whisper_params_group "print_progress" "print_progress" ;;
  obs_properties_add_bool whisper_params_group "print_realtime" "print_realtime" ;;
  obs_properties_add_bool whisper_params_group "print_timestamps" "print_timestamps" ;;
  obs_properties_add_bool whisper_params_group "token_timestamps" "token_timestamps" ;;
  obs_properties_add_float_slider whisper_params_group "thold_pt" "thold_pt" 0 1
    (float_cast (5 # 100)) ;;
  obs_properties_add_float_slider whisper_params_group "thold_ptsum" "thold_ptsum" 0 1
    (float_cast (5 # 100)) ;;
  obs_properties_add_int_slider whisper_params_group "max_len" "max_len" 0 100 1 ;;
  obs_properties_add_bool whisper_params_group "split_on_word" "split_on_word" ;;
  obs_properties_add_int_slider whisper_params_group "max_tokens" "max_tokens" 0 100 1 ;;
  obs_properties_add_bool whisper_params_group "speed_up" "speed_up" ;;
  obs_properties_add_text whisper_params_group "initial_prompt" "initial_prompt" ;;
  obs_properties_add_bool whisper_params_group "suppress_blank" "suppress_blank" ;;
  obs_properties_add_bool whisper_params_group "suppress_non_speech_tokens"
    "suppress_non_speech_tokens" ;;
  obs_properties_add_float_slider whisper_params_group "temperature" "temperature" 0 1
    (float_cast (5 # 100)) ;;
  obs_properties_add_float_slider whisper_params_group "max_initial_ts" "max_initial_ts" 0 1
    (float_cast (5 # 100)) ;;
  obs_properties_add_float_slider whisper_params_group "length_penalty" "length_penalty"
    (-1) 1 (float_cast (1 # 10)) ;;
  mret ppts.

End Properties.

(** The text sources among the enumerated ones, as list items. *)
Definition is_text_source (s : enum_source) : bool :=
  (strcmp (obs_source_get_id s) "text_ft2_source_v2" =? 0) ||
  (strcmp (obs_source_get_id s) "text_gdiplus_v2" =? 0).

Definition text_source_items (srcs : list enum_source) : list (string * string) :=
  (λ s, (obs_source_get_name s, obs_source_get_name s)) <$> List.filter is_text_source srcs.

Definition language_items (entries : list (string * string)) : list (string * string) :=
  (λ e, (capitalize e.1, e.2)) <$> entries.

Definition add_strings (items : list (string * string)) (p : obs_property) : obs_property :=
  foldl (λ q it, list_add OBS_COMBO_FORMAT_STRING (it.1, OBS_STRING it.2) q) p items.

Definition string_item (it : string * string) : string * obs_value := (it.1, OBS_STRING it.2).

(** The items of a list, and the values a property accepts. *)
Definition list_items (p : obs_property) : list (string * obs_value) :=
  match prop_kind p with
  | OBS_PROPERTY_LIST _ items => items
  | _ => []
  end.

Definition obs_value_eqb (a b : obs_value) : bool :=
  match a, b with
  | OBS_BOOL x, OBS_BOOL y => Bool.eqb x y
  | OBS_INT x, OBS_INT y => x =? y
  | OBS_DOUBLE x, OBS_DOUBLE y => Qeq_bool x y
  | OBS_STRING x, OBS_STRING y => String.eqb x y
  | _, _ => false
  end.

Definition accepts (p : obs_property) (v : obs_value) : bool :=
  match prop_kind p, v with
  | OBS_PROPERTY_BOOL, OBS_BOOL _ => true
  | OBS_PROPERTY_LIST _ items, _ => existsb (λ it, obs_value_eqb it.2 v) items
  | OBS_PROPERTY_PATH _, OBS_STRING _ => true
  | OBS_PROPERTY_TEXT, OBS_STRING _ => true
  | OBS_PROPERTY_INT_SLIDER lo hi _, OBS_INT n => (lo <=? n) && (n <=? hi)
  | OBS_PROPERTY_FLOAT_SLIDER lo hi _, OBS_DOUBLE q => Qle_bool lo q && Qle_bool q hi
  | _, _ => false
  end.

(** The property of a name in the view a store holds at [props]. *)
Definition property_named (st : obs_properties_store) (props : nat) (name : string)
    : option obs_property :=
  r ← properties_get (length st) st props name; property_at st r.

(** Whether the default of an option is a value its property accepts. *)
Definition default_accepted (st : obs_properties_store) (name : string) : bool :=
  match property_named st 0 name,
        defaults (transcription_filter_defaults obs_data_create) !! name with
  | Some p, Some v => accepts p v
  | _, _ => false
  end.

(** The names of the properties of a store, collection by collection. *)
Definition property_names (st : obs_properties_store) : list string :=
  prop_name <$> concat st.

(** * Properties *)

(** ** Reasoning about runs *)

(** Evaluation of a run from a world given by its fields: the monad, the
    assignments and the field reads, by need, so that the worlds of a long
    run stay small. *)
Ltac run_eval :=
  lazy beta iota zeta delta [
    mbind M_bind mret M_ret gets modify host modify_host emit obs_log return_ abort
    fresh when call lock_guard deref is_null negb andb orb set_context set_channels
    set_sample_rate set_frames set_last_num_frames set_overlap_ms set_overlap_frames
    set_input_buffers set_info_buffer set_copy_buffers set_resampler
    set_whisper_model_path set_whisper_context set_whisper_thread set_whisper_buf_mutex
    set_whisper_ctx_mutex set_wshiper_thread_cv set_text_source_mutex set_text_source
    set_text_source_name set_output_file_path set_log_level set_vad_enabled
    set_log_words set_caption_to_stream set_active set_whisper_params set_gf set_files
    set_read_only set_sources set_streaming_output set_captions set_model_files
    set_audio_channels set_audio_sample_rate set_next_id set_log set_trace context
    channels sample_rate frames last_num_frames overlap_ms overlap_frames input_buffers
    info_buffer copy_buffers resampler whisper_model_path whisper_context whisper_thread
    whisper_buf_mutex whisper_ctx_mutex wshiper_thread_cv text_source_mutex text_source
    text_source_name output_file_path log_level vad_enabled log_words caption_to_stream
    active whisper_params gf files read_only sources streaming_output captions
    model_files audio_channels audio_sample_rate next_id log trace
  ].

Ltac unfold_M :=
  unfold release, when, deref in *;
  unfold mbind, M_bind, mret, M_ret, gets, modify, host, modify_host, emit, obs_log,
    return_, abort, fresh, call, lock_guard in *.

Lemma size_t_bytes a : uint32 (audio.frames a) →
  size_t (audio.frames a * sizeof_float) = audio.frames a * sizeof_float.
Proof.
  unfold uint32, size_t, sizeof_float. intros H. apply Z.mod_small. lia.
Qed.

Lemma push_samples_step a c w cb plane :
  uint32 (audio.frames a) →
  input_buffers (gf w) !! c = Some cb →
  audio.data a !! c = Some plane →
  audio.frames a * sizeof_float <= Z.of_nat (length plane) →
  push_samples a c w =
    (Next tt,
     set_gf (set_input_buffers
               (<[c := cb ++ take (Z.to_nat (audio.frames a * sizeof_float)) plane]>
                  (input_buffers (gf w))) (gf w)) w).
Proof.
  intros Hu Hcb Hpl Hlen. unfold push_samples. unfold_M. cbn.
  rewrite Hcb, Hpl. cbn. unfold circlebuf_push_back.
  rewrite size_t_bytes by done. rewrite decide_True by done. reflexivity.
Qed.

Lemma push_samples_loop a n : ∀ i w,
  uint32 (audio.frames a) →
  (i + n ≤ length (input_buffers (gf w)))%nat →
  (i + n ≤ length (audio.data a))%nat →
  Forall (λ plane : list Byte.byte, audio.frames a * sizeof_float <= Z.of_nat (length plane))
         (take (i + n) (audio.data a)) →
  ∃ bufs,
    for_range i n (push_samples a) w = (Next tt, set_gf (set_input_buffers bufs (gf w)) w) ∧
    length bufs = length (input_buffers (gf w)) ∧
    ∀ c cb, input_buffers (gf w) !! c = Some cb →
      ∃ cb', bufs !! c = Some cb' ∧
        circlebuf_size cb' =
          circlebuf_size cb +
          (if bool_decide (i ≤ c < i + n)%nat then audio.frames a * sizeof_float else 0).
Proof.
  induction n as [|n IH]; intros i w Hu Hb Hd Hp.
  - exists (input_buffers (gf w)). split; [|split].
    + cbn. unfold mret, M_ret. f_equal. destruct w as [g]; destruct g; reflexivity.
    + reflexivity.
    + intros c cb Hc. exists cb. split; [done|].
      rewrite bool_decide_eq_false_2 by lia. lia.
  - destruct (lookup_lt_is_Some_2 (input_buffers (gf w)) i) as [cb0 Hcb0]; [lia|].
    destruct (lookup_lt_is_Some_2 (audio.data a) i) as [pl Hpl]; [lia|].
    assert (Hlen : audio.frames a * sizeof_float <= Z.of_nat (length pl)).
    { rewrite Forall_lookup in Hp. apply (Hp i). rewrite lookup_take_lt by lia. done. }
    set (cb1 := cb0 ++ take (Z.to_nat (audio.frames a * sizeof_float)) pl).
    set (w1 := set_gf (set_input_buffers (<[i := cb1]> (input_buffers (gf w))) (gf w)) w).
    assert (Hstep : for_range i (S n) (push_samples a) w = for_range (S i) n (push_samples a) w1).
    { cbn [for_range]. unfold mbind, M_bind.
      by rewrite (push_samples_step a i w cb0 pl). }
    destruct (IH (S i) w1) as (bufs & Hrun & Hl & Hlook).
    + done.
    + subst w1. cbn. rewrite length_insert. lia.
    + lia.
    + replace (S i + n)%nat with (i + S n)%nat by lia. done.
    + exists bufs. split; [|split].
      * rewrite Hstep, Hrun. subst w1. destruct w as [g]; destruct g; reflexivity.
      * rewrite Hl. subst w1. cbn. by rewrite length_insert.
      * intros c cb Hc. destruct (decide (c = i)) as [->|Hne].
        -- destruct (Hlook i cb1) as (cb' & Hcb' & Hsz).
           { subst w1. cbn. apply list_lookup_insert_eq. by eapply lookup_lt_Some. }
           exists cb'. split; [done|]. rewrite Hsz.
           rewrite bool_decide_eq_false_2 by lia. rewrite bool_decide_eq_true_2 by lia.
           assert (cb = cb0) as -> by congruence.
           subst cb1. unfold circlebuf_size. rewrite length_app, length_take.
           assert (0 <= audio.frames a * sizeof_float) by (unfold uint32, sizeof_float in *; lia).
           lia.
        -- destruct (Hlook c cb) as (cb' & Hcb' & Hsz).
           { subst w1. cbn. rewrite list_lookup_insert_ne by done. done. }
           exists cb'. split; [done|]. rewrite Hsz.
           destruct (decide (i ≤ c < i + S n)%nat).
           ++ rewrite !bool_decide_eq_true_2 by lia. done.
           ++ rewrite !bool_decide_eq_false_2 by lia. done.
Qed.

Arguments push_samples : simpl never.
Arguments for_range : simpl never.

(** One packet on the buffering path: what changes and what does not. *)
Lemma ingest_buffering w a :
  active (gf w) = true →
  is_Some (whisper_context (gf w)) →
  is_Some (whisper_buf_mutex (gf w)) →
  is_Some (whisper_ctx_mutex (gf w)) →
  (channels (gf w) ≤ length (input_buffers (gf w)))%nat →
  packet_fits (channels (gf w)) a →
  ∃ w', ingest a w = (Some (Some a), w') ∧
    active (gf w') = true ∧
    whisper_context (gf w') = whisper_context (gf w) ∧
    whisper_buf_mutex (gf w') = whisper_buf_mutex (gf w) ∧
    whisper_ctx_mutex (gf w') = whisper_ctx_mutex (gf w) ∧
    channels (gf w') = channels (gf w) ∧
    length (input_buffers (gf w')) = length (input_buffers (gf w)) ∧
    info_buffer (gf w') = info_buffer (gf w) ++ [info_of a] ∧
    ∀ c cb, input_buffers (gf w) !! c = Some cb →
      ∃ cb', input_buffers (gf w') !! c = Some cb' ∧
        circlebuf_size cb' =
          circlebuf_size cb +
          (if bool_decide (c < channels (gf w))%nat then audio.frames a * sizeof_float else 0).
Proof.
  intros Hact [h Hctx] [mb Hmb] [mc Hmc] Hch (Hu & Hd & Hp).
  unfold ingest, run, transcription_filter_filter_audio. unfold_M. cbn.
  rewrite Hact; cbn. rewrite Hctx; cbn. rewrite Hmb, Hmc; cbn.
  match goal with
  | |- context [for_range 0 ?n (push_samples a) ?w2] =>
      destruct (push_samples_loop a n 0 w2) as (bufs & Hrun & Hlen & Hlook);
        [done | cbn; lia | cbn; lia | done |]; rewrite Hrun
  end.
  cbn. eexists. split; [reflexivity|]. cbn.
  repeat split; try done.
  intros c cb Hc. destruct (Hlook c cb Hc) as (cb' & ? & Hsz).
  exists cb'. split; [done|]. rewrite Hsz.
  destruct (decide (c < channels (gf w))%nat).
  - rewrite !bool_decide_eq_true_2 by lia. done.
  - rewrite !bool_decide_eq_false_2 by lia. done.
Qed.

(** One packet on a pass-through path: nothing changes. *)
Lemma ingest_inert w a :
  active (gf w) = false ∨ whisper_context (gf w) = None →
  ingest a w = (Some (Some a), w).
Proof.
  intros H. unfold ingest, run, transcription_filter_filter_audio. unfold_M. cbn.
  destruct (active (gf w)) eqn:Ha; cbn; [|done].
  destruct H as [|H]; [done|]. by rewrite H.
Qed.

(** The samples loop has no [return] of its own. *)
Lemma push_samples_no_return a n : ∀ i w r w',
  for_range i n (push_samples a) w ≠ (Return r, w').
Proof.
  induction n as [|n IH]; intros i w r w'; unfold for_range; fold (@for_range (option obs_audio_data)).
  - done.
  - unfold mbind, M_bind. destruct (push_samples a i w) as [o w1] eqn:Hstep.
    destruct o as [[]|r1|]; [apply IH| |done].
    exfalso. revert Hstep. unfold push_samples. unfold_M.
    repeat (case_match; simplify_eq/=; try done).
Qed.

(** Whenever the ingest returns, it returns the packet it was given. *)
Lemma ingest_result w a r w' : ingest a w = (Some r, w') → r = Some a.
Proof.
  unfold ingest, run, transcription_filter_filter_audio. unfold_M. cbn.
  intros H. repeat (case_match; simplify_eq/=; try done).
  match goal with
  | H : for_range _ _ _ _ = (Return _, _) |- _ => by eapply push_samples_no_return in H
  end.
Qed.

(** ** The ingest stage *)

(** C10: the audio entry point is total over null inputs.  A null packet
    yields a null result and a null filter pointer yields the packet itself;
    in both cases the call returns (no crash, so no null pointer was
    dereferenced) and leaves the filter and the host as they were. *)
Theorem filter_audio_null_inputs (w : world) (data : option instance) (a : obs_audio_data) :
  run (transcription_filter_filter_audio data None) w = (Some None, w) ∧
  run (transcription_filter_filter_audio None (Some a)) w = (Some (Some a), w).
Proof. split; reflexivity. Qed.

(** The buffering path over a sequence of packets. *)
Lemma ingest_all_buffering ps : ∀ w,
  active (gf w) = true →
  is_Some (whisper_context (gf w)) →
  is_Some (whisper_buf_mutex (gf w)) →
  is_Some (whisper_ctx_mutex (gf w)) →
  (channels (gf w) ≤ length (input_buffers (gf w)))%nat →
  Forall (packet_fits (channels (gf w))) ps →
  ∃ w', ingest_all ps w = (Some (Some <$> ps), w') ∧
    info_buffer (gf w') = info_buffer (gf w) ++ (info_of <$> ps) ∧
    ∀ c cb, input_buffers (gf w) !! c = Some cb →
      ∃ cb', input_buffers (gf w') !! c = Some cb' ∧
        circlebuf_size cb' =
          circlebuf_size cb +
          (if bool_decide (c < channels (gf w))%nat then sum_frames ps * sizeof_float else 0).
Proof.
  induction ps as [|a ps IH]; intros w Hact Hctx Hmb Hmc Hch Hfit.
  - exists w. split; [done|]. split; [by rewrite app_nil_r|].
    intros c cb Hc. exists cb. split; [done|]. unfold sum_frames. case_bool_decide; cbn; clear; lia.
  - apply Forall_cons in Hfit as [Ha Hps].
    destruct (ingest_buffering w a) as (w1 & Hrun & Hact1 & Hctx1 & Hmb1 & Hmc1 & Hch1 & Hlen1 & Hinfo1 & Hbuf1);
      [done..|].
    destruct (IH w1) as (w2 & Hrun2 & Hinfo2 & Hbuf2).
    + done.
    + by rewrite Hctx1.
    + by rewrite Hmb1.
    + by rewrite Hmc1.
    + by rewrite Hch1, Hlen1.
    + by rewrite Hch1.
    + exists w2. split; [|split].
      * cbn [ingest_all]. by rewrite Hrun, Hrun2.
      * rewrite Hinfo2, Hinfo1, <- app_assoc. done.
      * intros c cb Hc. destruct (Hbuf1 c cb Hc) as (cb1 & Hc1 & Hsz1).
        destruct (Hbuf2 c cb1 Hc1) as (cb2 & Hc2 & Hsz2).
        exists cb2. split; [done|]. rewrite Hsz2, Hsz1, Hch1.
        unfold sum_frames. cbn [foldr].
        destruct (decide (c < channels (gf w))%nat).
        -- rewrite !bool_decide_eq_true_2 by done. lia.
        -- rewrite !bool_decide_eq_false_2 by done. lia.
Qed.

(** C2: lock-step of the sample buffers and the metadata queue.  While the
    filter is active, the engine handle is non-null and the locks exist,
    pushing a sequence of packets returns every packet, grows the ring buffer
    of every channel by (sum of the frame counts) x sizeof(float) bytes and
    the metadata queue by one record per push call, in order; buffers beyond
    the channel count are not touched. *)
Theorem ingest_lock_step (w : world) (ps : list obs_audio_data) :
  active (gf w) = true →
  is_Some (whisper_context (gf w)) →
  is_Some (whisper_buf_mutex (gf w)) →
  is_Some (whisper_ctx_mutex (gf w)) →
  (channels (gf w) ≤ length (input_buffers (gf w)))%nat →
  Forall (packet_fits (channels (gf w))) ps →
  ∃ w', ingest_all ps w = (Some (Some <$> ps), w') ∧
    info_buffer (gf w') = info_buffer (gf w) ++ (info_of <$> ps) ∧
    length (info_buffer (gf w')) = (length (info_buffer (gf w)) + length ps)%nat ∧
    ∀ c cb, input_buffers (gf w) !! c = Some cb →
      ∃ cb', input_buffers (gf w') !! c = Some cb' ∧
        circlebuf_size cb' =
          circlebuf_size cb +
          (if bool_decide (c < channels (gf w))%nat then sum_frames ps * sizeof_float else 0).
Proof.
  intros Hact Hctx Hmb Hmc Hch Hfit.
  destruct (ingest_all_buffering ps w) as (w' & Hrun & Hinfo & Hbuf); [done..|].
  exists w'. repeat split; try done.
  by rewrite Hinfo, length_app, length_fmap.
Qed.

(** The pass-through path over a sequence of packets. *)
Lemma ingest_all_inert ps w :
  active (gf w) = false ∨ whisper_context (gf w) = None →
  ingest_all ps w = (Some (Some <$> ps), w).
Proof.
  intros H. induction ps as [|a ps IH]; [done|].
  cbn [ingest_all]. by rewrite (ingest_inert w a H), IH.
Qed.

(** C3: pass-through.  With the filter inactive or the engine handle null,
    the ingest returns the very packet it was given and changes nothing, for
    one packet and for any sequence of packets; and in every case a call
    that returns gives back the original packet, which the buffering path
    does for every packet that fits the channel count. *)
Theorem ingest_pass_through (w : world) (a : obs_audio_data) :
  (active (gf w) = false ∨ whisper_context (gf w) = None →
     ingest a w = (Some (Some a), w) ∧
     ∀ ps, ingest_all ps w = (Some (Some <$> ps), w)) ∧
  (∀ r w', ingest a w = (Some r, w') → r = Some a) ∧
  ((channels (gf w) ≤ length (input_buffers (gf w)))%nat →
     packet_fits (channels (gf w)) a →
     ∃ w', ingest a w = (Some (Some a), w')).
Proof.
  split; [|split].
  - intros H. split; [by apply ingest_inert|]. intros ps. by apply ingest_all_inert.
  - apply ingest_result.
  - intros Hch Hfit.
    destruct (active (gf w)) eqn:Hact; [|exists w; apply ingest_inert; by left].
    destruct (whisper_context (gf w)) as [h|] eqn:Hctx; [|exists w; apply ingest_inert; by right].
    destruct (whisper_buf_mutex (gf w)) as [mb|] eqn:Hmb;
      [destruct (whisper_ctx_mutex (gf w)) as [mc|] eqn:Hmc|].
    + destruct (ingest_buffering w a) as (w' & Hrun & _); [by rewrite ?Hctx, ?Hmb, ?Hmc..|].
      by exists w'.
    + eexists. unfold ingest, run, transcription_filter_filter_audio. unfold_M. cbn.
      rewrite Hact; cbn. rewrite Hctx; cbn. rewrite Hmb, Hmc; cbn. reflexivity.
    + eexists. unfold ingest, run, transcription_filter_filter_audio. unfold_M. cbn.
      rewrite Hact; cbn. rewrite Hctx; cbn. rewrite Hmb; cbn. reflexivity.
Qed.

(** ** The model lifecycle *)

Arguments text_source_name_invalid : simpl never.
Arguments strcmp : simpl never.
Arguments strlen : simpl never.
Arguments String.eqb : simpl never.
Arguments to_int : simpl never.
Arguments update_whisper_params : simpl never.
Arguments obs_data_get_string : simpl never.
Arguments obs_data_get_int : simpl never.
Arguments obs_data_get_bool : simpl never.

(** Case analysis on an innermost stuck test of the run. *)
Ltac inner_case :=
  match goal with
  | |- context [match ?x with _ => _ end] =>
      lazymatch x with
      | context [match _ with _ => _ end] => fail
      | _ => destruct x eqn:?
      end
  end.

Ltac run_cases := repeat (cbn; inner_case).

(** The trace of a run: the old trace and the new events. *)
Ltac trace_eq :=
  cbn; rewrite <- ?app_assoc; first [reflexivity | symmetry; apply app_nil_r].

(** The text-source step: it leaves the engine, the worker and the locks
    alone, performs no engine or thread event, and runs to its end unless
    the sink lock is missing while a weak reference is cached. *)
Lemma update_text_source_spec (s : obs_data) (w : world) :
  ∃ o w' evs,
    update_text_source s w = (o, w') ∧
    (o = Next tt ∨ o = Return tt) ∧
    trace w' = trace w ++ evs ∧
    Forall (λ e, engine_event e = false) evs ∧
    engine_kept w w' ∧ setup_kept w w' ∧ host_kept w w' ∧
    (text_source (gf w) = None ∨ is_Some (text_source_mutex (gf w)) → o = Next tt).
Proof.
  unfold update_text_source, detach_text_source, free_text_source_name.
  unfold_M. unfold is_null.
  run_cases.
  all: eexists _, _, _; split; [reflexivity|].
  all: split; [eauto|]; split; [trace_eq|].
  all: split; [repeat constructor|].
  all: split; [by constructor|]; split; [by constructor|]; split; [by constructor|].
  all: try done.
  all: intros [?|[? ?]]; congruence.
Qed.

Arguments update_text_source : simpl never.
Arguments update_whisper_model : simpl never.
Arguments update_whisper_full_params : simpl never.

Ltac unfold_model :=
  unfold update_whisper_model, join_whisper_thread, start_whisper_thread, store_context,
    whisper_free, check_if_model_exists, init_whisper_context, download_model_with_ui_dialog.

Lemma engine_kept_trans w1 w2 w3 : engine_kept w1 w2 → engine_kept w2 w3 → engine_kept w1 w3.
Proof. intros [] []. constructor; congruence. Qed.

Lemma setup_kept_trans w1 w2 w3 : setup_kept w1 w2 → setup_kept w2 w3 → setup_kept w1 w3.
Proof. intros [] []. constructor; congruence. Qed.

Lemma host_kept_trans w1 w2 w3 : host_kept w1 w2 → host_kept w2 w3 → host_kept w1 w3.
Proof. intros [] []. constructor; congruence. Qed.

(** The model step with an unchanged path: nothing but a line in the log. *)
Lemma update_whisper_model_same (s : obs_data) (w : world) :
  obs_data_get_string s "whisper_model_path" = whisper_model_path (gf w) →
  ∃ w', update_whisper_model s w = (Next tt, w') ∧
    trace w' = trace w ∧ engine_kept w w' ∧ setup_kept w w' ∧ host_kept w w'.
Proof.
  intros Heq. unfold_model. unfold_M. cbn.
  rewrite Heq, String.eqb_refl. cbn.
  eexists. split; [reflexivity|]. by repeat split.
Qed.

(** The model step never crashes, and leaves the locks, the buffers and the
    host alone: the thread handle it overwrites was joined just before. *)
Lemma update_whisper_model_safe (s : obs_data) (w : world) :
  ∃ o w', update_whisper_model s w = (o, w') ∧
    (o = Next tt ∨ o = Return tt) ∧ setup_kept w w' ∧ host_kept w w'.
Proof.
  unfold_model. unfold_M. unfold is_null. run_cases.
  all: eexists _, _; split; [reflexivity|].
  all: split; [eauto|]; by repeat split.
Qed.

(** The model step with a new path on a live engine, by the state of the
    requested model file. *)
Lemma update_whisper_model_swap (s : obs_data) (w : world) (h mc cv : nat) :
  let path := obs_data_get_string s "whisper_model_path" in
  path ≠ whisper_model_path (gf w) →
  whisper_context (gf w) = Some h →
  whisper_ctx_mutex (gf w) = Some mc →
  wshiper_thread_cv (gf w) = Some cv →
  ∃ w' load,
    update_whisper_model s w = (Next tt, w') ∧
    trace w' =
      trace w ++
      [EvLock mc; EvWhisperFree h; EvStoreContext None; EvNotifyAll cv; EvUnlock mc] ++
      join_of (whisper_thread (gf w)) ++ load ∧
    whisper_model_path (gf w') = path ∧
    setup_kept w w' ∧ host_kept w w' ∧
    match model_files w !! path with
    | None =>
      load = [EvDownload path] ∧
      whisper_context (gf w') = None ∧ whisper_thread (gf w') = None ∧
      log w' = log w ++ [(log_level (gf w), "transcription_filter: update whisper model");
                         (LOG_INFO, "model path changed, reloading model");
                         (LOG_ERROR, "Whisper model does not exist")]
    | Some loadable =>
      ∃ t, load = [EvInitContext path (whisper_context (gf w'));
                   EvStoreContext (whisper_context (gf w')); EvSpawn t] ∧
        whisper_thread (gf w') = Some t ∧
        whisper_context (gf w') = (if loadable : bool then Some (next_id w) else None) ∧
        t = (if loadable : bool then S (next_id w) else next_id w) ∧
        log w' = log w ++ [(log_level (gf w), "transcription_filter: update whisper model");
                           (LOG_INFO, "model path changed, reloading model")]
    end.
Proof.
  intros path Hne Hctx Hmc Hcv. subst path.
  apply String.eqb_neq in Hne.
  unfold_model. unfold_M. unfold is_null. cbn.
  rewrite Hne; cbn. rewrite Hctx; cbn. rewrite Hmc, Hcv; cbn.
  destruct (whisper_thread (gf w)) as [t|] eqn:Hth; cbn.
  all: destruct (model_files w !! obs_data_get_string s "whisper_model_path") as [[]|] eqn:Hfile; cbn.
  all: rewrite ?Hfile; cbn; rewrite ?Hth; cbn.
  all: eexists _, _; split; [reflexivity|].
  all: split; [trace_eq|]; split; [reflexivity|]; split; [by constructor|]; split; [by constructor|].
  all: first [ by repeat split; cbn; rewrite <- ?app_assoc
             | by eexists; repeat split; cbn; rewrite <- ?app_assoc ].
Qed.

(** The parameter step: under the engine lock, or not at all. *)
Lemma update_whisper_full_params_spec (B : Z) (s : obs_data) (w : world) :
  ∃ o w' evs,
    update_whisper_full_params B s w = (o, w') ∧
    (o = Next tt ∨ o = Return tt) ∧
    trace w' = trace w ++ evs ∧
    Forall (λ e, engine_event e = false) evs ∧
    engine_kept w w' ∧ setup_kept w w' ∧ host_kept w w' ∧
    (∀ mc, whisper_ctx_mutex (gf w) = Some mc → o = Next tt ∧ evs = [EvLock mc; EvUnlock mc]).
Proof.
  unfold update_whisper_full_params. unfold_M. unfold is_null. run_cases.
  all: eexists _, _, _; split; [reflexivity|].
  all: split; [eauto|]; split; [trace_eq|]; split; [repeat constructor|].
  all: split; [by constructor|]; split; [by constructor|]; split; [by constructor|].
  all: intros mc ?; by simplify_eq.
Qed.

(** The update, step by step: each tactic finds the step the run has
    reached and brings in what is known of it. *)
Tactic Notation "text_step" "as" simple_intropattern(p) :=
  match goal with
  | |- context [update_text_source ?s ?w0] =>
      destruct (update_text_source_spec s w0) as p
  end.

Tactic Notation "params_step" "as" simple_intropattern(p) :=
  match goal with
  | |- context [update_whisper_full_params ?B ?s ?w0] =>
      destruct (update_whisper_full_params_spec B s w0) as p
  end.

(** C7: an update whose model path equals the loaded one is no swap.  The
    update returns with the engine handle, the worker thread handle and the
    model path as they were, no identity was allocated for a new handle or
    thread, and the update performed no engine or thread event (no free, no
    notify, no join, no load, no thread start). *)
Theorem update_same_model_path (B : Z) (s : obs_data) (w : world) :
  obs_data_get_string s "whisper_model_path" = whisper_model_path (gf w) →
  ∃ w' evs,
    run (transcription_filter_update B s) w = (Some tt, w') ∧
    whisper_context (gf w') = whisper_context (gf w) ∧
    whisper_thread (gf w') = whisper_thread (gf w) ∧
    whisper_model_path (gf w') = whisper_model_path (gf w) ∧
    next_id w' = next_id w ∧
    trace w' = trace w ++ evs ∧
    Forall (λ e, engine_event e = false) evs.
Proof.
  intros Hpath. unfold run, transcription_filter_update. unfold_M. cbn.
  text_step as (o & w1 & pre & Hrun & Ho & Htr & Hpre & [] & _ & _ & _).
  rewrite Hrun. cbn in *.
  destruct Ho as [-> | ->]; cbn.
  - destruct (update_whisper_model_same s w1) as (w2 & Hrun2 & Htr2 & [] & _ & _);
      [congruence|].
    rewrite Hrun2; cbn.
    params_step as (o3 & w3 & evs & Hrun3 & Ho3 & Htr3 & Hevs & [] & _ & _ & _).
    rewrite Hrun3.
    exists w3, (pre ++ evs).
    split; [by destruct Ho3 as [-> | ->]|].
    repeat split; try congruence.
    + rewrite Htr3, Htr2, Htr, <- app_assoc. done.
    + by apply Forall_app.
  - exists w1, pre. by repeat split; try congruence.
Qed.

(** C1: the order of a model swap.  When the requested model path differs
    from the loaded one, an engine handle is present and the locks exist, the
    update first (after the text-source step, which performs no engine or
    thread event) frees and nulls the handle and notifies the condition
    variable between the lock and the unlock of the engine lock, then joins
    the previous worker thread if it is joinable, and only then loads: for a
    model file present locally it creates the new handle, stores it and
    starts the new worker; for an absent one it only requests the download.
    Every creation, store and thread start comes after the join. *)
Theorem update_swap_order (B : Z) (s : obs_data) (w : world) (h mc cv : nat) :
  let path := obs_data_get_string s "whisper_model_path" in
  path ≠ whisper_model_path (gf w) →
  whisper_context (gf w) = Some h →
  whisper_ctx_mutex (gf w) = Some mc →
  wshiper_thread_cv (gf w) = Some cv →
  is_Some (text_source_mutex (gf w)) →
  ∃ w' pre load,
    run (transcription_filter_update B s) w = (Some tt, w') ∧
    trace w' =
      trace w ++ pre ++
      [EvLock mc; EvWhisperFree h; EvStoreContext None; EvNotifyAll cv; EvUnlock mc] ++
      join_of (whisper_thread (gf w)) ++ load ++ [EvLock mc; EvUnlock mc] ∧
    Forall (λ e, engine_event e = false) pre ∧
    whisper_model_path (gf w') = path ∧
    match model_files w !! path with
    | None =>
      load = [EvDownload path] ∧
      whisper_context (gf w') = None ∧ whisper_thread (gf w') = None
    | Some loadable =>
      ∃ t, load = [EvInitContext path (whisper_context (gf w'));
                   EvStoreContext (whisper_context (gf w')); EvSpawn t] ∧
        whisper_thread (gf w') = Some t ∧
        whisper_context (gf w') = (if loadable : bool then Some (next_id w) else None)
    end.
Proof.
  intros path Hne Hctx Hmc Hcv Hmt. subst path.
  unfold run, transcription_filter_update. unfold_M. cbn.
  text_step as (o & w1 & pre & Hrun & _ & Htr & Hpre & He1 & Hs1 & Hh1 & Hnext).
  rewrite Hrun. destruct He1, Hs1, Hh1. cbn in *.
  rewrite (Hnext (or_intror Hmt)); cbn. clear Hnext.
  destruct (update_whisper_model_swap s w1 h mc cv)
    as (w2 & load & Hrun2 & Htr2 & Hp2 & Hs2 & _ & Hload); [congruence..|].
  rewrite Hrun2; cbn. destruct Hs2.
  params_step as (o3 & w3 & evs & Hrun3 & _ & Htr3 & _ & He3 & _ & _ & Hnext).
  rewrite Hrun3. destruct He3.
  destruct (Hnext mc) as [-> ->]; [congruence|].
  exists w3, pre, load. split; [done|].
  split; [|split; [done|split; [congruence|]]].
  - rewrite Htr3, Htr2, Htr, kept_thread0, <- !app_assoc. done.
  - rewrite kept_model_files0 in Hload.
    destruct (model_files w !! obs_data_get_string s "whisper_model_path") as [loadable|].
    + destruct Hload as (t & -> & Ht & Hc & _ & _). exists t.
      rewrite kept_context1, kept_thread1, Hc, kept_next_id0. done.
    + destruct Hload as (-> & Hc & Ht & _). rewrite kept_context1, kept_thread1. done.
Qed.

(** ** Destruction *)

Arguments free_input_buffer : simpl never.
Arguments release : simpl never.

Lemma free_input_buffer_loop n : ∀ i w,
  (i + n ≤ length (input_buffers (gf w)))%nat →
  ∃ bufs,
    for_range i n free_input_buffer w =
      (Next tt,
       set_trace (trace w ++ ((λ c, EvRelease (input_buffer_storage c)) <$> seq i n))
         (set_gf (set_input_buffers bufs (gf w)) w)) ∧
    length bufs = length (input_buffers (gf w)).
Proof.
  induction n as [|n IH]; intros i w Hlen.
  - exists (input_buffers (gf w)). split; [|done].
    unfold for_range, mret, M_ret. cbn. rewrite app_nil_r.
    destruct w as [g]; destruct g; reflexivity.
  - destruct (lookup_lt_is_Some_2 (input_buffers (gf w)) i) as [cb Hcb]; [lia|].
    set (w1 := set_gf (set_input_buffers (<[i := circlebuf_free cb]> (input_buffers (gf w))) (gf w))
                 (set_trace (trace w ++ [EvRelease (input_buffer_storage i)]) w)).
    assert (Hstep : free_input_buffer i w = (Next tt, w1)).
    { unfold free_input_buffer. unfold_M. cbn. rewrite Hcb. reflexivity. }
    destruct (IH (S i) w1) as (bufs & Hrun & Hl).
    { subst w1. cbn. rewrite length_insert. lia. }
    exists bufs. split.
    + unfold for_range; fold (@for_range unit). unfold mbind, M_bind.
      rewrite Hstep, Hrun. subst w1. cbn. rewrite <- app_assoc.
      destruct w as [g]; destruct g; reflexivity.
    + rewrite Hl. subst w1. cbn. by rewrite length_insert.
Qed.

Lemma release_run {R A} (p : option A) (r : A → resource) (w : world) :
  @release R A p r w = (Next tt, set_trace (trace w ++ release_of p r) w).
Proof.
  destruct p; [reflexivity|]. cbn. rewrite app_nil_r. by destruct w.
Qed.

Lemma release_of_quiet {A} (p : option A) (r : A → resource) :
  Forall (λ e, engine_event e = false) (release_of p r).
Proof. destruct p; repeat constructor. Qed.

(** A property of every event of an explicit list of events. *)
Ltac forall_events :=
  repeat first
    [ apply Forall_nil_2
    | apply release_of_quiet
    | apply Forall_cons; split; [reflexivity|]
    | apply Forall_app; split
    | rewrite Forall_fmap; apply Forall_true; reflexivity ].

Ltac free_loop_step :=
  match goal with
  | |- context [for_range 0 ?n free_input_buffer ?w0] =>
      let bufs := fresh "bufs" in
      let Hloop := fresh "Hloop" in
      destruct (free_input_buffer_loop n 0 w0) as (bufs & Hloop & _);
        [cbn; lia | rewrite Hloop; clear Hloop]
  end.

(** C4: the order of the destruction.  With the locks in place, the
    destruction first puts the shutdown request (free and null the engine
    handle, notify the condition variable) between the lock and the unlock of
    the engine lock, then joins the worker thread if it is joinable, and only
    then gives resources back: no release precedes the join, no engine or
    thread event follows it, and the copy buffers, every channel's ring
    buffer, the metadata queue, the locks, the condition variable and the
    instance itself are all released after it.  The handle is null and the
    thread no longer joinable at the end. *)
Theorem destroy_order (w : world) (mb mc cv : nat) :
  whisper_buf_mutex (gf w) = Some mb →
  whisper_ctx_mutex (gf w) = Some mc →
  wshiper_thread_cv (gf w) = Some cv →
  (channels (gf w) ≤ length (input_buffers (gf w)))%nat →
  ∃ w' releases,
    run transcription_filter_destroy w = (Some tt, w') ∧
    trace w' =
      trace w ++ shutdown_events mc cv (whisper_context (gf w)) ++
      join_of (whisper_thread (gf w)) ++ releases ∧
    Forall (λ e, engine_event e = false) releases ∧
    Forall (λ e, release_event e = false)
      (shutdown_events mc cv (whisper_context (gf w)) ++ join_of (whisper_thread (gf w))) ∧
    (is_Some (copy_buffers (gf w)) → EvRelease copy_buffer_arena ∈ releases) ∧
    (∀ c, (c < channels (gf w))%nat → EvRelease (input_buffer_storage c) ∈ releases) ∧
    EvRelease info_buffer_storage ∈ releases ∧
    EvRelease (mutex_object mb) ∈ releases ∧
    EvRelease (mutex_object mc) ∈ releases ∧
    EvRelease (condvar_object cv) ∈ releases ∧
    EvRelease filter_struct ∈ releases ∧
    whisper_context (gf w') = None ∧
    whisper_thread (gf w') = None.
Proof.
  intros Hmb Hmc Hcv Hch.
  destruct (whisper_context (gf w)) as [h|] eqn:Hctx;
  destruct (whisper_thread (gf w)) as [t|] eqn:Hth;
  destruct (text_source_name (gf w)) as [name|] eqn:Hname;
  destruct (text_source (gf w)) as [wk|] eqn:Hts.
  all: unfold run, transcription_filter_destroy, join_whisper_thread, store_context, whisper_free.
  all: unfold when, deref; unfold mbind, M_bind, mret, M_ret, gets, modify, emit, obs_log, abort,
         lock_guard; unfold is_null.
  all: repeat (cbn; progress rewrite ?release_run, ?Hmb, ?Hmc, ?Hcv, ?Hctx, ?Hth, ?Hname, ?Hts).
  all: free_loop_step.
  all: repeat (cbn; progress rewrite ?release_run, ?Hmb, ?Hmc, ?Hcv).
  all: eexists _, _; split; [reflexivity|].
  all: split; [unfold shutdown_events; cbn; rewrite <- ?app_assoc; cbn; reflexivity|].
  all: split; [forall_events|].
  all: split; [forall_events|].
  all: split; [intros [? ->]; set_solver|].
  all: split;
    [intros c Hc;
     assert (EvRelease (input_buffer_storage c) ∈
             (λ c, EvRelease (input_buffer_storage c)) <$> seq 0 (channels (gf w)))
       by (apply (list_elem_of_fmap_2 (λ c, EvRelease (input_buffer_storage c))), elem_of_seq; lia);
     repeat first [ apply elem_of_app; left; assumption
                  | apply elem_of_app; right
                  | apply elem_of_cons; right ]|].
  all: repeat (split; [set_solver|]).
  all: done.
Qed.

(** ** The output router *)

Ltac unfold_publish :=
  unfold run, set_text_callback, acquire_weak_text_source_ref, obs_get_source_by_name,
    obs_weak_source_get_source, obs_source_get_weak_source, obs_source_update_text,
    obs_output_output_caption_text1, ofstream_write_trunc.

(** One publish to the file sink. *)
Lemma publish_file (w : world) (str : string) :
  output_file_path (gf w) ≠ EmptyString →
  text_source_name (gf w) = None →
  output_file_path (gf w) ∉ read_only w →
  ∃ w', run (set_text_callback str) w = (Some tt, w') ∧
    files w' = <[output_file_path (gf w) := str]> (files w) ∧
    gf w' = gf w ∧ read_only w' = read_only w ∧ sources w' = sources w ∧
    trace w' = trace w ∧ log w' = log w.
Proof.
  intros Hpath Hname Hrw. apply String.eqb_neq in Hpath.
  unfold_publish. unfold_M. unfold is_null. cbn.
  destruct (caption_to_stream (gf w)); cbn.
  1: destruct (streaming_output w); cbn.
  all: rewrite Hpath, Hname; cbn.
  all: rewrite decide_False by done.
  all: eexists; split; [reflexivity|]; by repeat split.
Qed.

(** C5 (amended): the file sink is overwritten, not appended to.  With a non-empty
    file path configured, no text-element name set and the file writable, a
    publish leaves the file holding exactly the published text, whatever it
    held before, and touches no other file; after two successive publishes
    the file holds exactly the second text (so "a" then "ab" leaves "ab"). *)
Theorem publish_file_overwrite (w : world) (str1 str2 : string) :
  output_file_path (gf w) ≠ EmptyString →
  text_source_name (gf w) = None →
  output_file_path (gf w) ∉ read_only w →
  ∃ w1 w2,
    run (set_text_callback str1) w = (Some tt, w1) ∧
    files w1 !! output_file_path (gf w) = Some str1 ∧
    (∀ p, p ≠ output_file_path (gf w) → files w1 !! p = files w !! p) ∧
    run (set_text_callback str2) w1 = (Some tt, w2) ∧
    files w2 !! output_file_path (gf w) = Some str2 ∧
    (∀ p, p ≠ output_file_path (gf w) → files w2 !! p = files w !! p).
Proof.
  intros Hpath Hname Hrw.
  destruct (publish_file w str1) as (w1 & Hrun1 & Hf1 & Hg1 & Hr1 & _); [done..|].
  destruct (publish_file w1 str2) as (w2 & Hrun2 & Hf2 & _); [by rewrite ?Hg1, ?Hr1..|].
  rewrite Hg1 in Hf2.
  exists w1, w2. repeat split; try done.
  - rewrite Hf1. apply lookup_insert_eq.
  - intros p Hp. rewrite Hf1. by apply lookup_insert_ne.
  - rewrite Hf2. apply lookup_insert_eq.
  - intros p Hp. rewrite Hf2, Hf1, !lookup_insert_ne by done. done.
Qed.

(** One publish to the text element with no weak reference cached: the name
    is looked up, once. *)
Lemma publish_unresolved (w : world) (str name : string) (mt : nat) :
  text_source_name (gf w) = Some name →
  text_source_mutex (gf w) = Some mt →
  text_source (gf w) = None →
  ∃ w' evs,
    run (set_text_callback str) w = (Some tt, w') ∧
    trace w' = trace w ++ [EvLock mt; EvGetSourceByName name; EvUnlock mt] ++ evs ∧
    Forall (λ e, ∀ n, e ≠ EvGetSourceByName n) evs ∧
    (source_named name w = None →
       evs = [EvLock mt; EvUnlock mt] ∧
       log w' = log w ++ [(LOG_ERROR, "text source '%s' not found");
                          (LOG_ERROR, "text_source is null")] ∧
       gf w' = gf w ∧ sources w' = sources w ∧ files w' = files w).
Proof.
  intros Hname Hmt Hts. unfold source_named.
  unfold_publish. unfold_M. unfold is_null. cbn.
  destruct (caption_to_stream (gf w)); cbn.
  1: destruct (streaming_output w); cbn.
  all: rewrite Hname; cbn; rewrite andb_false_r; cbn.
  all: rewrite Hmt; cbn; rewrite Hts; cbn; rewrite Hname; cbn; rewrite Hmt; cbn.
  all: destruct (List.find _ (sources w)) as [src|] eqn:Hfind; cbn.
  all: rewrite ?Hmt, ?Hts; cbn.
  all: try destruct (List.find (λ s, Nat.eqb (src_id s) (src_id src)) (sources w)); cbn.
  all: eexists _, _; split; [reflexivity|]; split; [trace_eq|].
  all: split; [repeat constructor; done|].
  all: intros ?; simplify_eq.
  all: repeat split; try done; cbn; rewrite <- ?app_assoc; try done.
  all: by destruct w as [[]].
Qed.

(** One publish to the text element with a weak reference cached: only the
    reference is tried, and it stays cached whatever comes of it. *)
Lemma publish_cached (w : world) (str : string) (mt wk : nat) :
  is_Some (text_source_name (gf w)) →
  text_source_mutex (gf w) = Some mt →
  text_source (gf w) = Some wk →
  ∃ w',
    run (set_text_callback str) w = (Some tt, w') ∧
    trace w' = trace w ++ [EvLock mt; EvWeakGetSource wk; EvUnlock mt] ∧
    gf w' = gf w ∧ files w' = files w ∧
    (source_of_weak wk w = None →
       log w' = log w ++ [(LOG_ERROR, "text_source target is null")] ∧
       sources w' = sources w).
Proof.
  intros [name Hname] Hmt Hts. unfold source_of_weak.
  unfold_publish. unfold_M. unfold is_null. cbn.
  destruct (caption_to_stream (gf w)); cbn.
  1: destruct (streaming_output w); cbn.
  all: rewrite Hname; cbn; rewrite andb_false_r; cbn.
  all: repeat (cbn; progress rewrite ?Hmt, ?Hts).
  all: destruct (List.find (λ s, Nat.eqb (src_id s) wk) (sources w)) as [src|] eqn:Hfind.
  all: cbn; rewrite ?Hfind; cbn.
  all: eexists; split; [reflexivity|]; split; [trace_eq|].
  all: repeat split; try done.
  all: by destruct w as [[]].
Qed.

(** C6 (amended): errors of the text-element sink.  On a publish routed to
    the text element: when no weak reference is cached and the host has no
    source of the configured name, the publish looks the name up once,
    reports an error, changes neither the sources nor the files nor the
    filter, and any later publish from that filter state looks the name up
    again; when the cached weak reference is stale, the publish tries that
    reference once, reports an error, changes neither the sources nor the
    files, keeps the stale reference cached, and any later publish from that
    filter state tries the same reference again, without looking the name
    up. *)
Theorem publish_text_sink_errors (w : world) (str name : string) (mt : nat) :
  text_source_name (gf w) = Some name →
  text_source_mutex (gf w) = Some mt →
  (text_source (gf w) = None → source_named name w = None →
     ∃ w', run (set_text_callback str) w = (Some tt, w') ∧
       log w' = log w ++ [(LOG_ERROR, "text source '%s' not found");
                          (LOG_ERROR, "text_source is null")] ∧
       trace w' = trace w ++ [EvLock mt; EvGetSourceByName name; EvUnlock mt;
                              EvLock mt; EvUnlock mt] ∧
       sources w' = sources w ∧ files w' = files w ∧ gf w' = gf w ∧
       ∀ w2 str2, gf w2 = gf w' → resolves_again w2 str2) ∧
  (∀ wk, text_source (gf w) = Some wk → source_of_weak wk w = None →
     ∃ w', run (set_text_callback str) w = (Some tt, w') ∧
       log w' = log w ++ [(LOG_ERROR, "text_source target is null")] ∧
       trace w' = trace w ++ [EvLock mt; EvWeakGetSource wk; EvUnlock mt] ∧
       sources w' = sources w ∧ files w' = files w ∧ gf w' = gf w ∧
       ∀ w2 str2, gf w2 = gf w' →
         ∃ w3, run (set_text_callback str2) w2 = (Some tt, w3) ∧
           trace w3 = trace w2 ++ [EvLock mt; EvWeakGetSource wk; EvUnlock mt] ∧
           gf w3 = gf w2).
Proof.
  intros Hname Hmt. split.
  - intros Hts Hnone.
    destruct (publish_unresolved w str name mt) as (w' & evs & Hrun & Htr & _ & Hnf); [done..|].
    destruct (Hnf Hnone) as (-> & Hlog & Hg & Hs & Hf).
    exists w'. repeat split; try done.
    intros w2 str2 Hg2 name2 Hname2.
    rewrite Hg2, Hg, Hname in Hname2. simplify_eq.
    destruct (publish_unresolved w2 str2 name2 mt) as (w3 & evs & Hrun3 & Htr3 & _);
      [by rewrite Hg2, Hg..|].
    exists w3, ([EvLock mt; EvGetSourceByName name2; EvUnlock mt] ++ evs).
    repeat split; try done.
    apply elem_of_app; left. apply elem_of_cons; right. apply elem_of_cons; by left.
  - intros wk Hts Hnone.
    destruct (publish_cached w str mt wk) as (w' & Hrun & Htr & Hg & Hf & Hstale); [by eauto..|].
    destruct (Hstale Hnone) as [Hlog Hs].
    exists w'. repeat split; try done.
    intros w2 str2 Hg2.
    destruct (publish_cached w2 str2 mt wk) as (w3 & Hrun3 & Htr3 & Hg3 & _);
      [rewrite Hg2, Hg; by eauto..|].
    by exists w3.
Qed.

(** ** Failures of the engine creation *)

(** An update never crashes and leaves the locks, the buffers and the host
    alone. *)
Lemma update_safe (B : Z) (s : obs_data) (w : world) :
  ∃ o w', transcription_filter_update B s w = (o, w') ∧
    (o = Next tt ∨ o = Return tt) ∧ setup_kept w w' ∧ host_kept w w'.
Proof.
  unfold transcription_filter_update. unfold_M. cbn.
  text_step as (o & w1 & pre & Hrun & Ho & _ & _ & _ & Hs1 & Hh1 & _).
  rewrite Hrun. destruct Hs1, Hh1. cbn in *.
  destruct Ho as [-> | ->]; cbn;
    [|exists (Return tt), w1; split; [done|]; split; [eauto|]; split; constructor; congruence].
  destruct (update_whisper_model_safe s w1) as (o2 & w2 & Hrun2 & Ho2 & [] & []).
  rewrite Hrun2.
  destruct Ho2 as [-> | ->]; cbn;
    [|exists (Return tt), w2; split; [done|]; split; [eauto|]; split; constructor; congruence].
  params_step as (o3 & w3 & evs & Hrun3 & Ho3 & _ & _ & _ & [] & [] & _).
  rewrite Hrun3. exists o3, w3.
  split; [done|]; split; [done|]; split; constructor; congruence.
Qed.

(** The update with the loaded model path, as the creation runs it. *)
Lemma update_same_path (B : Z) (s : obs_data) (w : world) :
  obs_data_get_string s "whisper_model_path" = whisper_model_path (gf w) →
  ∃ o w', transcription_filter_update B s w = (o, w') ∧
    (o = Next tt ∨ o = Return tt) ∧
    engine_kept w w' ∧ setup_kept w w' ∧ host_kept w w'.
Proof.
  intros Hpath. unfold transcription_filter_update. unfold_M. cbn.
  text_step as (o & w1 & pre & Hrun & Ho & _ & _ & He1 & Hs1 & Hh1 & _).
  rewrite Hrun. destruct He1, Hs1, Hh1. cbn in *.
  destruct Ho as [-> | ->]; cbn;
    [|exists (Return tt), w1; split; [done|]; split; [eauto|]; repeat split; congruence].
  destruct (update_whisper_model_same s w1) as (w2 & Hrun2 & _ & [] & [] & []); [congruence|].
  rewrite Hrun2; cbn.
  params_step as (o3 & w3 & evs & Hrun3 & Ho3 & _ & _ & [] & [] & [] & _).
  rewrite Hrun3. exists o3, w3.
  split; [done|]; split; [done|]; repeat split; congruence.
Qed.





Arguments transcription_filter_update : simpl never.

Ltac unfold_create :=
  unfold transcription_filter_create, init_whisper_context, store_context,
    start_whisper_thread.

Ltac unfold_create_at HL :=
  unfold run; unfold_create; unfold assign_unconstructed; rewrite ?HL.

(** A creation whose engine handle cannot be created gives up before any
    lock, resampler or thread exists; the copy buffer it allocated stays. *)
Lemma create_failure (B O : Z) (F : Z → Z → Z) (L : string → bool) (settings : obs_data)
    (filter : nat) (w : world) :
  let path := obs_data_get_string settings "whisper_model_path" in
  L path = true →
  model_files w !! path ≠ Some true →
  ∃ w', run (transcription_filter_create B O F L settings filter) w = (Some None, w') ∧
    log w' = log w ++ [(LOG_ERROR, "Failed to load whisper model")] ∧
    trace w' = trace w ++ [EvInitContext path None; EvStoreContext None] ∧
    next_id w' = next_id w ∧ host_kept w w' ∧
    whisper_context (gf w') = None ∧ whisper_thread (gf w') = None ∧
    whisper_buf_mutex (gf w') = None ∧ whisper_ctx_mutex (gf w') = None ∧
    wshiper_thread_cv (gf w') = None ∧ text_source_mutex (gf w') = None ∧
    resampler (gf w') = None ∧ active (gf w') = false ∧
    is_Some (copy_buffers (gf w')).
Proof.
  intros path HL Hfile. subst path.
  destruct w as [g fs ro srcs out caps mf ac rate nid lg tr]. cbn in Hfile.
  unfold_create_at HL. run_eval.
  destruct (mf !! obs_data_get_string settings "whisper_model_path") as [[]|] eqn:Hf;
    [done|..]; run_eval.
  all: eexists; split; [reflexivity|]; run_eval; rewrite <- ?app_assoc.
  all: repeat split; eauto.
Qed.

(** A creation whose model loads hands out an instance with every lock in
    place, a live engine handle and a running worker. *)
Lemma create_success (B O : Z) (F : Z → Z → Z) (L : string → bool) (settings : obs_data)
    (filter : nat) (w : world) :
  let path := obs_data_get_string settings "whisper_model_path" in
  L path = true →
  L EmptyString = true →
  model_files w !! path = Some true →
  (audio_channels w ≤ MAX_AUDIO_CHANNELS)%nat →
  ∃ w', run (transcription_filter_create B O F L settings filter) w
          = (Some (Some the_filter), w') ∧
    filter_wf (gf w') ∧
    active (gf w') = true ∧
    whisper_context (gf w') = Some (next_id w) ∧
    is_Some (whisper_thread (gf w')) ∧
    whisper_model_path (gf w') = path ∧
    info_buffer (gf w') = [] ∧
    host_kept w w'.
Proof.
  intros path HL HL0 Hfile Hch. subst path.
  destruct w as [g fs ro srcs out caps mf ac rate nid lg tr]. cbn in Hfile, Hch.
  unfold_create_at HL. rewrite HL0. run_eval.
  rewrite Hfile; run_eval.
  match goal with
  | |- context [transcription_filter_update B settings ?w0] =>
      destruct (update_same_path B settings w0)
        as (o & w1 & Hrun & Ho & [Hc1 Ht1 Hp1 _] & [Hb1 Hm1 Hv1 Hx1 Hn1 Hi1 Hq1 _] & Hh1);
        [reflexivity|]; rewrite Hrun
  end.
  revert Hc1 Ht1 Hp1 Hb1 Hm1 Hv1 Hx1 Hn1 Hi1 Hq1 Hh1. run_eval.
  intros Hc1 Ht1 Hp1 Hb1 Hm1 Hv1 Hx1 Hn1 Hi1 Hq1 [Hf1 Hr1 Hs1 Ho1 Hcap1 Hmf1].
  destruct Ho as [-> | ->]; run_eval; rewrite Ht1; run_eval.
  all: eexists; split; [reflexivity|]; unfold filter_wf; run_eval.
  all: rewrite Hc1, Hp1, Hb1, Hm1, Hv1, Hx1, Hn1, Hi1, Hq1.
  all: repeat split; eauto.
Qed.

(** A creation with a C++ library that does not take the model path on
    zero bytes crashes at that assignment, before anything else was done. *)
Lemma create_crash_model_path (B O : Z) (F : Z → Z → Z) (L : string → bool)
    (settings : obs_data) (filter : nat) (w : world) :
  L (obs_data_get_string settings "whisper_model_path") = false →
  ∃ w', run (transcription_filter_create B O F L settings filter) w = (None, w') ∧
    trace w' = trace w ∧ log w' = log w ∧ next_id w' = next_id w ∧ host_kept w w'.
Proof.
  intros HL.
  destruct w as [g fs ro srcs out caps mf ac rate nid lg tr].
  unfold_create_at HL. run_eval.
  eexists; split; [reflexivity|]; run_eval; by repeat split.
Qed.

(** A creation whose model loads, with a C++ library that takes the model
    path on zero bytes but not the empty string, crashes at the assignment
    of the output file path: by then the engine handle and the four
    synchronisation objects exist, and none of them is given back. *)
Lemma create_crash_output_path (B O : Z) (F : Z → Z → Z) (L : string → bool)
    (settings : obs_data) (filter : nat) (w : world) :
  let path := obs_data_get_string settings "whisper_model_path" in
  L path = true →
  L EmptyString = false →
  model_files w !! path = Some true →
  ∃ w', run (transcription_filter_create B O F L settings filter) w = (None, w') ∧
    trace w' =
      trace w ++ [EvInitContext path (Some (next_id w)); EvStoreContext (Some (next_id w))] ∧
    next_id w' = (next_id w + 5)%nat ∧
    whisper_context (gf w') = Some (next_id w) ∧
    whisper_thread (gf w') = None ∧
    whisper_buf_mutex (gf w') = Some (next_id w + 1)%nat ∧
    whisper_ctx_mutex (gf w') = Some (next_id w + 2)%nat ∧
    wshiper_thread_cv (gf w') = Some (next_id w + 3)%nat ∧
    text_source_mutex (gf w') = Some (next_id w + 4)%nat ∧
    host_kept w w'.
Proof.
  intros path HL HL0 Hfile. subst path.
  destruct w as [g fs ro srcs out caps mf ac rate nid lg tr]. cbn in Hfile.
  unfold_create_at HL. rewrite HL0. run_eval.
  rewrite Hfile; run_eval.
  eexists; split; [reflexivity|]; run_eval; rewrite <- ?app_assoc.
  replace (nid + 5)%nat with (S (S (S (S (S nid))))) by lia.
  replace (nid + 1)%nat with (S nid) by lia.
  replace (nid + 2)%nat with (S (S nid)) by lia.
  replace (nid + 3)%nat with (S (S (S nid))) by lia.
  replace (nid + 4)%nat with (S (S (S (S nid)))) by lia.
  by repeat split.
Qed.


Lemma filter_wf_kept (w w' : world) : setup_kept w w' → filter_wf (gf w) → filter_wf (gf w').
Proof.
  intros [] (? & ? & ? & ? & ? & ?). unfold filter_wf.
  rewrite kept_buf_mutex0, kept_ctx_mutex0, kept_cv0, kept_text_mutex0, kept_channels0,
    kept_input_buffers0. done.
Qed.

(** The locks and the buffer array are an invariant of the filter: creation
    sets them up and no update takes them away. *)
Lemma update_keeps_wf (B : Z) (s : obs_data) (w : world) :
  filter_wf (gf w) →
  ∃ w', run (transcription_filter_update B s) w = (Some tt, w') ∧ filter_wf (gf w').
Proof.
  intros Hwf. unfold run.
  destruct (update_safe B s w) as (o & w' & Hrun & Ho & Hs & _).
  rewrite Hrun. exists w'. split; [by destruct Ho as [-> | ->]|].
  by apply (filter_wf_kept w).
Qed.


(** ** The option defaults *)

(** The defaults table after the operation, evaluated by need. *)
Ltac eval_defaults :=
  lazy beta iota zeta delta [transcription_filter_defaults obs_data_set_default_bool
    obs_data_set_default_int obs_data_set_default_double obs_data_set_default_string
    obs_data_set_default defaults values].

Ltac lookup_default :=
  repeat (rewrite lookup_insert_ne by discriminate); apply lookup_insert_eq.

(** C9: the option defaults.  Whatever the settings object held, after the
    defaults operation the default of the sampling method is beam search,
    that of the thread count is 4 and that of the no-context flag is true
    (text carry-over disabled); the operation gives a default to each of its
    thirty option names, changes the default of no other name and sets no
    value; and a filter updated from these defaults alone gets exactly those
    three engine parameters. *)
Theorem defaults_spec (s : obs_data) (B : Z) :
  let s' := transcription_filter_defaults s in
  defaults s' !! "whisper_sampling_method" =
    Some (OBS_INT (sampling_value WHISPER_SAMPLING_BEAM_SEARCH)) ∧
  defaults s' !! "n_threads" = Some (OBS_INT 4) ∧
  defaults s' !! "no_context" = Some (OBS_BOOL true) ∧
  values s' = values s ∧
  Forall (λ name, is_Some (defaults s' !! name)) option_names ∧
  (∀ name, name ∉ option_names → defaults s' !! name = defaults s !! name) ∧
  let p := update_whisper_params B (transcription_filter_defaults obs_data_create) in
  strategy p = sampling_value WHISPER_SAMPLING_BEAM_SEARCH ∧
  n_threads p = 4 ∧
  no_context p = true.
Proof.
  destruct s as [vals defs]. cbn zeta.
  split; [|split; [|split; [|split; [|split; [|split]]]]].
  - eval_defaults. lookup_default.
  - eval_defaults. lookup_default.
  - eval_defaults. lookup_default.
  - eval_defaults. reflexivity.
  - unfold option_names.
    repeat (apply Forall_cons; split; [eexists; eval_defaults; lookup_default|]).
    apply Forall_nil_2.
  - intros name Hname. eval_defaults.
    repeat (rewrite lookup_insert_ne
              by (intros <-; apply Hname; unfold option_names;
                  repeat first [apply list_elem_of_here | apply list_elem_of_further])).
    reflexivity.
  - vm_compute. done.
Qed.

(** * The properties on the concrete filter *)

Lemma example_filter_created :
  run (transcription_filter_create 3000 100 example_frames zero_is_empty example_settings 1)
    example_host
  = (Some (Some the_filter), example_filter).
Proof. vm_compute. reflexivity. Qed.

Ltac packet_fits_example :=
  split; [unfold uint32; change (audio.frames example_packet) with 2; lia
         | split; [cbn; lia|]];
  cbn; repeat (apply Forall_cons; split; [vm_compute; discriminate|]); apply Forall_nil_2.

Lemma update_swap_order_witness :
  ∃ w' pre load,
    run (transcription_filter_update 3000 (example_model "models/ggml-base.bin")) example_filter
      = (Some tt, w') ∧
    trace w' =
      trace example_filter ++ pre ++
      [EvLock 3; EvWhisperFree 1; EvStoreContext None; EvNotifyAll 4; EvUnlock 3] ++
      join_of (whisper_thread (gf example_filter)) ++ load ++ [EvLock 3; EvUnlock 3] ∧
    Forall (λ e, engine_event e = false) pre ∧
    whisper_model_path (gf w') = "models/ggml-base.bin" ∧
    ∃ t, load = [EvInitContext "models/ggml-base.bin" (whisper_context (gf w'));
                 EvStoreContext (whisper_context (gf w')); EvSpawn t] ∧
      whisper_thread (gf w') = Some t ∧
      whisper_context (gf w') = Some 7%nat.
Proof.
  apply (update_swap_order 3000 (example_model "models/ggml-base.bin") example_filter 1 3 4).
  - vm_compute. discriminate.
  - reflexivity.
  - reflexivity.
  - reflexivity.
  - vm_compute. eexists. reflexivity.
Defined.

Lemma ingest_lock_step_witness :
  ∃ w', ingest_all [example_packet; example_packet] example_filter
          = (Some [Some example_packet; Some example_packet], w') ∧
    info_buffer (gf w') = [info_of example_packet; info_of example_packet] ∧
    length (info_buffer (gf w')) = 2%nat ∧
    ∀ c cb, input_buffers (gf example_filter) !! c = Some cb →
      ∃ cb', input_buffers (gf w') !! c = Some cb' ∧
        circlebuf_size cb' =
          circlebuf_size cb + (if bool_decide (c < 2)%nat then 4 * sizeof_float else 0).
Proof.
  apply (ingest_lock_step example_filter [example_packet; example_packet]).
  - reflexivity.
  - vm_compute. eexists. reflexivity.
  - vm_compute. eexists. reflexivity.
  - vm_compute. eexists. reflexivity.
  - vm_compute. lia.
  - change (Forall (packet_fits 2) [example_packet; example_packet]).
    apply Forall_cons; split; [packet_fits_example|].
    apply Forall_cons; split; [packet_fits_example|]. apply Forall_nil_2.
Defined.

Lemma ingest_pass_through_witness :
  (ingest example_packet example_inactive = (Some (Some example_packet), example_inactive) ∧
   ∀ ps, ingest_all ps example_inactive = (Some (Some <$> ps), example_inactive)) ∧
  (∃ w', ingest example_packet example_filter = (Some (Some example_packet), w')).
Proof.
  split.
  - apply (proj1 (ingest_pass_through example_inactive example_packet)).
    left. reflexivity.
  - apply (proj2 (proj2 (ingest_pass_through example_filter example_packet))).
    + vm_compute. lia.
    + change (packet_fits 2 example_packet). packet_fits_example.
Defined.

Lemma destroy_order_witness :
  ∃ w' releases,
    run transcription_filter_destroy example_filter = (Some tt, w') ∧
    trace w' =
      trace example_filter ++
      [EvLock 3; EvWhisperFree 1; EvStoreContext None; EvNotifyAll 4; EvUnlock 3] ++
      [EvJoin 6] ++ releases ∧
    EvRelease copy_buffer_arena ∈ releases ∧
    EvRelease (input_buffer_storage 0) ∈ releases ∧
    EvRelease (input_buffer_storage 1) ∈ releases ∧
    EvRelease info_buffer_storage ∈ releases ∧
    EvRelease (mutex_object 2) ∈ releases ∧
    EvRelease (mutex_object 3) ∈ releases ∧
    EvRelease (condvar_object 4) ∈ releases ∧
    EvRelease filter_struct ∈ releases.
Proof.
  destruct (destroy_order example_filter 2 3 4)
    as (w' & releases & Hrun & Htr & _ & _ & Hcopy & Hbufs & Hinfo & Hmb & Hmc & Hcv & Hgf & _).
  - reflexivity.
  - reflexivity.
  - reflexivity.
  - vm_compute. lia.
  - exists w', releases. split; [exact Hrun|]. split; [exact Htr|].
    split; [apply Hcopy; vm_compute; eexists; reflexivity|].
    split; [apply Hbufs; vm_compute; lia|].
    split; [apply Hbufs; vm_compute; lia|].
    repeat split; assumption.
Defined.

Lemma publish_file_overwrite_witness :
  ∃ w1 w2,
    run (set_text_callback "a") example_file_sink = (Some tt, w1) ∧
    files w1 !! "/tmp/captions.txt" = Some "a" ∧
    (∀ p, p ≠ "/tmp/captions.txt" → files w1 !! p = files example_file_sink !! p) ∧
    run (set_text_callback "ab") w1 = (Some tt, w2) ∧
    files w2 !! "/tmp/captions.txt" = Some "ab" ∧
    (∀ p, p ≠ "/tmp/captions.txt" → files w2 !! p = files example_file_sink !! p).
Proof.
  apply (publish_file_overwrite example_file_sink "a" "ab").
  - vm_compute. discriminate.
  - reflexivity.
  - change (read_only example_file_sink) with (∅ : gset string). apply not_elem_of_empty.
Defined.

Lemma publish_text_sink_errors_witness :
  (∃ w', run (set_text_callback "a") example_missing_sink = (Some tt, w') ∧
     log w' = log example_missing_sink ++
              [(LOG_ERROR, "text source '%s' not found"); (LOG_ERROR, "text_source is null")] ∧
     sources w' = sources example_missing_sink ∧
     ∀ w2 str2, gf w2 = gf w' → resolves_again w2 str2) ∧
  (∃ w', run (set_text_callback "a") example_stale_sink = (Some tt, w') ∧
     log w' = log example_stale_sink ++ [(LOG_ERROR, "text_source target is null")] ∧
     trace w' = trace example_stale_sink ++ [EvLock 5; EvWeakGetSource 7; EvUnlock 5] ∧
     sources w' = sources example_stale_sink ∧
     gf w' = gf example_stale_sink).
Proof.
  split.
  - destruct (proj1 (publish_text_sink_errors example_missing_sink "a" "subtitles" 5
                       eq_refl eq_refl) eq_refl eq_refl)
      as (w' & Hrun & Hlog & _ & Hs & _ & _ & Hnext).
    exists w'. repeat split; assumption.
  - destruct (proj2 (publish_text_sink_errors example_stale_sink "a" "captions" 5
                       eq_refl eq_refl) 7%nat eq_refl eq_refl)
      as (w' & Hrun & Hlog & Htr & Hs & _ & Hg & _).
    exists w'. repeat split; assumption.
Defined.

Lemma update_same_model_path_witness :
  ∃ w' evs,
    run (transcription_filter_update 3000 example_settings) example_filter = (Some tt, w') ∧
    whisper_context (gf w') = Some 1%nat ∧
    whisper_thread (gf w') = Some 6%nat ∧
    whisper_model_path (gf w') = "models/ggml-tiny.en.bin" ∧
    next_id w' = 7%nat ∧
    trace w' = trace example_filter ++ evs ∧
    Forall (λ e, engine_event e = false) evs.
Proof.
  apply (update_same_model_path 3000 example_settings example_filter).
  reflexivity.
Defined.


(** C5, as stated, fails on a file that cannot be opened for writing: the
    publishes "a" then "ab" return normally, the file keeps the text it
    held, and nothing is logged. *)
Lemma publish_read_only_counterexample :
  output_file_path (gf example_kept_file) = "/tmp/captions.txt" ∧
  text_source_name (gf example_kept_file) = None ∧
  ∃ w1 w2,
    run (set_text_callback "a") example_kept_file = (Some tt, w1) ∧
    run (set_text_callback "ab") w1 = (Some tt, w2) ∧
    files w2 !! "/tmp/captions.txt" = Some "old" ∧
    log w2 = log example_kept_file.
Proof.
  split; [reflexivity|]. split; [reflexivity|].
  eexists _, _. split; [vm_compute; reflexivity|].
  split; [vm_compute; reflexivity|]. split; reflexivity.
Qed.

(** C6, as stated, fails on a stale reference: once the source behind the
    cached weak reference is gone, a publish reports the error and the next
    publish does not look the name up again, although the host has a source
    of that name by then; the text of that source stays as it was. *)
Lemma publish_stale_counterexample :
  text_source_name (gf example_stale_sink) = Some "captions" ∧
  text_source (gf example_stale_sink) = Some 7%nat ∧
  source_of_weak 7 example_stale_sink = None ∧
  source_named "captions" example_stale_sink
    = Some {| src_id := 9; src_name := "captions"; src_text := EmptyString |} ∧
  ∃ w1, run (set_text_callback "a") example_stale_sink = (Some tt, w1) ∧
    ¬ resolves_again w1 "b".
Proof.
  split; [reflexivity|]. split; [reflexivity|]. split; [reflexivity|]. split; [reflexivity|].
  eexists. split; [vm_compute; reflexivity|].
  intros Hres. destruct (Hres "captions" eq_refl) as (w2 & evs & Hrun & Htr & Hin).
  vm_compute in Hrun. injection Hrun as <-.
  vm_compute in Htr. injection Htr as <-.
  repeat (apply elem_of_cons in Hin as [Hin|Hin]; [discriminate|]).
  by apply elem_of_nil in Hin.
Qed.


(** ** The ingest stage: contents *)

Lemma push_samples_loop_content a n : ∀ i w,
  uint32 (audio.frames a) →
  (i + n ≤ length (input_buffers (gf w)))%nat →
  (i + n ≤ length (audio.data a))%nat →
  Forall (λ plane : list Byte.byte, audio.frames a * sizeof_float <= Z.of_nat (length plane))
         (take (i + n) (audio.data a)) →
  ∃ bufs,
    for_range i n (push_samples a) w = (Next tt, set_gf (set_input_buffers bufs (gf w)) w) ∧
    length bufs = length (input_buffers (gf w)) ∧
    ∀ c cb, input_buffers (gf w) !! c = Some cb →
      bufs !! c = Some (if bool_decide (i ≤ c < i + n)%nat then cb ++ samples_of c a else cb).
Proof.
  induction n as [|n IH]; intros i w Hu Hb Hd Hp.
  - exists (input_buffers (gf w)). split; [|split].
    + unfold for_range, mret, M_ret. f_equal. destruct w as [g]; destruct g; reflexivity.
    + reflexivity.
    + intros c cb Hc. by rewrite bool_decide_eq_false_2 by lia.
  - destruct (lookup_lt_is_Some_2 (input_buffers (gf w)) i) as [cb0 Hcb0]; [lia|].
    destruct (lookup_lt_is_Some_2 (audio.data a) i) as [pl Hpl]; [lia|].
    assert (Hlen : audio.frames a * sizeof_float <= Z.of_nat (length pl)).
    { rewrite Forall_lookup in Hp. apply (Hp i). rewrite lookup_take_lt by lia. done. }
    set (cb1 := cb0 ++ take (Z.to_nat (audio.frames a * sizeof_float)) pl).
    set (w1 := set_gf (set_input_buffers (<[i := cb1]> (input_buffers (gf w))) (gf w)) w).
    assert (Hstep : for_range i (S n) (push_samples a) w = for_range (S i) n (push_samples a) w1).
    { unfold for_range at 1; fold (@for_range (option obs_audio_data)).
      unfold mbind, M_bind. by rewrite (push_samples_step a i w cb0 pl). }
    destruct (IH (S i) w1) as (bufs & Hrun & Hl & Hlook).
    + done.
    + subst w1. cbn. rewrite length_insert. lia.
    + lia.
    + replace (S i + n)%nat with (i + S n)%nat by lia. done.
    + exists bufs. split; [|split].
      * rewrite Hstep, Hrun. subst w1. destruct w as [g]; destruct g; reflexivity.
      * rewrite Hl. subst w1. cbn. by rewrite length_insert.
      * intros c cb Hc. destruct (decide (c = i)) as [->|Hne].
        -- rewrite (Hlook i cb1).
           2:{ subst w1. cbn. apply list_lookup_insert_eq. by eapply lookup_lt_Some. }
           rewrite bool_decide_eq_false_2 by lia. rewrite bool_decide_eq_true_2 by lia.
           assert (cb = cb0) as -> by congruence.
           subst cb1. unfold samples_of. by rewrite Hpl.
        -- rewrite (Hlook c cb).
           2:{ subst w1. cbn. by rewrite list_lookup_insert_ne. }
           destruct (decide (i ≤ c < i + S n)%nat).
           ++ by rewrite !bool_decide_eq_true_2 by lia.
           ++ by rewrite !bool_decide_eq_false_2 by lia.
Qed.

Lemma ingest_buffering_content w a :
  active (gf w) = true →
  is_Some (whisper_context (gf w)) →
  is_Some (whisper_buf_mutex (gf w)) →
  is_Some (whisper_ctx_mutex (gf w)) →
  (channels (gf w) ≤ length (input_buffers (gf w)))%nat →
  packet_fits (channels (gf w)) a →
  ∃ w', ingest a w = (Some (Some a), w') ∧
    active (gf w') = true ∧
    whisper_context (gf w') = whisper_context (gf w) ∧
    whisper_buf_mutex (gf w') = whisper_buf_mutex (gf w) ∧
    whisper_ctx_mutex (gf w') = whisper_ctx_mutex (gf w) ∧
    channels (gf w') = channels (gf w) ∧
    length (input_buffers (gf w')) = length (input_buffers (gf w)) ∧
    ∀ c cb, input_buffers (gf w) !! c = Some cb →
      input_buffers (gf w') !! c =
        Some (if bool_decide (c < channels (gf w))%nat then cb ++ samples_of c a else cb).
Proof.
  intros Hact [h Hctx] [mb Hmb] [mc Hmc] Hch (Hu & Hd & Hp).
  unfold ingest, run, transcription_filter_filter_audio. unfold_M. cbn.
  rewrite Hact; cbn. rewrite Hctx; cbn. rewrite Hmb, Hmc; cbn.
  match goal with
  | |- context [for_range 0 ?n (push_samples a) ?w2] =>
      destruct (push_samples_loop_content a n 0 w2) as (bufs & Hrun & Hlen & Hlook);
        [done | cbn; lia | cbn; lia | done |]; rewrite Hrun
  end.
  cbn. eexists. split; [reflexivity|]. cbn.
  repeat split; try done.
  intros c cb Hc. rewrite (Hlook c cb Hc).
  destruct (decide (c < channels (gf w))%nat).
  - by rewrite !bool_decide_eq_true_2 by lia.
  - by rewrite !bool_decide_eq_false_2 by lia.
Qed.

(** The contents of the ring buffers after a sequence of packets on the
    buffering path. *)
Lemma ingest_all_content (ps : list obs_audio_data) : ∀ (w : world),
  active (gf w) = true →
  is_Some (whisper_context (gf w)) →
  is_Some (whisper_buf_mutex (gf w)) →
  is_Some (whisper_ctx_mutex (gf w)) →
  (channels (gf w) ≤ length (input_buffers (gf w)))%nat →
  Forall (packet_fits (channels (gf w))) ps →
  ∃ w', ingest_all ps w = (Some (Some <$> ps), w') ∧
    ∀ c cb, input_buffers (gf w) !! c = Some cb →
      input_buffers (gf w') !! c =
        Some (if bool_decide (c < channels (gf w))%nat
              then cb ++ concat ((samples_of c) <$> ps) else cb).
Proof.
  induction ps as [|a ps IH]; intros w Hact Hctx Hmb Hmc Hch Hfit.
  - exists w. split; [done|]. intros c cb Hc. rewrite Hc. cbn. rewrite app_nil_r.
    by case_bool_decide.
  - apply Forall_cons in Hfit as [Ha Hps].
    destruct (ingest_buffering_content w a)
      as (w1 & Hrun & Hact1 & Hctx1 & Hmb1 & Hmc1 & Hch1 & Hlen1 & Hbuf1); [done..|].
    destruct (IH w1) as (w2 & Hrun2 & Hbuf2).
    + done.
    + by rewrite Hctx1.
    + by rewrite Hmb1.
    + by rewrite Hmc1.
    + by rewrite Hch1, Hlen1.
    + by rewrite Hch1.
    + exists w2. split.
      * cbn [ingest_all]. by rewrite Hrun, Hrun2.
      * intros c cb Hc. rewrite (Hbuf2 c _ (Hbuf1 c cb Hc)), Hch1.
        destruct (decide (c < channels (gf w))%nat).
        -- rewrite !bool_decide_eq_true_2 by done. cbn. by rewrite app_assoc.
        -- by rewrite !bool_decide_eq_false_2 by done.
Qed.

(** X1: the ring buffers are first-in first-out copies of the packets.  On
    the buffering path, after any sequence of packets the ring buffer of each
    channel holds what it held before followed by the samples of the packets,
    byte for byte and in arrival order; the buffers beyond the channel count
    are exactly as before. *)
Theorem ingest_fifo (ps : list obs_audio_data) : ∀ (w : world),
  active (gf w) = true →
  is_Some (whisper_context (gf w)) →
  is_Some (whisper_buf_mutex (gf w)) →
  is_Some (whisper_ctx_mutex (gf w)) →
  (channels (gf w) ≤ length (input_buffers (gf w)))%nat →
  Forall (packet_fits (channels (gf w))) ps →
  ∃ w', ingest_all ps w = (Some (Some <$> ps), w') ∧
    ∀ c cb, input_buffers (gf w) !! c = Some cb →
      input_buffers (gf w') !! c =
        Some (if bool_decide (c < channels (gf w))%nat
              then cb ++ concat ((samples_of c) <$> ps) else cb).
Proof. apply ingest_all_content. Qed.

(** X2: the defensive path of the ingest.  On an active filter with an
    engine handle, when the buffer lock or the engine lock is missing the
    ingest logs one error, returns the packet and changes nothing else: no
    buffer, no queue, no lock event. *)
Theorem ingest_without_locks (w : world) (a : obs_audio_data) :
  active (gf w) = true →
  is_Some (whisper_context (gf w)) →
  whisper_buf_mutex (gf w) = None ∨ whisper_ctx_mutex (gf w) = None →
  ingest a w =
    (Some (Some a), set_log (log w ++ [(LOG_ERROR, "whisper mutexes are null")]) w).
Proof.
  intros Hact [h Hctx] Hnull.
  unfold ingest, run, transcription_filter_filter_audio. unfold_M. cbn.
  rewrite Hact; cbn. rewrite Hctx; cbn.
  destruct Hnull as [H|H]; rewrite H; cbn; [done|].
  by destruct (whisper_buf_mutex (gf w)).
Qed.

(** ** The output router: the caption channel and the text element *)

Lemma find_by_id (l : list obs_source) (src : obs_source) :
  src ∈ l →
  ∃ o, List.find (λ s, Nat.eqb (src_id s) (src_id src)) l = Some o ∧ src_id o = src_id src.
Proof.
  induction l as [|x l IH]; intros Hin.
  - by apply elem_of_nil in Hin.
  - simpl. destruct (Nat.eqb (src_id x) (src_id src)) eqn:Hx.
    + exists x. split; [done|]. by apply Nat.eqb_eq.
    + apply elem_of_cons in Hin as [->|Hin]; [by rewrite Nat.eqb_refl in Hx|by apply IH].
Qed.

Lemma find_elem_of {A} (f : A → bool) (l : list A) (x : A) :
  List.find f l = Some x → x ∈ l ∧ f x = true.
Proof.
  intros H. apply List.find_some in H as [Hin Hf]. split; [|done].
  by apply list_elem_of_In.
Qed.

Lemma source_named_retext (name str : string) (id : nat) (l : list obs_source) :
  List.find (λ s, String.eqb (src_name s) name) (retext id str l) =
  (λ s, if Nat.eqb (src_id s) id then with_text s str else s) <$>
    List.find (λ s, String.eqb (src_name s) name) l.
Proof.
  induction l as [|x l IH]; [done|].
  unfold retext in *. rewrite fmap_cons. simpl.
  replace (src_name (if Nat.eqb (src_id x) id then with_text x str else x)) with (src_name x)
    by (by destruct (Nat.eqb (src_id x) id)).
  destruct (String.eqb (src_name x) name); [done|]. apply IH.
Qed.

Arguments List.find : simpl never.

(** A publish, whatever the state: it returns, serves the caption channel,
    and takes the sink lock only. *)
Lemma set_text_callback_frame (w : world) (str : string) :
  ∃ w' evs,
    run (set_text_callback str) w = (Some tt, w') ∧
    captions w' = captions w ++ caption_of w str ∧
    trace w' = trace w ++ evs ∧
    Forall (λ e, engine_event e = false) evs ∧
    foldl lock_step (Some None) evs = Some None ∧
    engine_kept w w' ∧ setup_kept w w' ∧
    text_source_name (gf w') = text_source_name (gf w) ∧
    output_file_path (gf w') = output_file_path (gf w).
Proof.
  unfold caption_of. unfold_publish. unfold_M. unfold is_null.
  run_cases.
  all: try congruence.
  all: eexists _, _; split; [reflexivity|].
  all: split; [cbn; rewrite ?app_nil_r; done|].
  all: split; [trace_eq|].
  all: split; [repeat constructor|].
  all: split; [simplify_eq; repeat (cbn; progress rewrite ?Nat.eqb_refl); reflexivity|].
  all: split; [by constructor|]; split; [by constructor|].
  all: cbn; split; congruence.
Qed.

(** X3: every publish returns, and the caption channel is served whatever
    becomes of the other sink.  On any state a publish runs to its end; the
    streaming output receives the text exactly when captions are enabled and
    a streaming output exists, also when the file or text-element sink fails;
    the publish leaves the engine, the worker, the locks, the buffers and the
    sink configuration (name and file path) as they were and performs no
    engine or thread event. *)
Theorem publish_total (w : world) (str : string) :
  ∃ w' evs,
    run (set_text_callback str) w = (Some tt, w') ∧
    captions w' = captions w ++ caption_of w str ∧
    trace w' = trace w ++ evs ∧
    Forall (λ e, engine_event e = false) evs ∧
    engine_kept w w' ∧ setup_kept w w' ∧
    text_source_name (gf w') = text_source_name (gf w) ∧
    output_file_path (gf w') = output_file_path (gf w).
Proof.
  destruct (set_text_callback_frame w str)
    as (w' & evs & Hrun & Hcap & Htr & Hq & _ & He & Hs & Hname & Hpath).
  by exists w', evs.
Qed.

(** One publish to the text element through a weak reference that is live. *)
Lemma publish_cached_update (w : world) (str : string) (mt wk : nat) (tgt : obs_source) :
  is_Some (text_source_name (gf w)) →
  text_source_mutex (gf w) = Some mt →
  text_source (gf w) = Some wk →
  source_of_weak wk w = Some tgt →
  ∃ w',
    run (set_text_callback str) w = (Some tt, w') ∧
    sources w' = retext wk str (sources w) ∧
    trace w' = trace w ++ [EvLock mt; EvWeakGetSource wk; EvUnlock mt] ∧
    gf w' = gf w ∧ log w' = log w ∧ files w' = files w.
Proof.
  intros [name Hname] Hmt Hts Htgt. unfold source_of_weak in Htgt.
  destruct (find_elem_of _ _ _ Htgt) as [_ Hid]. apply Nat.eqb_eq in Hid.
  unfold_publish. unfold_M. unfold is_null. cbn.
  destruct (caption_to_stream (gf w)); cbn.
  1: destruct (streaming_output w); cbn.
  all: rewrite Hname; cbn; rewrite andb_false_r; cbn.
  all: repeat (cbn; progress rewrite ?Hmt, ?Hts, ?Htgt).
  all: eexists; split; [reflexivity|]; split; [by rewrite Hid|]; split; [trace_eq|].
  all: repeat split; try done.
  all: by destruct w as [[]].
Qed.

(** One publish to the text element that has to resolve the name first. *)
Lemma publish_resolve (w : world) (str name : string) (mt : nat) (src : obs_source) :
  text_source_name (gf w) = Some name →
  text_source_mutex (gf w) = Some mt →
  text_source (gf w) = None →
  source_named name w = Some src →
  ∃ w',
    run (set_text_callback str) w = (Some tt, w') ∧
    sources w' = retext (src_id src) str (sources w) ∧
    trace w' = trace w ++ [EvLock mt; EvGetSourceByName name; EvUnlock mt;
                           EvLock mt; EvWeakGetSource (src_id src); EvUnlock mt] ∧
    text_source (gf w') = Some (src_id src) ∧
    text_source_name (gf w') = Some name ∧
    text_source_mutex (gf w') = Some mt ∧
    log w' = log w ∧ files w' = files w.
Proof.
  intros Hname Hmt Hts Hsrc. unfold source_named in Hsrc.
  destruct (find_elem_of _ _ _ Hsrc) as [Hin _].
  destruct (find_by_id _ _ Hin) as (o & Ho & Hid).
  unfold_publish. unfold_M. unfold is_null. cbn.
  destruct (caption_to_stream (gf w)); cbn.
  1: destruct (streaming_output w); cbn.
  all: rewrite Hname; cbn; rewrite andb_false_r; cbn.
  all: repeat (cbn; progress rewrite ?Hmt, ?Hts, ?Hname, ?Hsrc, ?Ho).
  all: eexists; split; [reflexivity|]; split; [by rewrite Hid|]; split; [trace_eq|].
  all: repeat split; try done.
Qed.

(** X4: the text-element sink shows the latest text, and its name is
    resolved once.  With a text-element name configured, no reference cached
    and a live source of that name, the first publish looks the name up,
    caches the reference and sets the text of that source; the second publish
    goes through the cached reference without a lookup by name and replaces
    the text; after each publish the source of that name carries exactly the
    text just published, nothing is logged and no file is written. *)
Theorem publish_text_element (w : world) (str1 str2 name : string) (mt : nat) (src : obs_source) :
  text_source_name (gf w) = Some name →
  text_source_mutex (gf w) = Some mt →
  text_source (gf w) = None →
  source_named name w = Some src →
  ∃ w1 w2,
    run (set_text_callback str1) w = (Some tt, w1) ∧
    source_named name w1 = Some (with_text src str1) ∧
    text_source (gf w1) = Some (src_id src) ∧
    trace w1 = trace w ++ [EvLock mt; EvGetSourceByName name; EvUnlock mt;
                           EvLock mt; EvWeakGetSource (src_id src); EvUnlock mt] ∧
    run (set_text_callback str2) w1 = (Some tt, w2) ∧
    source_named name w2 = Some (with_text src str2) ∧
    trace w2 = trace w1 ++ [EvLock mt; EvWeakGetSource (src_id src); EvUnlock mt] ∧
    log w2 = log w ∧ files w2 = files w.
Proof.
  intros Hname Hmt Hts Hsrc.
  destruct (publish_resolve w str1 name mt src) as
    (w1 & Hrun1 & Hs1 & Htr1 & Hts1 & Hname1 & Hmt1 & Hlog1 & Hf1); [done..|].
  assert (Hnamed1 : source_named name w1 = Some (with_text src str1)).
  { unfold source_named in *. rewrite Hs1, source_named_retext, Hsrc. cbn.
    by rewrite Nat.eqb_refl. }
  assert (Hweak1 : ∃ tgt, source_of_weak (src_id src) w1 = Some tgt) .
  { unfold source_named in Hnamed1. destruct (find_elem_of _ _ _ Hnamed1) as [Hin _].
    destruct (find_by_id _ _ Hin) as (o & Ho & _). by exists o. }
  destruct Hweak1 as [tgt Htgt].
  destruct (publish_cached_update w1 str2 mt (src_id src) tgt) as
    (w2 & Hrun2 & Hs2 & Htr2 & Hg2 & Hlog2 & Hf2); [by rewrite ?Hname1|done..|].
  exists w1, w2. repeat split; try done; try congruence.
  unfold source_named in *. rewrite Hs2, source_named_retext, Hnamed1. cbn.
  by rewrite Nat.eqb_refl.
Qed.

(** X5: a publish with no sink configured.  With neither a text-element
    name nor a file path configured (the selection "none"), a publish writes
    no file and changes no source, and still logs two errors, "text_source_name
    is null" and "text_source is null", taking the sink lock once in between. *)
Theorem publish_no_sink (w : world) (str : string) (mt : nat) :
  text_source_name (gf w) = None →
  output_file_path (gf w) = EmptyString →
  text_source_mutex (gf w) = Some mt →
  text_source (gf w) = None →
  ∃ w',
    run (set_text_callback str) w = (Some tt, w') ∧
    log w' = log w ++ [(LOG_ERROR, "text_source_name is null");
                       (LOG_ERROR, "text_source is null")] ∧
    trace w' = trace w ++ [EvLock mt; EvUnlock mt] ∧
    gf w' = gf w ∧ files w' = files w ∧ sources w' = sources w.
Proof.
  intros Hname Hpath Hmt Hts.
  unfold_publish. unfold_M. unfold is_null. cbn.
  destruct (caption_to_stream (gf w)); cbn.
  1: destruct (streaming_output w); cbn.
  all: rewrite Hname, Hpath, String.eqb_refl; cbn.
  all: repeat (cbn; progress rewrite ?Hmt, ?Hts, ?Hname).
  all: eexists; split; [reflexivity|]; split; [cbn; by rewrite <- ?app_assoc|]; split; [trace_eq|].
  all: repeat split; try done.
  all: by destruct w as [[]].
Qed.

(** X6: a file sink that cannot be opened drops the text silently.  With
    the file sink selected and the file not writable, a publish returns
    normally, writes no file and logs nothing: the stream's state is never
    tested. *)
Theorem publish_file_unwritable (w : world) (str : string) :
  output_file_path (gf w) ≠ EmptyString →
  text_source_name (gf w) = None →
  output_file_path (gf w) ∈ read_only w →
  ∃ w',
    run (set_text_callback str) w = (Some tt, w') ∧
    files w' = files w ∧ log w' = log w ∧ trace w' = trace w ∧
    gf w' = gf w ∧ sources w' = sources w.
Proof.
  intros Hpath Hname Hro. apply String.eqb_neq in Hpath.
  unfold_publish. unfold_M. unfold is_null. cbn.
  destruct (caption_to_stream (gf w)); cbn.
  1: destruct (streaming_output w); cbn.
  all: rewrite Hpath, Hname; cbn.
  all: rewrite decide_True by done.
  all: eexists; split; [reflexivity|]; by repeat split.
Qed.

(** ** The update, field by field *)

Lemma gf_set_gf g w : gf (set_gf g w) = g.
Proof. by destruct w. Qed.

(** The text-source step with the sink lock in place. *)
Lemma update_text_source_run (s : obs_data) (w : world) (mt : nat) :
  text_source_mutex (gf w) = Some mt →
  ∃ w', update_text_source s w = (Next tt, w') ∧
    gf w' = select_sink s (gf w) ∧
    trace w' = trace w ++ select_events s (gf w) mt ∧
    next_id w' = next_id w ∧ host_kept w w'.
Proof.
  intros Hmt.
  unfold update_text_source, detach_text_source, free_text_source_name.
  unfold_M. unfold is_null.
  unfold select_sink, select_events, sink_changes, selected_file, selection.
  repeat (cbn; first [progress rewrite ?Hmt | inner_case]).
  all: try congruence.
  all: eexists; split; [reflexivity|].
  all: split; [|split; [trace_eq|split; [done|by constructor]]].
  all: cbn; destruct w as [[]]; cbn in *; simplify_eq; try reflexivity.
Qed.

(** ** Sessions: threads, handles and locks along the trace *)

Lemma quiet_threads evs : ∀ l,
  Forall (λ e, engine_event e = false) evs → foldl thread_step l evs = l.
Proof.
  induction evs as [|e evs IH]; intros l H; [done|].
  apply Forall_cons in H as [He H]. cbn. rewrite <- (IH l H) at 2.
  by destruct e.
Qed.

Lemma quiet_handles evs : ∀ l,
  Forall (λ e, engine_event e = false) evs → foldl handle_step l evs = l.
Proof.
  induction evs as [|e evs IH]; intros l H; [done|].
  apply Forall_cons in H as [He H]. cbn. rewrite <- (IH l H) at 2.
  by destruct e.
Qed.

Lemma tracked_refl w : tracked w w.
Proof. exists []. by rewrite app_nil_r. Qed.

Lemma tracked_trans w1 w2 w3 : tracked w1 w2 → tracked w2 w3 → tracked w1 w3.
Proof.
  intros (e1 & Ht1 & Hl1 & Hth1 & Hh1) (e2 & Ht2 & Hl2 & Hth2 & Hh2).
  exists (e1 ++ e2). rewrite !foldl_app, Hl1, Hth1, Hh1, Ht2, Ht1, <- app_assoc. done.
Qed.

Lemma tracked_quiet w w' evs :
  trace w' = trace w ++ evs →
  Forall (λ e, engine_event e = false) evs →
  foldl lock_step (Some None) evs = Some None →
  whisper_thread (gf w') = whisper_thread (gf w) →
  whisper_context (gf w') = whisper_context (gf w) →
  tracked w w'.
Proof.
  intros Htr Hq Hl Hth Hc. exists evs.
  rewrite quiet_threads, quiet_handles, Hth, Hc by done. done.
Qed.

Lemma tracked_inv w w' :
  session_inv w → filter_wf (gf w') → tracked w w' → session_inv w'.
Proof.
  intros [Hwf Hth Hh Hl] Hwf' (evs & Htr & Hl' & Hth' & Hh').
  unfold live_threads, live_handles, held_after in *.
  constructor; [done|..]; unfold live_threads, live_handles, held_after.
  all: rewrite Htr, foldl_app; congruence.
Qed.

Lemma select_events_quiet s g mt : Forall (λ e, engine_event e = false) (select_events s g mt).
Proof.
  unfold select_events.
  destruct (sink_changes s g), (text_source g), (text_source_name g); repeat constructor.
Qed.

Lemma select_events_locks s g mt : foldl lock_step (Some None) (select_events s g mt) = Some None.
Proof.
  unfold select_events.
  destruct (sink_changes s g), (text_source g), (text_source_name g); cbn;
    by rewrite ?Nat.eqb_refl.
Qed.

(** The sink selection touches the three sink fields only. *)
Lemma select_sink_frame s g :
  ∃ ts name path,
    select_sink s g = set_output_file_path path (set_text_source_name name (set_text_source ts g)).
Proof.
  unfold select_sink.
  destruct (text_source_name_invalid (selection s)); [by eexists _, _, _|].
  destruct (sink_changes s g).
  - exists None, (Some (selection s)), (output_file_path g). by destruct g.
  - exists (text_source g), (text_source_name g), (output_file_path g). by destruct g.
Qed.

(** The model step with the engine lock and the condition variable in
    place, whatever the engine's state. *)
Lemma update_whisper_model_run (s : obs_data) (w : world) (mc cv : nat) :
  whisper_ctx_mutex (gf w) = Some mc →
  wshiper_thread_cv (gf w) = Some cv →
  ∃ w', update_whisper_model s w = (Next tt, w') ∧
    gf w' = set_whisper_thread (whisper_thread (gf w'))
              (set_whisper_context (whisper_context (gf w'))
                 (set_whisper_model_path (obs_data_get_string s "whisper_model_path") (gf w))) ∧
    tracked w w' ∧ host_kept w w'.
Proof.
  intros Hmc Hcv. unfold tracked.
  unfold_model. unfold_M. unfold is_null.
  repeat (cbn; first [progress rewrite ?Hmc, ?Hcv | inner_case]).
  all: try congruence.
  all: eexists; split; [reflexivity|].
  all: split; [|split; [|by constructor]].
  all: try (eexists; split; [trace_eq|]; repeat split; cbn; rewrite ?Nat.eqb_refl; reflexivity).
  all: try match goal with
           | H : negb (String.eqb _ _) = false |- _ =>
               apply negb_false_iff, String.eqb_eq in H
           end.
  all: cbn; destruct w as [[]]; cbn in *; simplify_eq; try reflexivity.
  all: eexists; split; [trace_eq|]; repeat split; cbn; rewrite ?Nat.eqb_refl; reflexivity.
Qed.

(** The parameter step with the engine lock in place. *)
Lemma update_whisper_full_params_run (B : Z) (s : obs_data) (w : world) (mc : nat) :
  whisper_ctx_mutex (gf w) = Some mc →
  ∃ w', update_whisper_full_params B s w = (Next tt, w') ∧
    gf w' = set_whisper_params (update_whisper_params B s) (gf w) ∧
    trace w' = trace w ++ [EvLock mc; EvUnlock mc] ∧
    next_id w' = next_id w ∧ host_kept w w'.
Proof.
  intros Hmc. unfold update_whisper_full_params. unfold_M. unfold is_null.
  cbn. rewrite Hmc. cbn.
  eexists; split; [reflexivity|]. split; [done|]. split; [trace_eq|]. by repeat split.
Qed.

Lemma with_engine_of_settle (P : whisper_full_params) (g1 g2 : transcription_filter_data) :
  set_whisper_params P (with_engine_of g2 g1) =
  with_engine_of (set_whisper_params P (with_engine_of g2 g1)) (set_whisper_params P g1).
Proof. by destruct g1. Qed.

(** The events of the model step: it gives no resource back, and with an
    unchanged path it does nothing at all. *)
Lemma update_whisper_model_trace (s : obs_data) (w : world) :
  ∃ o w' evs, update_whisper_model s w = (o, w') ∧
    trace w' = trace w ++ evs ∧
    Forall (λ e, release_event e = false) evs ∧
    (obs_data_get_string s "whisper_model_path" = whisper_model_path (gf w) →
       evs = [] ∧ next_id w' = next_id w ∧ engine_kept w w').
Proof.
  unfold_model. unfold_M. unfold is_null. run_cases.
  all: eexists _, _, _; split; [reflexivity|].
  all: split; [trace_eq|]; split; [repeat constructor|].
  all: intros Heq; try (apply String.eqb_eq in Heq; rewrite Heq in *; discriminate).
  all: by repeat split.
Qed.

(** The whole update with the locks in place: it runs to its end, settles
    the settings, and keeps the books of threads, handles and locks. *)
Lemma update_run_full (B : Z) (s : obs_data) (w : world) (mt mc cv : nat) :
  text_source_mutex (gf w) = Some mt →
  whisper_ctx_mutex (gf w) = Some mc →
  wshiper_thread_cv (gf w) = Some cv →
  ∃ w' evs, run (transcription_filter_update B s) w = (Some tt, w') ∧
    gf w' = with_engine_of (gf w') (settle B s (gf w)) ∧
    trace w' = trace w ++ select_events s (apply_flags s (gf w)) mt ++ evs ++
               [EvLock mc; EvUnlock mc] ∧
    Forall (λ e, release_event e = false) evs ∧
    (obs_data_get_string s "whisper_model_path" = whisper_model_path (gf w) →
       evs = [] ∧ next_id w' = next_id w ∧
       whisper_thread (gf w') = whisper_thread (gf w) ∧
       whisper_context (gf w') = whisper_context (gf w)) ∧
    tracked w w' ∧ setup_kept w w' ∧ host_kept w w'.
Proof.
  intros Hmt Hmc Hcv.
  destruct (update_safe B s w) as (o0 & w0 & Hrun0 & _ & Hsetup & _).
  revert Hrun0. unfold run, transcription_filter_update. unfold_M. cbn.
  match goal with
  | |- context [update_text_source s ?wa] =>
      destruct (update_text_source_run s wa mt) as (w1 & Hrun1 & Hg1 & Htr1 & Hn1 & Hh1);
        [done|]; rewrite Hrun1; cbn
  end.
  cbn in Hg1, Htr1, Hn1. fold (apply_flags s (gf w)) in Hg1, Htr1.
  destruct (select_sink_frame s (apply_flags s (gf w))) as (ts & name & path & Hsel).
  destruct (update_whisper_model_run s w1 mc cv) as (w2 & Hrun2 & Hg2 & Htk2 & Hh2).
  { rewrite Hg1, Hsel. done. }
  { rewrite Hg1, Hsel. done. }
  destruct (update_whisper_model_trace s w1) as (o2 & w2' & evs & Hrun2' & Htr2 & Hrel2 & Hsame2).
  rewrite Hrun2 in Hrun2'. injection Hrun2' as <- <-.
  rewrite Hrun2; cbn.
  destruct (update_whisper_full_params_run B s w2 mc) as (w3 & Hrun3 & Hg3 & Htr3 & Hn3 & Hh3).
  { rewrite Hg2, Hg1, Hsel. done. }
  rewrite Hrun3. intros Hrun0. injection Hrun0 as _ <-.
  exists w3, evs. split; [done|].
  split; [|split; [|split; [done|split; [|split; [|split; [done|]]]]]].
  - rewrite Hg3. unfold settle. rewrite <- Hg1.
    rewrite Hg2 at 1. apply with_engine_of_settle.
  - rewrite Htr3, Htr2, Htr1, <- !app_assoc. done.
  - intros Heq. destruct Hsame2 as (-> & Hn2 & [Hc2 Ht2 _ _]).
    { rewrite Hg1, Hsel. done. }
    rewrite Hg3, Hn3, Hn2, Hn1. cbn. rewrite Ht2, Hc2, Hg1, Hsel. done.
  - apply (tracked_trans w w1); [|apply (tracked_trans w1 w2); [done|]].
    + exists (select_events s (apply_flags s (gf w)) mt).
      split; [done|]. split; [apply select_events_locks|].
      rewrite quiet_threads, quiet_handles by apply select_events_quiet.
      rewrite Hg1, Hsel. done.
    + apply (tracked_quiet w2 w3 [EvLock mc; EvUnlock mc]); [done|repeat constructor|..].
      * cbn. by rewrite Nat.eqb_refl.
      * by rewrite Hg3.
      * by rewrite Hg3.
  - destruct Hh1, Hh2, Hh3. cbn in *. constructor; congruence.
Qed.

Lemma update_run (B : Z) (s : obs_data) (w : world) :
  filter_wf (gf w) →
  ∃ w', run (transcription_filter_update B s) w = (Some tt, w') ∧
    gf w' = with_engine_of (gf w') (settle B s (gf w)) ∧
    tracked w w' ∧ setup_kept w w' ∧ host_kept w w'.
Proof.
  intros (_ & [mc Hmc] & [cv Hcv] & [mt Hmt] & _).
  destruct (update_run_full B s w mt mc cv) as (w' & evs & Hrun & Hg & _ & _ & _ & ?);
    [done..|].
  by exists w'.
Qed.

(** One packet, whatever the path it takes: the ingest returns, and takes
    the buffer lock only. *)
Lemma ingest_frame (w : world) (a : obs_audio_data) :
  filter_wf (gf w) →
  packet_fits (channels (gf w)) a →
  ∃ w' evs, ingest a w = (Some (Some a), w') ∧
    trace w' = trace w ++ evs ∧
    Forall (λ e, engine_event e = false) evs ∧
    foldl lock_step (Some None) evs = Some None ∧
    engine_kept w w' ∧ filter_wf (gf w') ∧ channels (gf w') = channels (gf w).
Proof.
  intros Hwf (Hu & Hd & Hp).
  pose proof Hwf as ([mb Hmb] & [mc Hmc] & Hcv & Hmt & Hch & Hlen).
  destruct (active (gf w)) eqn:Hact.
  2:{ exists w, []. rewrite ingest_inert by (by left). rewrite app_nil_r. by repeat split. }
  destruct (whisper_context (gf w)) as [h|] eqn:Hctx.
  2:{ exists w, []. rewrite ingest_inert by (by right). rewrite app_nil_r. by repeat split. }
  unfold filter_wf.
  unfold ingest, run, transcription_filter_filter_audio. unfold_M. cbn.
  rewrite Hact; cbn. rewrite Hctx; cbn. rewrite Hmb, Hmc; cbn.
  match goal with
  | |- context [for_range 0 ?n (push_samples a) ?w2] =>
      destruct (push_samples_loop_content a n 0 w2) as (bufs & Hrun & Hl & _);
        [done | cbn; lia | cbn; lia | done |]; rewrite Hrun
  end.
  cbn in Hl. cbn. eexists _, _. split; [reflexivity|]. cbn.
  split; [trace_eq|]. split; [repeat constructor|].
  split; [cbn; by rewrite Nat.eqb_refl|].
  split; [by constructor|]. split; [|done].
  rewrite Hmb, Hmc, Hl. by repeat split.
Qed.

Lemma activate_run (b : bool) (w : world) :
  ∃ w', run (if b then transcription_filter_activate else transcription_filter_deactivate) w
          = (Some tt, w') ∧
    gf w' = set_active b (gf w) ∧ trace w' = trace w ∧ next_id w' = next_id w ∧
    host_kept w w'.
Proof. destruct b; eexists; by repeat split. Qed.

Lemma set_active_wf b g : filter_wf g → filter_wf (set_active b g).
Proof. done. Qed.

(** Every callback keeps the state between callbacks. *)
Lemma call_back_inv (B : Z) (c : callback) (w : world) :
  session_inv w →
  callback_fits (channels (gf w)) c →
  ∃ w', call_back B c w = Some w' ∧ session_inv w' ∧ channels (gf w') = channels (gf w).
Proof.
  intros Hinv Hfit. pose proof (inv_wf w Hinv) as Hwf.
  destruct c as [s| | |a|str]; unfold call_back.
  - destruct (update_run B s w Hwf) as (w' & Hrun & _ & Htk & Hs & _).
    rewrite Hrun. exists w'. split; [done|]. split; [|by destruct Hs].
    apply (tracked_inv w); [done| |done]. by apply (filter_wf_kept w).
  - destruct (activate_run true w) as (w' & Hrun & Hg & Htr & _).
    rewrite Hrun. exists w'. split; [done|]. split; [|by rewrite Hg].
    apply (tracked_inv w); [done|by rewrite Hg|].
    apply (tracked_quiet w w' []); [by rewrite app_nil_r|done|done|by rewrite Hg..].
  - destruct (activate_run false w) as (w' & Hrun & Hg & Htr & _).
    rewrite Hrun. exists w'. split; [done|]. split; [|by rewrite Hg].
    apply (tracked_inv w); [done|by rewrite Hg|].
    apply (tracked_quiet w w' []); [by rewrite app_nil_r|done|done|by rewrite Hg..].
  - destruct (ingest_frame w a Hwf Hfit) as (w' & evs & Hrun & Htr & Hq & Hl & [] & Hwf' & Hch).
    rewrite Hrun. exists w'. split; [done|]. split; [|done].
    apply (tracked_inv w); [done..|]. by apply (tracked_quiet w w' evs).
  - destruct (set_text_callback_frame w str)
      as (w' & evs & Hrun & _ & Htr & Hq & Hl & [] & Hs & _).
    rewrite Hrun. exists w'. split; [done|]. split; [|by destruct Hs].
    apply (tracked_inv w); [done|by apply (filter_wf_kept w)|].
    by apply (tracked_quiet w w' evs).
Qed.

Lemma session_run (B : Z) (cs : list callback) : ∀ w,
  session_inv w →
  Forall (callback_fits (channels (gf w))) cs →
  ∃ w', session B cs w = Some w' ∧ session_inv w' ∧ channels (gf w') = channels (gf w).
Proof.
  induction cs as [|c cs IH]; intros w Hinv Hfit; [by exists w|].
  apply Forall_cons in Hfit as [Hc Hcs].
  destruct (call_back_inv B c w Hinv Hc) as (w1 & Hrun & Hinv1 & Hch1).
  destruct (IH w1 Hinv1) as (w2 & Hrun2 & Hinv2 & Hch2); [by rewrite Hch1|].
  exists w2. cbn [session]. rewrite Hrun. split; [done|]. split; [done|congruence].
Qed.

(** ** The update and the sink *)

Lemma strcmp_zero (a b : string) : (strcmp a b =? 0) = bool_decide (a = b).
Proof.
  unfold strcmp. destruct (String.compare a b) eqn:H.
  - apply String.compare_eq_iff in H. by rewrite bool_decide_eq_true_2.
  - rewrite bool_decide_eq_false_2; [done|]. intros ->.
    pose proof (String.compare_antisym b b) as Ha. rewrite H in Ha. discriminate.
  - rewrite bool_decide_eq_false_2; [done|]. intros ->.
    pose proof (String.compare_antisym b b) as Ha. rewrite H in Ha. discriminate.
Qed.

Lemma strlen_zero (a : string) : (strlen a =? 0) = bool_decide (a = EmptyString).
Proof. by destruct a. Qed.

Lemma text_source_name_invalid_spec (sel : string) :
  text_source_name_invalid sel = true ↔ sel ∈ ["none"; "(null)"; "text_file"; EmptyString].
Proof.
  unfold text_source_name_invalid. rewrite !strcmp_zero, strlen_zero.
  rewrite !orb_true_iff, !bool_decide_eq_true, !elem_of_cons, elem_of_nil. tauto.
Qed.

(** The sink fields of the selection do not depend on the flags. *)
Lemma select_sink_fields (s : obs_data) (g : transcription_filter_data) :
  let g' := select_sink s (apply_flags s g) in
  text_source_name g' =
    (if text_source_name_invalid (selection s) then None else Some (selection s)) ∧
  output_file_path g' =
    (if text_source_name_invalid (selection s) then selected_file s else output_file_path g) ∧
  text_source g' = (if sink_changes s g then None else text_source g).
Proof.
  unfold select_sink, sink_changes, apply_flags. cbn.
  destruct (text_source_name_invalid (selection s)) eqn:Hinv; cbn; [done|].
  destruct (text_source_name g) as [name|] eqn:Hname; cbn; [|done].
  rewrite strcmp_zero. case_bool_decide; cbn; [|done].
  by subst.
Qed.

Lemma update_run_sink (B : Z) (s : obs_data) (w : world) :
  filter_wf (gf w) →
  ∃ w', run (transcription_filter_update B s) w = (Some tt, w') ∧
    text_source_name (gf w') =
      (if text_source_name_invalid (selection s) then None else Some (selection s)) ∧
    output_file_path (gf w') =
      (if text_source_name_invalid (selection s) then selected_file s
       else output_file_path (gf w)) ∧
    text_source (gf w') = (if sink_changes s (gf w) then None else text_source (gf w)) ∧
    setup_kept w w' ∧ host_kept w w'.
Proof.
  intros Hwf.
  destruct (update_run B s w Hwf) as (w' & Hrun & Hg & _ & Hs & Hh).
  destruct (select_sink_fields s (gf w)) as (Hname & Hpath & Hts).
  exists w'. split; [done|]. rewrite Hg. cbn. by rewrite Hname, Hpath, Hts.
Qed.

(** X7: what an update makes of the selected subtitle output.  With the
    locks in place the update runs to its end, and: the selections "none",
    "(null)" and the empty string leave no sink at all; the selection
    "text_file" leaves the file sink on the configured file name (no sink
    when that name is empty); any other selection names a text element,
    keeps the cached reference only if the same name was selected before,
    and leaves the file path as it was. *)
Theorem update_selects_sink (B : Z) (s : obs_data) (w : world) :
  filter_wf (gf w) →
  ∃ w', run (transcription_filter_update B s) w = (Some tt, w') ∧
    (selection s ∈ ["none"; "(null)"; EmptyString] →
       text_source_name (gf w') = None ∧ text_source (gf w') = None ∧
       output_file_path (gf w') = EmptyString) ∧
    (selection s = "text_file" →
       text_source_name (gf w') = None ∧ text_source (gf w') = None ∧
       output_file_path (gf w') = obs_data_get_string s "subtitle_output_filename") ∧
    (selection s ∉ ["none"; "(null)"; "text_file"; EmptyString] →
       text_source_name (gf w') = Some (selection s) ∧
       text_source (gf w') =
         (if bool_decide (text_source_name (gf w) = Some (selection s))
          then text_source (gf w) else None) ∧
       output_file_path (gf w') = output_file_path (gf w)).
Proof.
  intros Hwf.
  destruct (update_run_sink B s w Hwf) as (w' & Hrun & Hname & Hpath & Hts & _).
  exists w'. split; [done|].
  unfold sink_changes, selected_file in *. rewrite strcmp_zero in Hpath.
  split; [|split].
  - intros Hsel.
    assert (Hinv : text_source_name_invalid (selection s) = true).
    { apply text_source_name_invalid_spec.
      rewrite !elem_of_cons in *. tauto. }
    rewrite Hinv in *. cbn in Hts.
    assert (selection s ≠ "text_file").
    { intros Heq. rewrite Heq in Hsel. rewrite !elem_of_cons, elem_of_nil in Hsel.
      destruct Hsel as [?|[?|[?|[]]]]; discriminate. }
    by rewrite bool_decide_eq_false_2 in Hpath.
  - intros Hsel.
    assert (Hinv : text_source_name_invalid (selection s) = true).
    { apply text_source_name_invalid_spec. rewrite Hsel, !elem_of_cons. tauto. }
    rewrite Hinv in *. cbn in Hts.
    rewrite bool_decide_eq_true_2 in Hpath by done. cbn in Hpath.
    split; [done|]. split; [done|]. rewrite Hpath. unfold strlen.
    by destruct (obs_data_get_string s "subtitle_output_filename").
  - intros Hsel.
    assert (Hinv : text_source_name_invalid (selection s) = false).
    { apply not_true_iff_false. by rewrite text_source_name_invalid_spec. }
    rewrite Hinv in *. cbn in Hts.
    split; [done|]. split; [|done]. rewrite Hts.
    destruct (text_source_name (gf w)) as [name|]; [|done].
    rewrite strcmp_zero.
    destruct (decide (selection s = name)) as [->|Hne].
    + by rewrite !bool_decide_eq_true_2.
    + rewrite !bool_decide_eq_false_2; [done|congruence|done].
Qed.

(** X8: no update crashes, whatever the state.  An update runs to its end
    on every state, also one whose locks are missing, and never touches the
    locks, the condition variable, the channel count, the ring buffers, the
    metadata queue, the active flag, the host's files, sources, captions and
    model files. *)
Theorem update_never_crashes (B : Z) (s : obs_data) (w : world) :
  ∃ w', run (transcription_filter_update B s) w = (Some tt, w') ∧
    setup_kept w w' ∧ host_kept w w'.
Proof.
  destruct (update_safe B s w) as (o & w' & Hrun & Ho & Hs & Hh).
  exists w'. unfold run. rewrite Hrun. by destruct Ho as [-> | ->].
Qed.

Lemma sink_changes_flags s g : sink_changes s (apply_flags s g) = sink_changes s g.
Proof. done. Qed.

(** X9: an update gives the cached weak reference back exactly when the
    selection changes.  With a reference cached for the text element
    [name]: an update that selects the same element keeps the reference and
    gives nothing back; an update that selects anything else detaches the
    reference under the sink lock, frees the name, releases the reference
    once, after the lock, and gives nothing else back. *)
Theorem update_releases_weak_reference (B : Z) (s : obs_data) (w : world)
    (mt wk : nat) (name : string) :
  filter_wf (gf w) →
  text_source_mutex (gf w) = Some mt →
  text_source (gf w) = Some wk →
  text_source_name (gf w) = Some name →
  ∃ w' evs,
    run (transcription_filter_update B s) w = (Some tt, w') ∧
    trace w' = trace w ++ evs ∧
    (selection s = name → selection s ∉ ["none"; "(null)"; "text_file"; EmptyString] →
       text_source (gf w') = Some wk ∧ Forall (λ e, release_event e = false) evs) ∧
    (selection s ≠ name ∨ selection s ∈ ["none"; "(null)"; "text_file"; EmptyString] →
       text_source (gf w') = None ∧
       ∃ rest,
         evs = [EvLock mt; EvUnlock mt; EvRelease text_source_name_string; EvWeakRelease wk]
               ++ rest ∧
         Forall (λ e, release_event e = false) rest).
Proof.
  intros Hwf Hmt Hts Hname.
  pose proof Hwf as (_ & [mc Hmc] & [cv Hcv] & _).
  destruct (update_run_full B s w mt mc cv) as (w' & evs & Hrun & Hg & Htr & Hrel & _);
    [done..|].
  destruct (select_sink_fields s (gf w)) as (_ & _ & Hsel).
  assert (Hts' : text_source (gf w') = if sink_changes s (gf w) then None else Some wk).
  { rewrite Hg. cbn. by rewrite Hsel, Hts. }
  unfold select_events in Htr. rewrite sink_changes_flags in Htr. cbn in Htr.
  rewrite Hts, Hname in Htr. cbn in Htr.
  assert (Hch : sink_changes s (gf w) =
                bool_decide (selection s ≠ name ∨
                             selection s ∈ ["none"; "(null)"; "text_file"; EmptyString])).
  { unfold sink_changes. rewrite Hname, strcmp_zero.
    destruct (text_source_name_invalid (selection s)) eqn:Hinv.
    - apply text_source_name_invalid_spec in Hinv. cbn. symmetry.
      apply bool_decide_eq_true_2. by right.
    - apply not_true_iff_false in Hinv. rewrite text_source_name_invalid_spec in Hinv. cbn.
      destruct (decide (selection s = name)) as [Heq|Hne].
      + rewrite (bool_decide_eq_true_2 _ Heq). cbn. symmetry.
        apply bool_decide_eq_false_2. tauto.
      + rewrite (bool_decide_eq_false_2 _ Hne). cbn. symmetry.
        apply bool_decide_eq_true_2. by left. }
  rewrite Hch in *.
  eexists w', _. split; [done|]. split; [done|]. split.
  - intros Heq Hvalid. rewrite bool_decide_eq_false_2 in * by tauto.
    split; [done|]. cbn. apply Forall_app. split; [done|]. by repeat constructor.
  - intros Hne. rewrite bool_decide_eq_true_2 in * by done.
    split; [done|]. eexists. split; [reflexivity|].
    apply Forall_app. split; [done|]. by repeat constructor.
Qed.

Lemma with_engine_of_ext (g1 g2 g : transcription_filter_data) :
  whisper_thread g2 = whisper_thread g1 →
  whisper_context g2 = whisper_context g1 →
  with_engine_of g2 g = with_engine_of g1 g.
Proof. unfold with_engine_of. by intros -> ->. Qed.

Lemma strcmp_refl (a : string) : (strcmp a a =? 0) = true.
Proof. rewrite strcmp_zero. by apply bool_decide_eq_true_2. Qed.

(** The sink selection as three assignments. *)
Lemma select_sink_normal (s : obs_data) (g : transcription_filter_data) :
  select_sink s g =
  set_output_file_path
    (if text_source_name_invalid (selection s) then selected_file s else output_file_path g)
    (set_text_source_name
       (if text_source_name_invalid (selection s) then None else Some (selection s))
       (set_text_source (if sink_changes s g then None else text_source g) g)).
Proof.
  unfold select_sink, sink_changes.
  destruct (text_source_name_invalid (selection s)); cbn [orb].
  - by destruct g.
  - destruct (text_source_name g) as [name|] eqn:Hname.
    + rewrite strcmp_zero. case_bool_decide as Heq; cbn.
      * destruct g; cbn in *; by subst.
      * by destruct g.
    + by destruct g.
Qed.

Lemma sink_changes_settled (B : Z) (s : obs_data) (g g1 : transcription_filter_data) :
  sink_changes s (apply_flags s (with_engine_of g1 (settle B s g))) =
  text_source_name_invalid (selection s).
Proof.
  unfold settle. rewrite select_sink_normal. unfold sink_changes at 1. cbn.
  destruct (text_source_name_invalid (selection s)); [done|]. cbn. by rewrite strcmp_refl.
Qed.

(** Settling the settings twice is settling them once. *)
Lemma settle_idem (B : Z) (s : obs_data) (g g1 g2 : transcription_filter_data) :
  with_engine_of g2 (settle B s (with_engine_of g1 (settle B s g))) =
  with_engine_of g2 (settle B s g).
Proof.
  unfold settle at 1. rewrite select_sink_normal, sink_changes_settled.
  unfold settle. rewrite select_sink_normal. rewrite sink_changes_flags. cbn.
  unfold sink_changes.
  destruct (text_source_name_invalid (selection s)); cbn.
  - unfold with_engine_of, apply_flags. destruct g. run_eval. reflexivity.
  - generalize (match text_source_name g with
                | Some name => negb (strcmp (selection s) name =? 0)
                | None => true
                end). intros b.
    unfold with_engine_of, apply_flags. destruct g. run_eval. reflexivity.
Qed.

Lemma select_events_settled (B : Z) (s : obs_data) (g g1 : transcription_filter_data) (mt : nat) :
  select_events s (apply_flags s (with_engine_of g1 (settle B s g))) mt = [].
Proof.
  unfold select_events. rewrite sink_changes_settled.
  destruct (text_source_name_invalid (selection s)) eqn:Hinv; [|done].
  unfold settle. rewrite select_sink_normal. rewrite sink_changes_flags. cbn.
  unfold sink_changes. by rewrite Hinv.
Qed.

(** X10: an update is idempotent.  With the locks in place, running the
    same update a second time changes no field of the filter and nothing of
    the host, allocates nothing, and performs no event but taking and giving
    back the engine lock for the parameters. *)
Theorem update_idempotent (B : Z) (s : obs_data) (w : world) (mc : nat) :
  filter_wf (gf w) →
  whisper_ctx_mutex (gf w) = Some mc →
  ∃ w1 w2,
    run (transcription_filter_update B s) w = (Some tt, w1) ∧
    run (transcription_filter_update B s) w1 = (Some tt, w2) ∧
    gf w2 = gf w1 ∧ host_kept w1 w2 ∧ next_id w2 = next_id w1 ∧
    trace w2 = trace w1 ++ [EvLock mc; EvUnlock mc].
Proof.
  intros Hwf Hmc.
  pose proof Hwf as (_ & _ & [cv Hcv] & [mt Hmt] & _).
  destruct (update_run_full B s w mt mc cv)
    as (w1 & evs1 & Hrun1 & Hg1 & _ & _ & _ & _ & [] & _); [done..|].
  destruct (update_run_full B s w1 mt mc cv)
    as (w2 & evs2 & Hrun2 & Hg2 & Htr2 & _ & Hsame & _ & _ & Hh2); [congruence..|].
  destruct Hsame as (-> & Hn2 & Hth2 & Hc2).
  { rewrite Hg1. done. }
  exists w1, w2. split; [done|]. split; [done|].
  split; [|split; [done|split; [done|]]].
  - rewrite Hg2, Hg1 at 1. rewrite settle_idem.
    rewrite (with_engine_of_ext (gf w1) (gf w2)) by done. by rewrite <- Hg1.
  - rewrite Htr2, Hg1. by rewrite select_events_settled.
Qed.

(** ** Loading a model: at once, or when the download completes *)

(** The model step towards another path, by the state of the model file. *)
Lemma update_whisper_model_load (s : obs_data) (w : world) (mc cv : nat) :
  let path := obs_data_get_string s "whisper_model_path" in
  path ≠ whisper_model_path (gf w) →
  whisper_ctx_mutex (gf w) = Some mc →
  wshiper_thread_cv (gf w) = Some cv →
  ∃ w' evs, update_whisper_model s w = (Next tt, w') ∧
    trace w' = trace w ++ evs ∧
    whisper_model_path (gf w') = path ∧
    match model_files w !! path with
    | None =>
      whisper_context (gf w') = None ∧ whisper_thread (gf w') = None ∧
      next_id w' = next_id w ∧ EvDownload path ∈ evs
    | Some loadable =>
      whisper_context (gf w') = (if loadable : bool then Some (next_id w) else None) ∧
      whisper_thread (gf w') = Some (if loadable : bool then S (next_id w) else next_id w)
    end.
Proof.
  intros path Hne Hmc Hcv. subst path.
  apply String.eqb_neq in Hne.
  unfold_model. unfold_M. unfold is_null. cbn.
  rewrite Hne; cbn.
  destruct (whisper_context (gf w)) as [h|] eqn:Hctx;
  destruct (whisper_thread (gf w)) as [t|] eqn:Hth;
  destruct (model_files w !! obs_data_get_string s "whisper_model_path") as [[]|] eqn:Hf.
  all: repeat (cbn; progress rewrite ?Hmc, ?Hcv, ?Hf, ?Hth).
  all: eexists _, _; split; [reflexivity|].
  all: split; [trace_eq|]; split; [done|].
  all: repeat split; try done.
  all: repeat first [ apply list_elem_of_here | apply list_elem_of_further ].
Qed.

(** The update towards another model path, with the locks in place. *)
Lemma update_load (B : Z) (s : obs_data) (w : world) :
  let path := obs_data_get_string s "whisper_model_path" in
  filter_wf (gf w) →
  path ≠ whisper_model_path (gf w) →
  ∃ w' evs, run (transcription_filter_update B s) w = (Some tt, w') ∧
    trace w' = trace w ++ evs ∧
    whisper_model_path (gf w') = path ∧
    setup_kept w w' ∧ host_kept w w' ∧
    match model_files w !! path with
    | None =>
      whisper_context (gf w') = None ∧ whisper_thread (gf w') = None ∧
      next_id w' = next_id w ∧ EvDownload path ∈ evs
    | Some loadable =>
      whisper_context (gf w') = (if loadable : bool then Some (next_id w) else None) ∧
      whisper_thread (gf w') = Some (if loadable : bool then S (next_id w) else next_id w)
    end.
Proof.
  intros path (_ & [mc Hmc] & [cv Hcv] & Hmt & _) Hne. subst path.
  unfold run, transcription_filter_update. unfold_M. cbn.
  text_step as (o & w1 & pre & Hrun & _ & Htr & _ & He1 & Hs1 & Hh1 & Hnext).
  rewrite Hrun. cbn in *.
  rewrite (Hnext (or_intror Hmt)); cbn. clear Hnext.
  assert (Hne1 : obs_data_get_string s "whisper_model_path" ≠ whisper_model_path (gf w1))
    by (destruct He1; cbn in *; congruence).
  assert (Hmc1 : whisper_ctx_mutex (gf w1) = Some mc) by (destruct Hs1; cbn in *; congruence).
  assert (Hcv1 : wshiper_thread_cv (gf w1) = Some cv) by (destruct Hs1; cbn in *; congruence).
  destruct (update_whisper_model_load s w1 mc cv Hne1 Hmc1 Hcv1)
    as (w2 & evs & Hrun2 & Htr2 & Hp2 & Hload).
  rewrite Hrun2; cbn.
  params_step as (o3 & w3 & evs3 & Hrun3 & _ & Htr3 & _ & He3 & Hs3 & Hh3 & Hnext).
  rewrite Hrun3.
  destruct (update_whisper_model_safe s w1) as (o2' & w2' & Hrun2' & _ & Hs2 & Hh2).
  rewrite Hrun2 in Hrun2'. injection Hrun2' as _ <-.
  destruct (Hnext mc) as [-> ->]; [destruct Hs2; congruence|].
  exists w3, (pre ++ evs ++ [EvLock mc; EvUnlock mc]). split; [done|].
  split; [by rewrite Htr3, Htr2, Htr, <- !app_assoc|].
  destruct He3 as [Hc3 Ht3 Hp3 Hn3]. split; [congruence|].
  split.
  { apply (setup_kept_trans w w1); [by destruct Hs1; constructor|].
    by apply (setup_kept_trans w1 w2). }
  split.
  { apply (host_kept_trans w w1); [by destruct Hh1; constructor|].
    by apply (host_kept_trans w1 w2). }
  destruct Hh1 as [_ _ _ _ _ Hmf1]. destruct He1 as [_ _ _ Hn1]. cbn in Hmf1, Hn1.
  rewrite Hmf1, Hn1 in Hload. rewrite Hc3, Ht3, Hn3.
  destruct (model_files w !! obs_data_get_string s "whisper_model_path"); [done|].
  destruct Hload as (? & ? & ? & Hin). repeat split; try done.
  apply elem_of_app. right. apply elem_of_app. by left.
Qed.

(** The completion callback of a successful download on a filter with no
    worker thread. *)
Lemma model_download_complete (w : world) :
  whisper_thread (gf w) = None →
  ∃ w', run (model_download_callback 0) w = (Some tt, w') ∧
    whisper_model_path (gf w') = whisper_model_path (gf w) ∧
    whisper_context (gf w') =
      (if model_files w !! whisper_model_path (gf w) is Some true
       then Some (next_id w) else None) ∧
    whisper_thread (gf w') =
      Some (if model_files w !! whisper_model_path (gf w) is Some true
            then S (next_id w) else next_id w).
Proof.
  intros Hth.
  unfold run, model_download_callback, init_whisper_context, store_context,
    start_whisper_thread.
  unfold_M. unfold is_null. cbn.
  destruct (model_files w !! whisper_model_path (gf w)) as [[]|] eqn:Hf; cbn.
  all: rewrite ?Hth; cbn.
  all: eexists; split; [reflexivity|]; done.
Qed.

(** The completion callback of a successful download on a filter whose
    worker thread runs: the thread object that is destroyed is joinable. *)
Lemma model_download_crash (w : world) (t : nat) :
  whisper_thread (gf w) = Some t →
  ∃ w', run (model_download_callback 0) w = (None, w').
Proof.
  intros Hth.
  unfold run, model_download_callback, init_whisper_context, store_context,
    start_whisper_thread.
  unfold_M. unfold is_null. cbn.
  destruct (model_files w !! whisper_model_path (gf w)) as [[]|] eqn:Hf; cbn.
  all: rewrite ?Hth; cbn.
  all: eexists; reflexivity.
Qed.

(** X11: a download that completes ends like a load at once.  When an
    update asks for a model file that is absent, it leaves the filter with
    no engine handle and no worker thread and asks for the download; once
    the file is there, the completion callback (status 0) creates the handle
    and starts the worker, with the same handle, the same worker and the same
    model path as the update would have left had the file been present from
    the start. *)
Theorem download_completes_swap (B : Z) (s : obs_data) (w : world) (loadable : bool) :
  let path := obs_data_get_string s "whisper_model_path" in
  filter_wf (gf w) →
  path ≠ whisper_model_path (gf w) →
  model_files w !! path = None →
  ∃ w1 w2 w3 evs,
    run (transcription_filter_update B s) w = (Some tt, w1) ∧
    trace w1 = trace w ++ evs ∧ EvDownload path ∈ evs ∧
    whisper_context (gf w1) = None ∧ whisper_thread (gf w1) = None ∧
    run (model_download_callback 0)
        (set_model_files (<[path := loadable]> (model_files w1)) w1) = (Some tt, w2) ∧
    run (transcription_filter_update B s)
        (set_model_files (<[path := loadable]> (model_files w)) w) = (Some tt, w3) ∧
    whisper_context (gf w2) = whisper_context (gf w3) ∧
    whisper_thread (gf w2) = whisper_thread (gf w3) ∧
    whisper_model_path (gf w2) = whisper_model_path (gf w3) ∧
    is_Some (whisper_thread (gf w2)) ∧
    (is_Some (whisper_context (gf w2)) ↔ loadable = true).
Proof.
  intros path Hwf Hne Hfile. subst path.
  destruct (update_load B s w Hwf Hne) as (w1 & evs & Hrun1 & Htr1 & Hp1 & _ & _ & Hload1).
  rewrite Hfile in Hload1. destruct Hload1 as (Hc1 & Ht1 & Hn1 & Hin).
  destruct (model_download_complete
              (set_model_files
                 (<[obs_data_get_string s "whisper_model_path" := loadable]> (model_files w1)) w1))
    as (w2 & Hrun2 & Hp2 & Hc2 & Ht2); [done|].
  cbn in Hp2, Hc2, Ht2. rewrite Hp1, lookup_insert_eq, Hn1 in Hc2, Ht2.
  destruct (update_load B s
              (set_model_files
                 (<[obs_data_get_string s "whisper_model_path" := loadable]> (model_files w)) w))
    as (w3 & evs3 & Hrun3 & _ & Hp3 & _ & _ & Hload3); [done..|].
  cbn in Hload3. rewrite lookup_insert_eq in Hload3. destruct Hload3 as [Hc3 Ht3].
  exists w1, w2, w3, evs.
  split_and!; try done.
  all: rewrite ?Hc2, ?Hc3, ?Ht2, ?Ht3; try congruence.
  all: try (by destruct loadable).
  all: by eexists.
Qed.

(** X12: a download that completes after another model was loaded brings
    the filter down.  An update asks for an absent model file and requests
    its download; before the download completes, a second update loads a
    model file that is present and starts a worker; when the completion
    callback then runs with status 0 it starts another worker over the
    running one, and the thread object it destroys is still joinable: the
    process is terminated. *)
Theorem download_callback_race (B : Z) (s1 s2 : obs_data) (w : world) :
  let p1 := obs_data_get_string s1 "whisper_model_path" in
  let p2 := obs_data_get_string s2 "whisper_model_path" in
  filter_wf (gf w) →
  p1 ≠ whisper_model_path (gf w) →
  model_files w !! p1 = None →
  p2 ≠ p1 →
  is_Some (model_files w !! p2) →
  ∃ w1 w2 w3 evs,
    run (transcription_filter_update B s1) w = (Some tt, w1) ∧
    trace w1 = trace w ++ evs ∧ EvDownload p1 ∈ evs ∧
    run (transcription_filter_update B s2) w1 = (Some tt, w2) ∧
    is_Some (whisper_thread (gf w2)) ∧
    run (model_download_callback 0) w2 = (None, w3).
Proof.
  intros p1 p2 Hwf Hne1 Hfile1 Hne2 [b Hfile2]. subst p1 p2.
  destruct (update_load B s1 w Hwf Hne1) as (w1 & evs & Hrun1 & Htr1 & Hp1 & Hs1 & Hh1 & Hload1).
  rewrite Hfile1 in Hload1. destruct Hload1 as (_ & _ & _ & Hin).
  destruct (update_load B s2 w1) as (w2 & evs2 & Hrun2 & _ & _ & _ & _ & Hload2).
  { by apply (filter_wf_kept w). }
  { congruence. }
  destruct Hh1 as [_ _ _ _ _ Hmf]. rewrite Hmf, Hfile2 in Hload2.
  destruct Hload2 as [_ Ht2].
  destruct (model_download_crash w2 _ Ht2) as [w3 Hrun3].
  exists w1, w2, w3, evs. split_and!; try done; rewrite Ht2; by eexists.
Qed.

(** ** The creation, with its trace *)

(** A creation whose model loads, with a C++ library that takes both
    assignments to the string members: the instance starts with the books
    of threads, handles and locks in order, and with the sink its settings
    select. *)
Lemma create_run (B O : Z) (F : Z → Z → Z) (L : string → bool) (settings : obs_data)
    (filter : nat) (w : world) :
  L (obs_data_get_string settings "whisper_model_path") = true →
  L EmptyString = true →
  model_files w !! obs_data_get_string settings "whisper_model_path" = Some true →
  (audio_channels w ≤ MAX_AUDIO_CHANNELS)%nat →
  ∃ w' evs,
    run (transcription_filter_create B O F L settings filter) w
      = (Some (Some the_filter), w') ∧
    filter_wf (gf w') ∧
    channels (gf w') = audio_channels w ∧
    trace w' = trace w ++ evs ∧
    foldl lock_step (Some None) evs = Some None ∧
    foldl thread_step [] evs = option_list (whisper_thread (gf w')) ∧
    foldl handle_step [] evs = option_list (whisper_context (gf w')) ∧
    active (gf w') = true ∧
    whisper_context (gf w') = Some (next_id w) ∧
    is_Some (whisper_thread (gf w')) ∧
    text_source (gf w') = None ∧
    text_source_name (gf w') =
      (if text_source_name_invalid (selection settings) then None
       else Some (selection settings)) ∧
    output_file_path (gf w') =
      (if text_source_name_invalid (selection settings) then selected_file settings
       else EmptyString) ∧
    host_kept w w' ∧
    input_buffers (gf w') = replicate MAX_AUDIO_CHANNELS circlebuf_init ∧
    info_buffer (gf w') = [].
Proof.
  intros HL HL0 Hfile Hch.
  destruct w as [g fs ro srcs out caps mf ac rate nid lg tr]. cbn in Hfile, Hch.
  unfold_create_at HL. rewrite HL0. run_eval.
  rewrite Hfile; run_eval.
  match goal with
  | |- context [transcription_filter_update B settings ?w0] =>
      destruct (update_same_path B settings w0)
        as (o & w1 & Hrun & Ho & [Hc1 Ht1 _ _] & [Hb1 Hm1 Hv1 Hx1 Hn1 Hi1 Hq1 _] & Hh1);
        [reflexivity|];
      destruct (update_run B settings w0) as (w1' & Hrun' & _ & Htk & _);
        [unfold filter_wf; cbn; repeat split; eauto|];
      destruct (update_run_sink B settings w0) as (w1'' & Hrun'' & Hname & Hpath & Hts & _);
        [unfold filter_wf; cbn; repeat split; eauto|]
  end.
  unfold run in Hrun', Hrun''. rewrite Hrun in Hrun', Hrun''. rewrite Hrun.
  assert (w1' = w1) as -> by (destruct Ho as [-> | ->]; congruence). clear Hrun'.
  assert (w1'' = w1) as -> by (destruct Ho as [-> | ->]; congruence). clear Hrun''.
  destruct Htk as (evs & Htr & Hl & Hth & Hh).
  destruct Hh1 as [Hf1 Hr1 Hs1 Ho1 Hcap1 Hmf1].
  assert (Hts' : text_source (gf w1) = None) by (rewrite Hts; by destruct (sink_changes _ _)).
  clear Hts.
  revert Hc1 Ht1 Hb1 Hm1 Hv1 Hx1 Hn1 Hi1 Hq1 Htr Hth Hh Hname Hpath Hts' Hf1 Hr1 Hs1 Ho1 Hcap1
    Hmf1.
  run_eval.
  intros Hc1 Ht1 Hb1 Hm1 Hv1 Hx1 Hn1 Hi1 Hq1 Htr Hth Hh Hname Hpath Hts' Hf1 Hr1 Hs1 Ho1 Hcap1
    Hmf1.
  rewrite Ht1, Hc1 in *. cbn in Hth, Hh.
  destruct Ho as [-> | ->]; run_eval; rewrite Ht1; run_eval.
  all: eexists _, _; split; [reflexivity|]; unfold filter_wf; run_eval.
  all: rewrite Hc1, Hb1, Hm1, Hv1, Hx1, Hn1, Hi1, Hq1, Htr.
  all: split; [repeat split; eauto|]; split; [done|].
  all: split; [rewrite <- !app_assoc; reflexivity|].
  all: split; [repeat (cbn; progress rewrite ?foldl_app); cbn; rewrite ?Hl; done|].
  all: split; [repeat (cbn; progress rewrite ?foldl_app); cbn; rewrite ?Hth; done|].
  all: split; [repeat (cbn; progress rewrite ?foldl_app); cbn; rewrite ?Hh; done|].
  all: split; [done|]; split; [done|]; split; [by eexists|].
  all: split; [done|]; split; [done|]; split; [done|].
  all: split; [by constructor|]. all: split; reflexivity.
Qed.

(** ** The destruction, event by event *)

Lemma destroy_run (w : world) (mb mc cv : nat) :
  whisper_buf_mutex (gf w) = Some mb →
  whisper_ctx_mutex (gf w) = Some mc →
  wshiper_thread_cv (gf w) = Some cv →
  (channels (gf w) ≤ length (input_buffers (gf w)))%nat →
  ∃ w',
    run transcription_filter_destroy w = (Some tt, w') ∧
    trace w' =
      trace w ++ shutdown_events mc cv (whisper_context (gf w)) ++
      join_of (whisper_thread (gf w)) ++ destroy_releases (gf w) mb mc cv ∧
    whisper_context (gf w') = None ∧
    whisper_thread (gf w') = None.
Proof.
  intros Hmb Hmc Hcv Hch. unfold destroy_releases.
  destruct (whisper_context (gf w)) as [h|] eqn:Hctx;
  destruct (whisper_thread (gf w)) as [t|] eqn:Hth;
  destruct (text_source_name (gf w)) as [name|] eqn:Hname;
  destruct (text_source (gf w)) as [wk|] eqn:Hts.
  all: unfold run, transcription_filter_destroy, join_whisper_thread, store_context, whisper_free.
  all: unfold when, deref; unfold mbind, M_bind, mret, M_ret, gets, modify, emit, obs_log, abort,
         lock_guard; unfold is_null.
  all: repeat (cbn; progress rewrite ?release_run, ?Hmb, ?Hmc, ?Hcv, ?Hctx, ?Hth, ?Hname, ?Hts).
  all: free_loop_step.
  all: repeat (cbn; progress rewrite ?release_run, ?Hmb, ?Hmc, ?Hcv).
  all: eexists; split; [reflexivity|].
  all: split; [unfold shutdown_events; cbn; rewrite <- ?app_assoc; cbn; reflexivity|].
  all: done.
Qed.

Lemma no_lock_held evs : ∀ h,
  Forall (λ e, lock_event e = false) evs → foldl lock_step (Some h) evs = Some h.
Proof.
  induction evs as [|e evs IH]; intros h H; [done|].
  apply Forall_cons in H as [He H].
  change (foldl lock_step (lock_step (Some h) e) evs = Some h).
  replace (lock_step (Some h) e) with (Some h) by (by destruct e, h).
  by apply IH.
Qed.

Lemma release_of_no_lock {A} (p : option A) (r : A → resource) :
  Forall (λ e, lock_event e = false) (release_of p r).
Proof. destruct p; repeat constructor. Qed.

Lemma destroy_releases_quiet g mb mc cv :
  Forall (λ e, engine_event e = false) (destroy_releases g mb mc cv).
Proof. unfold destroy_releases. destruct (text_source g); forall_events. Qed.

Lemma destroy_releases_locks g mb mc cv :
  foldl lock_step (Some None) (destroy_releases g mb mc cv) = Some None.
Proof.
  unfold destroy_releases. rewrite !foldl_app.
  rewrite (no_lock_held (release_of (text_source_name g) _)) by apply release_of_no_lock.
  rewrite (no_lock_held (match text_source g with Some _ => _ | None => _ end))
    by (destruct (text_source g); repeat constructor).
  rewrite (no_lock_held (release_of (resampler g) _)) by apply release_of_no_lock.
  cbn [foldl lock_step].
  rewrite (no_lock_held (release_of (copy_buffers g) _)) by apply release_of_no_lock.
  rewrite (no_lock_held (_ <$> _)) by (rewrite Forall_fmap; by apply Forall_true).
  cbn [foldl lock_step]. rewrite Nat.eqb_refl. cbn [foldl lock_step].
  rewrite (no_lock_held (release_of (text_source_mutex g) _)) by apply release_of_no_lock.
  done.
Qed.

(** The destruction of an instance in the state between callbacks leaves
    no thread, no handle and no lock behind. *)
Lemma destroy_clears (w : world) :
  session_inv w →
  ∃ w', run transcription_filter_destroy w = (Some tt, w') ∧
    live_threads (trace w') = [] ∧ live_handles (trace w') = [] ∧
    held_after (trace w') = Some None.
Proof.
  intros [Hwf Hth Hh Hl].
  pose proof Hwf as ([mb Hmb] & [mc Hmc] & [cv Hcv] & _ & Hch & Hlen).
  destruct (destroy_run w mb mc cv) as (w' & Hrun & Htr & _); [done..|lia|].
  exists w'. split; [done|].
  unfold live_threads, live_handles, held_after in *.
  rewrite Htr, !foldl_app, Hth, Hh, Hl.
  rewrite (quiet_threads (destroy_releases _ _ _ _)), (quiet_handles (destroy_releases _ _ _ _))
    by apply destroy_releases_quiet.
  destruct (whisper_context (gf w)) as [h|], (whisper_thread (gf w)) as [t|].
  all: cbn; rewrite ?Nat.eqb_refl; cbn.
  all: rewrite destroy_releases_locks; done.
Qed.

(** X13: no sequence of callbacks crashes the filter or loses track of a
    thread, a handle or a lock.  From a state in which the locks exist, no
    lock is held, and the worker threads and engine handles alive are those
    the filter records, every sequence of updates, activations,
    deactivations, audio packets that fit the channel count and published
    texts runs to its end, and the same holds again afterwards: along the
    whole trace no lock was taken while another was held, every lock taken
    was given back, and at most one worker thread and one engine handle
    are alive, the ones the filter records. *)
Theorem session_keeps_books (B : Z) (cs : list callback) (w : world) :
  session_inv w →
  Forall (callback_fits (channels (gf w))) cs →
  ∃ w', session B cs w = Some w' ∧ session_inv w' ∧
    live_threads (trace w') = option_list (whisper_thread (gf w')) ∧
    live_handles (trace w') = option_list (whisper_context (gf w')) ∧
    held_after (trace w') = Some None.
Proof.
  intros Hinv Hfit.
  destruct (session_run B cs w Hinv Hfit) as (w' & Hrun & Hinv' & _).
  exists w'. split; [done|]. split; [done|]. by destruct Hinv'.
Qed.

(** X14: the life of an instance leaves nothing behind.  With a C++ library
    that takes the two assignments of the creation to the never-constructed
    string members (the model path and the empty string), a creation whose
    model loads, then any sequence of updates, activations, deactivations,
    audio packets and published texts (the completion callback of a download
    is not among them), then the destruction: each runs to its end, and at the end every worker thread that was started has
    been joined, every engine handle that was created has been freed, and
    no lock is held. *)
Theorem lifecycle_balanced (B O : Z) (F : Z → Z → Z) (L : string → bool) (settings : obs_data)
    (filter : nat) (cs : list callback) (w : world) :
  L (obs_data_get_string settings "whisper_model_path") = true →
  L EmptyString = true →
  model_files w !! obs_data_get_string settings "whisper_model_path" = Some true →
  (audio_channels w ≤ MAX_AUDIO_CHANNELS)%nat →
  live_threads (trace w) = [] →
  live_handles (trace w) = [] →
  held_after (trace w) = Some None →
  Forall (callback_fits (audio_channels w)) cs →
  ∃ w1 w2 w3,
    run (transcription_filter_create B O F L settings filter) w
      = (Some (Some the_filter), w1) ∧
    session B cs w1 = Some w2 ∧
    run transcription_filter_destroy w2 = (Some tt, w3) ∧
    live_threads (trace w3) = [] ∧ live_handles (trace w3) = [] ∧
    held_after (trace w3) = Some None.
Proof.
  intros HL HL0 Hfile Hch Hth Hh Hl Hfit.
  destruct (create_run B O F L settings filter w HL HL0 Hfile Hch)
    as (w1 & evs & Hrun1 & Hwf1 & Hch1 & Htr1 & Hl1 & Hth1 & Hh1 & _).
  assert (Hinv1 : session_inv w1).
  { unfold live_threads, live_handles, held_after in *.
    constructor; [done|..]; unfold live_threads, live_handles, held_after.
    all: rewrite Htr1, foldl_app; congruence. }
  destruct (session_run B cs w1 Hinv1) as (w2 & Hrun2 & Hinv2 & _); [by rewrite Hch1|].
  destruct (destroy_clears w2 Hinv2) as (w3 & Hrun3 & ?).
  by exists w1, w2, w3.
Qed.

(** ** Selecting a sink, then publishing *)

(** X15: selecting the file sink makes the next publish write the file.
    After an update that selects "text_file" with a non-empty, writable file
    name, a publish leaves that file holding exactly the published text and
    touches neither another file nor a source. *)
Theorem select_file_then_publish (B : Z) (s : obs_data) (w : world) (str : string) :
  let file := obs_data_get_string s "subtitle_output_filename" in
  filter_wf (gf w) →
  selection s = "text_file" →
  file ≠ EmptyString →
  file ∉ read_only w →
  ∃ w1 w2,
    run (transcription_filter_update B s) w = (Some tt, w1) ∧
    run (set_text_callback str) w1 = (Some tt, w2) ∧
    files w2 = <[file := str]> (files w) ∧
    sources w2 = sources w.
Proof.
  intros file Hwf Hsel Hfile Hrw. subst file.
  destruct (update_run_sink B s w Hwf) as (w1 & Hrun1 & Hname & Hpath & _ & _ & Hh).
  assert (Hinv : text_source_name_invalid (selection s) = true).
  { apply text_source_name_invalid_spec. rewrite Hsel, !elem_of_cons. tauto. }
  rewrite Hinv in Hname, Hpath.
  assert (Hp : output_file_path (gf w1) = obs_data_get_string s "subtitle_output_filename").
  { rewrite Hpath. unfold selected_file. rewrite Hsel, strcmp_refl. unfold strlen.
    by destruct (obs_data_get_string s "subtitle_output_filename"). }
  destruct Hh as [Hf Hr Hs _ _ _].
  destruct (publish_file w1 str) as (w2 & Hrun2 & Hf2 & _ & _ & Hs2 & _);
    [by rewrite Hp | done | by rewrite Hp, Hr |].
  exists w1, w2. split; [done|]. split; [done|]. split; [|congruence].
  by rewrite Hf2, Hp, Hf.
Qed.

(** X16: selecting a text element makes the next publish set its text.
    After an update that selects a text element other than the current one,
    a publish resolves the name among the host's sources and leaves the
    source of that name carrying exactly the published text; no file is
    written. *)
Theorem select_element_then_publish (B : Z) (s : obs_data) (w : world) (str : string)
    (src : obs_source) :
  filter_wf (gf w) →
  selection s ∉ ["none"; "(null)"; "text_file"; EmptyString] →
  text_source_name (gf w) ≠ Some (selection s) →
  source_named (selection s) w = Some src →
  ∃ w1 w2,
    run (transcription_filter_update B s) w = (Some tt, w1) ∧
    run (set_text_callback str) w1 = (Some tt, w2) ∧
    source_named (selection s) w2 = Some (with_text src str) ∧
    text_source (gf w2) = Some (src_id src) ∧
    files w2 = files w.
Proof.
  intros Hwf Hsel Hnew Hsrc.
  destruct (update_run_sink B s w Hwf) as (w1 & Hrun1 & Hname & _ & Hts & Hs & Hh).
  assert (Hinv : text_source_name_invalid (selection s) = false).
  { apply not_true_iff_false. by rewrite text_source_name_invalid_spec. }
  rewrite Hinv in Hname.
  assert (Hch : sink_changes s (gf w) = true).
  { unfold sink_changes. rewrite Hinv. cbn.
    destruct (text_source_name (gf w)) as [name|]; [|done].
    rewrite strcmp_zero, bool_decide_eq_false_2; [done|congruence]. }
  rewrite Hch in Hts.
  destruct Hwf as (_ & _ & _ & [mt Hmt] & _).
  destruct Hs as [_ _ _ Hmt1 _ _ _ _]. destruct Hh as [Hf _ Hsrcs _ _ _].
  destruct (publish_resolve w1 str (selection s) mt src)
    as (w2 & Hrun2 & Hs2 & _ & Hts2 & _ & _ & _ & Hf2);
    [done | congruence | done | unfold source_named in *; congruence |].
  exists w1, w2. split; [done|]. split; [done|]. split; [|split; [done|congruence]].
  unfold source_named in *. rewrite Hs2, source_named_retext, Hsrcs, Hsrc. cbn.
  by rewrite Nat.eqb_refl.
Qed.

(** ** The creation: an instance, nothing, or a crash *)

(** X17: the three ends of a creation.  The struct of the creation is zero
    bytes that no constructor ran on, and what the assignments to its two
    string members do is left to the C++ library.  With a library that does
    not take the model path on zero bytes, the creation crashes at once,
    with nothing logged and no event performed.  Otherwise, when the engine
    cannot load the model file, the creation logs an error as its last act
    and returns null, having allocated no lock and started no thread.  When
    the model loads
    and the library does not take the empty string on zero bytes, the
    creation crashes at the assignment of the output file path: the engine
    handle and the four synchronisation objects exist by then, no thread was
    started, and nothing is freed.  When the library takes both, the
    creation returns the instance with the locks in place, the filter
    active, an engine handle, a worker thread, no reference cached, and the
    sink the settings select.  In every case the host's files, sources and
    captions are untouched. *)
Theorem create_outcomes (B O : Z) (F : Z → Z → Z) (L : string → bool) (settings : obs_data)
    (filter : nat) (w : world) :
  (audio_channels w ≤ MAX_AUDIO_CHANNELS)%nat →
  ∃ r w',
    run (transcription_filter_create B O F L settings filter) w = (r, w') ∧
    host_kept w w' ∧
    (r = Some (Some the_filter) ↔
       L (obs_data_get_string settings "whisper_model_path") = true ∧
       L EmptyString = true ∧
       model_files w !! obs_data_get_string settings "whisper_model_path" = Some true) ∧
    (r = Some None ↔
       L (obs_data_get_string settings "whisper_model_path") = true ∧
       model_files w !! obs_data_get_string settings "whisper_model_path" ≠ Some true) ∧
    (r = Some (Some the_filter) →
       filter_wf (gf w') ∧ active (gf w') = true ∧
       channels (gf w') = audio_channels w ∧
       whisper_context (gf w') = Some (next_id w) ∧
       is_Some (whisper_thread (gf w')) ∧
       text_source (gf w') = None ∧
       text_source_name (gf w') =
         (if text_source_name_invalid (selection settings) then None
          else Some (selection settings)) ∧
       output_file_path (gf w') =
         (if text_source_name_invalid (selection settings) then selected_file settings
          else EmptyString)) ∧
    (r = Some None →
       next_id w' = next_id w ∧
       last (log w') = Some (LOG_ERROR, "Failed to load whisper model") ∧
       Forall (λ e, ∀ t, e ≠ EvSpawn t) (drop (length (trace w)) (trace w'))) ∧
    (r = None →
       if L (obs_data_get_string settings "whisper_model_path") then
         trace w' =
           trace w ++
           [EvInitContext (obs_data_get_string settings "whisper_model_path")
              (Some (next_id w));
            EvStoreContext (Some (next_id w))] ∧
         whisper_context (gf w') = Some (next_id w) ∧
         whisper_thread (gf w') = None ∧
         whisper_buf_mutex (gf w') = Some (next_id w + 1)%nat ∧
         whisper_ctx_mutex (gf w') = Some (next_id w + 2)%nat ∧
         wshiper_thread_cv (gf w') = Some (next_id w + 3)%nat ∧
         text_source_mutex (gf w') = Some (next_id w + 4)%nat
       else trace w' = trace w ∧ log w' = log w ∧ next_id w' = next_id w).
Proof.
  intros Hch.
  destruct (L (obs_data_get_string settings "whisper_model_path")) eqn:HL.
  2: { destruct (create_crash_model_path B O F L settings filter w HL)
         as (w' & Hrun & Htr & Hlog & Hn & Hh).
       exists None, w'. split; [done|]. split; [done|].
       split; [split; [done|by intros (? & _)]|]. split; [split; [done|by intros (? & _)]|].
       split; [done|]. split; [done|]. done. }
  destruct (decide (model_files w !! obs_data_get_string settings "whisper_model_path"
                    = Some true)) as [Hfile|Hfile].
  - destruct (L EmptyString) eqn:HL0.
    + destruct (create_run B O F L settings filter w HL HL0 Hfile Hch)
        as (w' & evs & Hrun & Hwf & Hn & _ & _ & _ & _ & Hact & Hc & Ht & Hts & Hname & Hpath
            & Hh & _).
      exists (Some (Some the_filter)), w'. split; [done|]. split; [done|].
      split; [done|]. split; [split; [done|by intros (_ & ?)]|].
      split; [done|]. split; [done|]. done.
    + destruct (create_crash_output_path B O F L settings filter w HL HL0 Hfile)
        as (w' & Hrun & Htr & Hn & Hc & Ht & Hb & Hm & Hv & Hx & Hh).
      exists None, w'. split; [done|]. split; [done|].
      split; [split; [done|by intros (_ & ? & _)]|].
      split; [split; [done|by intros (_ & ?)]|].
      split; [done|]. split; [done|]. done.
  - destruct (create_failure B O F L settings filter w HL Hfile)
      as (w' & Hrun & Hlog & Htr & Hn & Hh & _).
    exists (Some None), w'. split; [done|]. split; [done|].
    split; [split; [done|by intros (_ & _ & ?)]|]. split; [done|].
    split; [done|]. split; [|done].
    intros _. split; [done|]. split; [by rewrite Hlog, last_snoc|].
    rewrite Htr, drop_app_length. repeat constructor; done.
Qed.

(** ** Activation *)

(** X18: a deactivated filter passes audio through and keeps its buffers.
    After a deactivation every packet is returned as it came and changes
    nothing, whatever the state; a later activation leaves the filter as it
    was before the deactivation, active, with the ring buffers and the
    metadata queue it had: the packets of the meantime are in no buffer.
    The two callbacks perform no event and touch nothing of the host. *)
Theorem deactivate_suspends (w : world) (ps : list obs_audio_data) :
  ∃ w1 w2,
    run transcription_filter_deactivate w = (Some tt, w1) ∧
    ingest_all ps w1 = (Some (Some <$> ps), w1) ∧
    run transcription_filter_activate w1 = (Some tt, w2) ∧
    gf w2 = set_active true (gf w) ∧
    input_buffers (gf w2) = input_buffers (gf w) ∧
    info_buffer (gf w2) = info_buffer (gf w) ∧
    trace w2 = trace w ∧ host_kept w w2.
Proof.
  destruct (activate_run false w) as (w1 & Hrun1 & Hg1 & Htr1 & _ & Hh1).
  destruct (activate_run true w1) as (w2 & Hrun2 & Hg2 & Htr2 & _ & Hh2).
  exists w1, w2. split; [done|].
  split; [apply ingest_all_inert; left; by rewrite Hg1|].
  split; [done|].
  assert (Hg : gf w2 = set_active true (gf w)) by (rewrite Hg2, Hg1; by destruct (gf w)).
  split; [done|]. rewrite Hg. split; [done|]. split; [done|].
  split; [congruence|]. by apply (host_kept_trans w w1).
Qed.

(** ** The speaker layout *)

(** X19: the channel counts that have a speaker layout.  The conversion
    knows a layout for 1, 2, 3, 4, 5, 6 and 8 channels and for no other
    count (so not for 0 and not for 7), and gives different layouts to
    different counts that it knows. *)
Theorem convert_speaker_layout_known (c c' : Z) :
  (convert_speaker_layout c ≠ SPEAKERS_UNKNOWN ↔ c ∈ [1; 2; 3; 4; 5; 6; 8]) ∧
  (convert_speaker_layout c ≠ SPEAKERS_UNKNOWN →
   convert_speaker_layout c = convert_speaker_layout c' → c = c').
Proof.
  assert (Hknown : ∀ x, convert_speaker_layout x ≠ SPEAKERS_UNKNOWN →
                        x ∈ [1; 2; 3; 4; 5; 6; 8]).
  { intros x Hx. destruct x as [|p|p]; [done| |done].
    do 4 (try destruct p as [p|p|]); try done.
    all: rewrite !elem_of_cons; tauto. }
  split; [split; [apply Hknown|]|].
  - rewrite !elem_of_cons, elem_of_nil.
    intros [->|[->|[->|[->|[->|[->|[->|[]]]]]]]]; done.
  - intros Hc Heq. pose proof (Hknown c Hc) as Hin.
    assert (Hc' : convert_speaker_layout c' ≠ SPEAKERS_UNKNOWN) by congruence.
    pose proof (Hknown c' Hc') as Hin'.
    rewrite !elem_of_cons, elem_of_nil in Hin, Hin'.
    destruct Hin as [->|[->|[->|[->|[->|[->|[->|[]]]]]]]];
    destruct Hin' as [->|[->|[->|[->|[->|[->|[->|[]]]]]]]]; done.
Qed.

(** ** The destruction gives everything back once *)

Lemma release_of_NoDup {A} (p : option A) (r : A → resource) : NoDup (release_of p r).
Proof. destruct p; cbn; [apply NoDup_singleton|apply NoDup_nil_2]. Qed.

Lemma elem_of_release_of {A} (p : option A) (r : A → resource) (e : event) :
  e ∈ release_of p r → ∃ a, p = Some a ∧ e = EvRelease (r a).
Proof.
  destruct p as [a|]; cbn; [|by intros ?%elem_of_nil].
  intros ->%list_elem_of_singleton. by exists a.
Qed.

(** The events of an explicit list are not those of another. *)
Ltac not_in_events :=
  repeat first [rewrite not_elem_of_app | rewrite not_elem_of_cons];
  repeat split;
  first
    [ apply not_elem_of_nil
    | congruence
    | intros (? & ? & ?)%elem_of_release_of; congruence
    | intros (? & ? & ?)%list_elem_of_fmap; congruence ].

Ltac in_events H :=
  repeat first
    [ apply elem_of_release_of in H as (? & ? & ->)
    | apply list_elem_of_fmap in H as (? & -> & ?)
    | apply elem_of_nil in H; destruct H
    | apply elem_of_cons in H as [->|H] ].

Ltac nodup_events :=
  repeat first
    [ apply NoDup_nil_2
    | apply release_of_NoDup
    | apply NoDup_fmap_2; [by intros ?? [=]|apply NoDup_seq]
    | apply NoDup_cons_2; [not_in_events|]
    | apply NoDup_app; split;
        [|split; [let x := fresh "x" in let H := fresh "H" in
                  intros x H; in_events H; not_in_events|]] ].

(** X20: the destruction gives every resource back once.  With the locks
    in place and distinct, no event of the destruction occurs twice: no
    resource is released twice, the engine handle is freed at most once, the
    worker is joined at most once, and each lock is taken once; afterwards
    the engine handle and the worker thread are null. *)
Theorem destroy_releases_once (w : world) (mb mc cv : nat) :
  whisper_buf_mutex (gf w) = Some mb →
  whisper_ctx_mutex (gf w) = Some mc →
  wshiper_thread_cv (gf w) = Some cv →
  (channels (gf w) ≤ length (input_buffers (gf w)))%nat →
  mb ≠ mc →
  text_source_mutex (gf w) ≠ Some mb →
  text_source_mutex (gf w) ≠ Some mc →
  ∃ w' evs,
    run transcription_filter_destroy w = (Some tt, w') ∧
    trace w' = trace w ++ evs ∧
    NoDup evs ∧
    whisper_context (gf w') = None ∧
    whisper_thread (gf w') = None.
Proof.
  intros Hmb Hmc Hcv Hch Hne Hmt1 Hmt2.
  destruct (destroy_run w mb mc cv) as (w' & Hrun & Htr & Hc & Ht); [done..|].
  eexists w', _. split; [done|]. split; [done|]. split; [|done].
  unfold destroy_releases, shutdown_events.
  destruct (whisper_context (gf w)) as [h|], (whisper_thread (gf w)) as [t|],
    (text_source (gf w)) as [wk|]; cbn [join_of app].
  all: nodup_events.
Qed.

(** ** Settings, captions, and a fresh filter *)

Lemma settle_fields (B : Z) (s : obs_data) (g g' : transcription_filter_data) :
  let g1 := with_engine_of g' (settle B s g) in
  log_level g1 = to_int (obs_data_get_int s "log_level") ∧
  vad_enabled g1 = obs_data_get_bool s "vad_enabled" ∧
  log_words g1 = obs_data_get_bool s "log_words" ∧
  caption_to_stream g1 = obs_data_get_bool s "caption_to_stream" ∧
  whisper_model_path g1 = obs_data_get_string s "whisper_model_path" ∧
  whisper_params g1 = update_whisper_params B s.
Proof.
  unfold settle. destruct (select_sink_frame s (apply_flags s g)) as (ts & name & path & ->).
  done.
Qed.

(** X25: an update takes every setting over.  With the locks in place, after
    an update the log level, the three flags, the model path and the engine
    parameters of the filter are those of the settings, the integers among
    them (the log level, the thread count, and the sampling strategy, which
    goes through the cast to its enumeration) narrowed to 32 bits; the
    window length of the engine parameters is the constant of the filter,
    not a setting; and the parameters were assigned between the lock and the
    unlock of the engine lock, the last events of the update. *)
Theorem update_applies_settings (B : Z) (s : obs_data) (w : world) (mc : nat) :
  filter_wf (gf w) →
  whisper_ctx_mutex (gf w) = Some mc →
  ∃ w' evs,
    run (transcription_filter_update B s) w = (Some tt, w') ∧
    log_level (gf w') = to_int (obs_data_get_int s "log_level") ∧
    vad_enabled (gf w') = obs_data_get_bool s "vad_enabled" ∧
    log_words (gf w') = obs_data_get_bool s "log_words" ∧
    caption_to_stream (gf w') = obs_data_get_bool s "caption_to_stream" ∧
    whisper_model_path (gf w') = obs_data_get_string s "whisper_model_path" ∧
    whisper_params (gf w') = update_whisper_params B s ∧
    strategy (whisper_params (gf w')) = to_int (obs_data_get_int s "whisper_sampling_method") ∧
    n_threads (whisper_params (gf w')) = to_int (obs_data_get_int s "n_threads") ∧
    duration_ms (whisper_params (gf w')) = B ∧
    trace w' = trace w ++ evs ++ [EvLock mc; EvUnlock mc].
Proof.
  intros Hwf Hmc.
  pose proof Hwf as (_ & _ & [cv Hcv] & [mt Hmt] & _).
  destruct (update_run_full B s w mt mc cv) as (w' & evs & Hrun & Hg & Htr & _); [done..|].
  destruct (settle_fields B s (gf w) (gf w')) as (H1 & H2 & H3 & H4 & H5 & H6).
  rewrite <- Hg in H1, H2, H3, H4, H5, H6.
  exists w', (select_events s (apply_flags s (gf w)) mt ++ evs).
  split_and!; try done.
  - by rewrite H6.
  - by rewrite H6.
  - by rewrite H6.
  - by rewrite Htr, <- !app_assoc.
Qed.


(** X27: a fresh filter buffers exactly what it is given.  With a C++
    library that takes the two assignments of the creation to the
    never-constructed string members, after a creation whose model loads the
    ring buffers and the metadata queue are empty; after any sequence of
    fitting packets the ring buffer of every channel of the host holds the
    samples of the packets, byte for byte and in arrival order, the ring
    buffers beyond the channel count are still empty, and the metadata queue
    holds one record per packet, in order. *)
Theorem fresh_filter_ingest (B O : Z) (F : Z → Z → Z) (L : string → bool) (settings : obs_data)
    (filter : nat) (ps : list obs_audio_data) (w : world) :
  L (obs_data_get_string settings "whisper_model_path") = true →
  L EmptyString = true →
  model_files w !! obs_data_get_string settings "whisper_model_path" = Some true →
  (audio_channels w ≤ MAX_AUDIO_CHANNELS)%nat →
  Forall (packet_fits (audio_channels w)) ps →
  ∃ w1 w2,
    run (transcription_filter_create B O F L settings filter) w
      = (Some (Some the_filter), w1) ∧
    input_buffers (gf w1) = replicate MAX_AUDIO_CHANNELS [] ∧
    info_buffer (gf w1) = [] ∧
    ingest_all ps w1 = (Some (Some <$> ps), w2) ∧
    (∀ c, (c < MAX_AUDIO_CHANNELS)%nat →
       input_buffers (gf w2) !! c =
         Some (if bool_decide (c < audio_channels w)%nat
               then concat (samples_of c <$> ps) else [])) ∧
    info_buffer (gf w2) = info_of <$> ps.
Proof.
  intros HL HL0 Hfile Hch Hfit.
  destruct (create_run B O F L settings filter w HL HL0 Hfile Hch)
    as (w1 & evs & Hrun & Hwf & Hn & _ & _ & _ & _ & Hact & Hc & _ & _ & _ & _ & _ & Hbufs & Hinfo).
  pose proof Hwf as (Hmb & Hmc & _ & _ & Hle & Hlen).
  destruct (ingest_all_content ps w1) as (w2 & Hrun2 & Hbuf2);
    [done | by rewrite Hc | done | done | lia | by rewrite Hn |].
  destruct (ingest_all_buffering ps w1) as (w2' & Hrun2' & Hinfo2 & _);
    [done | by rewrite Hc | done | done | lia | by rewrite Hn |].
  rewrite Hrun2 in Hrun2'. injection Hrun2' as <-.
  exists w1, w2. split_and!; try done.
  - intros c Hlt. rewrite (Hbuf2 c []).
    + by rewrite Hn.
    + rewrite Hbufs. by apply lookup_replicate_2.
  - by rewrite Hinfo2, Hinfo.
Qed.

(** ** The properties view *)

Arguments map_entries : simpl never.
Arguments whisper_available_lang_flip : simpl never.
Arguments text_source_items : simpl never.
Arguments language_items : simpl never.

Lemma alter_property_twice (f g : obs_property → obs_property) (p : property_ref)
    (st : obs_properties_store) :
  alter (alter f p.2) p.1 (alter (alter g p.2) p.1 st) = alter (alter (f ∘ g) p.2) p.1 st.
Proof.
  rewrite list_alter_alter_eq. apply list_alter_ext; [|done].
  intros l _. cbn. apply list_alter_alter_eq.
Qed.

Lemma alter_property_id (p : property_ref) (st : obs_properties_store) :
  alter (alter (add_strings []) p.2) p.1 st = st.
Proof. apply list_alter_id. intros l. by apply list_alter_id. Qed.

Lemma add_sources_to_list_run (p : property_ref) (s : enum_source) st :
  add_sources_to_list p s st =
    (true,
     if is_text_source s
     then alter (alter (list_add OBS_COMBO_FORMAT_STRING
                          (obs_source_get_name s, OBS_STRING (obs_source_get_name s))) p.2)
            p.1 st
     else st).
Proof.
  unfold add_sources_to_list, is_text_source.
  by destruct (strcmp (obs_source_get_id s) "text_ft2_source_v2" =? 0),
              (strcmp (obs_source_get_id s) "text_gdiplus_v2" =? 0).
Qed.

(** The enumeration is never cut short, and adds the text sources. *)
Lemma obs_enum_sources_run (srcs : list enum_source) : ∀ (p : property_ref) st,
  obs_enum_sources add_sources_to_list p srcs st =
    (tt, alter (alter (add_strings (text_source_items srcs)) p.2) p.1 st).
Proof.
  induction srcs as [|s srcs IH]; intros p st.
  - cbn. by rewrite alter_property_id.
  - cbn [obs_enum_sources]. unfold mbind, PM_mbind, PM_bind.
    rewrite add_sources_to_list_run, IH.
    unfold text_source_items. cbn [List.filter].
    destruct (is_text_source s); [|done].
    by rewrite alter_property_twice.
Qed.

Lemma add_languages_run (entries : list (string * string)) : ∀ (p : property_ref) st,
  add_languages p entries st =
    (tt, alter (alter (add_strings (language_items entries)) p.2) p.1 st).
Proof.
  induction entries as [|e entries IH]; intros p st.
  - cbn. by rewrite alter_property_id.
  - cbn [add_languages]. unfold mbind, PM_mbind, PM_bind. cbn.
    rewrite IH. unfold language_items. by rewrite alter_property_twice.
Qed.

Lemma add_strings_list (l : list (string * string)) : ∀ name desc vis cb items,
  add_strings l {| prop_name := name; prop_description := desc; prop_visible := vis;
                   prop_modified := cb;
                   prop_kind := OBS_PROPERTY_LIST OBS_COMBO_FORMAT_STRING items |} =
  {| prop_name := name; prop_description := desc; prop_visible := vis; prop_modified := cb;
     prop_kind := OBS_PROPERTY_LIST OBS_COMBO_FORMAT_STRING (items ++ (string_item <$> l)) |}.
Proof.
  induction l as [|it l IH]; intros name desc vis cb items.
  - cbn. by rewrite app_nil_r.
  - change (add_strings (it :: l) ?p)
      with (add_strings l (list_add OBS_COMBO_FORMAT_STRING (string_item it) p)).
    unfold list_add. cbn -[add_strings]. rewrite IH. by rewrite <- app_assoc.
Qed.

(** The view, evaluated call by call; the two loops by their lemmas. *)
Ltac eval_properties :=
  unfold transcription_filter_properties;
  unfold mbind, PM_mbind, PM_bind, mret, PM_mret, PM_ret;
  repeat (cbn -[add_strings];
          first [ progress rewrite obs_enum_sources_run
                | progress rewrite add_languages_run ]);
  cbn -[add_strings]; unfold new_property, set_modified; cbn -[add_strings];
  rewrite ?add_strings_list; cbn.

Lemma properties_store_shape (lang : gmap string string) (srcs : list enum_source) :
  ∃ top group, transcription_filter_properties lang srcs [] = (0%nat, [top; group]) ∧
    length top = 8%nat ∧ length group = 24%nat.
Proof. eval_properties. eexists _, _. split; [reflexivity|]. split; reflexivity. Qed.

(** X21: the subtitle output list offers the text sources, and only them.
    The list of the subtitle outputs holds "none", "text_file" and then one
    item for every source the host enumerates whose type is one of the two
    text source types, in the order of the enumeration, with the name of the
    source for its label and for its value; the enumeration is never cut
    short, and no other source is listed.  The list carries the callback that
    shows or hides the file name. *)
Theorem properties_list_text_sources (lang : gmap string string) (srcs : list enum_source) :
  ∃ st p,
    transcription_filter_properties lang srcs [] = (0%nat, st) ∧
    property_named st 0 "subtitle_sources" = Some p ∧
    list_items p =
      [("None / No output", OBS_STRING "none"); ("Text File output", OBS_STRING "text_file")] ++
      ((λ s, (obs_source_get_name s, OBS_STRING (obs_source_get_name s))) <$>
         List.filter is_text_source srcs) ∧
    prop_modified p = Some subtitle_sources_modified.
Proof.
  eval_properties. eexists _, _. split; [reflexivity|].
  unfold text_source_items. rewrite <- list_fmap_compose.
  generalize (string_item <$> language_items (map_entries (whisper_available_lang_flip lang))).
  intros langs.
  split; [vm_compute; reflexivity|]. split; reflexivity.
Qed.

(** X22: the file name field is shown exactly for the file output.  In the
    view as the function returns it every property is visible.  When the
    selection of the subtitle output is modified, its callback leaves the
    field of the output file name visible if the selection is "text_file"
    and hidden otherwise, and changes no other property. *)
Theorem filename_visibility (lang : gmap string string) (srcs : list enum_source)
    (settings : obs_data) :
  ∃ st subs st' file,
    transcription_filter_properties lang srcs [] = (0%nat, st) ∧
    Forall (λ p, prop_visible p = true) (concat st) ∧
    properties_get (length st) st 0 "subtitle_sources" = Some subs ∧
    obs_property_modified 0 subs settings st = (true, st') ∧
    property_named st' 0 "subtitle_output_filename" = Some file ∧
    prop_visible file = bool_decide (selection settings = "text_file") ∧
    ∀ name, name ≠ "subtitle_output_filename" →
      property_named st' 0 name = property_named st 0 name.
Proof.
  eval_properties.
  unfold text_source_items.
  generalize (string_item <$> language_items (map_entries (whisper_available_lang_flip lang))).
  generalize (string_item <$>
              ((λ s, (obs_source_get_name s, obs_source_get_name s)) <$>
                 List.filter is_text_source srcs)).
  intros texts langs.
  unfold obs_property_modified, subtitle_sources_modified_run, selection.
  rewrite strcmp_zero.
  destruct (decide (obs_data_get_string settings "subtitle_sources" = "text_file")) as [He|He].
  - rewrite (bool_decide_eq_true_2 _ He).
    eexists _, (0%nat, 4%nat), _, _. split; [reflexivity|].
    split; [repeat constructor|].
    split; [vm_compute; reflexivity|].
    split; [vm_compute; reflexivity|]. split; [vm_compute; reflexivity|].
    split; [reflexivity|].
    intros name Hne. reflexivity.
  - rewrite (bool_decide_eq_false_2 _ He).
    eexists _, (0%nat, 4%nat), _, _. split; [reflexivity|].
    split; [repeat constructor|].
    split; [vm_compute; reflexivity|].
    split; [vm_compute; reflexivity|]. split; [vm_compute; reflexivity|].
    split; [reflexivity|].
    intros name Hne. apply String.eqb_neq in Hne. rewrite String.eqb_sym in Hne.
    unfold property_named.
    match goal with
    | |- properties_get ?d1 ?st1 _ _ ≫= _ = properties_get ?d0 ?st0 _ _ ≫= _ =>
        assert (Hget : properties_get d1 st1 0 name = properties_get d0 st0 0 name)
          by (cbn; rewrite Hne; reflexivity);
        rewrite Hget; clear Hget;
        destruct (properties_get d0 st0 0 name) as [r|] eqn:HX; [|reflexivity]
    end.
    cbn in HX.
    repeat match type of HX with
           | context [String.eqb ?a name] =>
               destruct (String.eqb a name) eqn:?;
                 [first [discriminate | injection HX as <-; reflexivity]|]
           end.
    discriminate.
Qed.

(** X23: every option has a property, and its default is a value the
    property accepts.  The names of the properties of the view are pairwise
    distinct; every option the defaults operation names has a property of
    its name in the view (the language selector and the engine parameters
    inside the group of the engine parameters), and, the language apart, the
    default of the option is accepted by that property: it is an item of the
    list, or lies between the bounds of the slider, or has the type of the
    field.  (The default of the language is accepted when the table of
    languages has it.) *)
Theorem properties_accept_defaults (lang : gmap string string) (srcs : list enum_source) :
  ∃ st,
    transcription_filter_properties lang srcs [] = (0%nat, st) ∧
    NoDup (property_names st) ∧
    (∀ name, name ∈ option_names → is_Some (property_named st 0 name)) ∧
    (∀ name, name ∈ option_names → name ≠ "whisper_language_select" →
       default_accepted st name = true).
Proof.
  eval_properties.
  unfold text_source_items.
  generalize (string_item <$> language_items (map_entries (whisper_available_lang_flip lang))).
  generalize (string_item <$>
              ((λ s, (obs_source_get_name s, obs_source_get_name s)) <$>
                 List.filter is_text_source srcs)).
  intros texts langs.
  eexists. split; [reflexivity|]. split; [|split].
  - match goal with |- NoDup ?l => apply (bool_decide_unpack (NoDup l)) end.
    vm_compute. exact I.
  - intros name Hin. unfold option_names in Hin.
    repeat (apply elem_of_cons in Hin as [->|Hin]; [vm_compute; eexists; reflexivity|]).
    by apply elem_of_nil in Hin.
  - intros name Hin Hne. unfold option_names in Hin.
    repeat (apply elem_of_cons in Hin as [->|Hin];
            [first [done | vm_compute; reflexivity]|]).
    by apply elem_of_nil in Hin.
Qed.

(** ** The list of languages *)

Lemma flip_lookup (l : list (string * string)) (n c : string) :
  foldl (λ flip entry, <[entry.2 := entry.1]> flip) (∅ : gmap string string) l !! n = Some c →
  (c, n) ∈ l.
Proof.
  induction l as [|e l IH] using rev_ind; [cbn; by rewrite lookup_empty|].
  rewrite foldl_snoc. intros [[<- <-]|[_ H]]%lookup_insert_Some.
  - apply elem_of_app. right. destruct e. apply list_elem_of_here.
  - apply elem_of_app. left. by apply IH.
Qed.

Lemma flip_lookup_inj (l : list (string * string)) (n c : string) :
  (∀ c1 c2 n', (c1, n') ∈ l → (c2, n') ∈ l → c1 = c2) →
  (c, n) ∈ l →
  foldl (λ flip entry, <[entry.2 := entry.1]> flip) (∅ : gmap string string) l !! n = Some c.
Proof.
  induction l as [|e l IH] using rev_ind; intros Hinj Hin; [by apply elem_of_nil in Hin|].
  rewrite foldl_snoc. destruct e as [c' n'].
  destruct (decide (n' = n)) as [->|Hne].
  - rewrite lookup_insert_eq. f_equal. cbn.
    apply (Hinj c' c n); [|done]. apply elem_of_app. right. apply list_elem_of_here.
  - rewrite lookup_insert_ne by done. apply IH.
    + intros c1 c2 n0 H1 H2. apply (Hinj c1 c2 n0); apply elem_of_app; by left.
    + apply elem_of_app in Hin as [Hin|Hin]; [done|].
      apply list_elem_of_singleton in Hin. congruence.
Qed.

Lemma elem_of_map_entries (m : gmap string string) (k v : string) :
  (k, v) ∈ map_entries m ↔ m !! k = Some v.
Proof.
  unfold map_entries. rewrite merge_sort_Permutation. apply elem_of_map_to_list.
Qed.

#[local] Instance key_le_total : Total key_le.
Proof. intros a b. apply String.leb_total. Qed.

(** X24: the list of languages.  The language selector lists the entries
    of the flipped table in the order of their names, each with its name
    capitalised for a label and its code for a value: every item is a
    language of the table, no name is listed twice, and when no two codes of
    the table share a name, every language of the table is listed. *)
Theorem properties_list_languages (lang : gmap string string) (srcs : list enum_source) :
  ∃ st p entries,
    transcription_filter_properties lang srcs [] = (0%nat, st) ∧
    property_named st 0 "whisper_language_select" = Some p ∧
    list_items p = (λ e, (capitalize e.1, OBS_STRING e.2)) <$> entries ∧
    Sorted key_le entries ∧
    NoDup (entries.*1) ∧
    (∀ n c, (n, c) ∈ entries → lang !! c = Some n) ∧
    ((∀ c1 c2 n, lang !! c1 = Some n → lang !! c2 = Some n → c1 = c2) →
     ∀ c n, lang !! c = Some n → (n, c) ∈ entries).
Proof.
  eval_properties.
  unfold text_source_items.
  generalize (string_item <$>
              ((λ s, (obs_source_get_name s, obs_source_get_name s)) <$>
                 List.filter is_text_source srcs)).
  intros texts.
  eexists _,
    {| prop_name := "whisper_language_select"; prop_description := "Language";
       prop_visible := true; prop_modified := None;
       prop_kind :=
         OBS_PROPERTY_LIST OBS_COMBO_FORMAT_STRING
           (string_item <$> language_items (map_entries (whisper_available_lang_flip lang))) |},
    (map_entries (whisper_available_lang_flip lang)).
  split; [reflexivity|].
  split.
  { generalize (string_item <$>
                language_items (map_entries (whisper_available_lang_flip lang))).
    intros langs. vm_compute. reflexivity. }
  split.
  { cbn. unfold language_items. by rewrite <- list_fmap_compose. }
  split; [apply (Sorted_merge_sort key_le)|].
  split.
  { unfold map_entries. rewrite merge_sort_Permutation. apply NoDup_fst_map_to_list. }
  split.
  - intros n c Hin. apply elem_of_map_entries in Hin.
    apply flip_lookup, elem_of_map_entries in Hin. done.
  - intros Hinj c n Hc. apply elem_of_map_entries.
    apply flip_lookup_inj; [|by apply elem_of_map_entries].
    intros c1 c2 n' H1%elem_of_map_entries H2%elem_of_map_entries. by apply (Hinj c1 c2 n').
Qed.

(** * The further properties on the concrete filter *)

Lemma example_filter_wf : filter_wf (gf example_filter).
Proof. vm_compute. repeat split; try (eexists; reflexivity); lia. Qed.

Lemma example_packets_fit : Forall (packet_fits 2) [example_packet; example_packet].
Proof.
  apply Forall_cons; split; [packet_fits_example|].
  apply Forall_cons; split; [packet_fits_example|]. apply Forall_nil_2.
Qed.

Lemma ingest_fifo_witness :
  ∃ w', ingest_all [example_packet; example_packet] example_filter
          = (Some [Some example_packet; Some example_packet], w') ∧
    ∀ c cb, input_buffers (gf example_filter) !! c = Some cb →
      input_buffers (gf w') !! c =
        Some (if bool_decide (c < 2)%nat
              then cb ++ concat (samples_of c <$> [example_packet; example_packet]) else cb).
Proof.
  apply (ingest_fifo [example_packet; example_packet] example_filter).
  - reflexivity.
  - vm_compute. eexists. reflexivity.
  - vm_compute. eexists. reflexivity.
  - vm_compute. eexists. reflexivity.
  - vm_compute. lia.
  - exact example_packets_fit.
Defined.

Lemma ingest_without_locks_witness :
  ingest example_packet example_no_buf_mutex =
    (Some (Some example_packet),
     set_log (log example_no_buf_mutex ++ [(LOG_ERROR, "whisper mutexes are null")])
       example_no_buf_mutex).
Proof.
  apply (ingest_without_locks example_no_buf_mutex example_packet).
  - reflexivity.
  - vm_compute. eexists. reflexivity.
  - left. reflexivity.
Defined.

Lemma publish_text_element_witness :
  ∃ w1 w2,
    run (set_text_callback "a") example_text_sink = (Some tt, w1) ∧
    source_named "captions" w1 = Some (with_text example_captions "a") ∧
    text_source (gf w1) = Some 7%nat ∧
    trace w1 = trace example_text_sink ++
               [EvLock 5; EvGetSourceByName "captions"; EvUnlock 5;
                EvLock 5; EvWeakGetSource 7; EvUnlock 5] ∧
    run (set_text_callback "ab") w1 = (Some tt, w2) ∧
    source_named "captions" w2 = Some (with_text example_captions "ab") ∧
    trace w2 = trace w1 ++ [EvLock 5; EvWeakGetSource 7; EvUnlock 5] ∧
    log w2 = log example_text_sink ∧ files w2 = files example_text_sink.
Proof.
  apply (publish_text_element example_text_sink "a" "ab" "captions" 5 example_captions).
  - reflexivity.
  - reflexivity.
  - reflexivity.
  - reflexivity.
Defined.

Lemma publish_no_sink_witness :
  ∃ w',
    run (set_text_callback "a") example_filter = (Some tt, w') ∧
    log w' = log example_filter ++ [(LOG_ERROR, "text_source_name is null");
                                    (LOG_ERROR, "text_source is null")] ∧
    trace w' = trace example_filter ++ [EvLock 5; EvUnlock 5] ∧
    gf w' = gf example_filter ∧ files w' = files example_filter ∧
    sources w' = sources example_filter.
Proof.
  apply (publish_no_sink example_filter "a" 5).
  - reflexivity.
  - reflexivity.
  - reflexivity.
  - reflexivity.
Defined.

Lemma publish_file_unwritable_witness :
  ∃ w',
    run (set_text_callback "a") example_locked_file_sink = (Some tt, w') ∧
    files w' = files example_locked_file_sink ∧ log w' = log example_locked_file_sink ∧
    trace w' = trace example_locked_file_sink ∧
    gf w' = gf example_locked_file_sink ∧ sources w' = sources example_locked_file_sink.
Proof.
  apply (publish_file_unwritable example_locked_file_sink "a").
  - vm_compute. discriminate.
  - reflexivity.
  - change ("/tmp/captions.txt" ∈ ({[ "/tmp/captions.txt" ]} : gset string)).
    apply elem_of_singleton. reflexivity.
Defined.

Lemma update_selects_sink_witness :
  ∃ w', run (transcription_filter_update 3000 example_file_settings) example_filter
          = (Some tt, w') ∧
    text_source_name (gf w') = None ∧ text_source (gf w') = None ∧
    output_file_path (gf w') = "/tmp/captions.txt".
Proof.
  destruct (update_selects_sink 3000 example_file_settings example_filter)
    as (w' & Hrun & _ & Hfile & _).
  - vm_compute. repeat split; try (eexists; reflexivity); lia.
  - exists w'. split; [exact Hrun|]. apply Hfile. reflexivity.
Defined.

Lemma update_releases_weak_reference_witness :
  ∃ w' rest,
    run (transcription_filter_update 3000 example_settings) example_resolved_sink
      = (Some tt, w') ∧
    trace w' = trace example_resolved_sink ++
      [EvLock 5; EvUnlock 5; EvRelease text_source_name_string; EvWeakRelease 7] ++ rest ∧
    Forall (λ e, release_event e = false) rest ∧
    text_source (gf w') = None.
Proof.
  destruct (update_releases_weak_reference 3000 example_settings example_resolved_sink
              5 7 "captions")
    as (w' & evs & Hrun & Htr & _ & Hchange).
  - vm_compute. repeat split; try (eexists; reflexivity); lia.
  - reflexivity.
  - reflexivity.
  - reflexivity.
  - destruct Hchange as (Hts & rest & -> & Hrest).
    + left. vm_compute. discriminate.
    + exists w', rest. split; [exact Hrun|]. split; [exact Htr|]. split; assumption.
Defined.

Lemma update_idempotent_witness :
  ∃ w1 w2,
    run (transcription_filter_update 3000 example_file_settings) example_filter
      = (Some tt, w1) ∧
    run (transcription_filter_update 3000 example_file_settings) w1 = (Some tt, w2) ∧
    gf w2 = gf w1 ∧ host_kept w1 w2 ∧ next_id w2 = next_id w1 ∧
    trace w2 = trace w1 ++ [EvLock 3; EvUnlock 3].
Proof.
  apply (update_idempotent 3000 example_file_settings example_filter 3).
  - vm_compute. repeat split; try (eexists; reflexivity); lia.
  - reflexivity.
Defined.

Lemma download_completes_swap_witness :
  ∃ w1 w2 w3,
    run (transcription_filter_update 3000 (example_model "models/missing.bin")) example_filter
      = (Some tt, w1) ∧
    whisper_context (gf w1) = None ∧ whisper_thread (gf w1) = None ∧
    run (model_download_callback 0)
        (set_model_files (<["models/missing.bin" := true]> (model_files w1)) w1)
      = (Some tt, w2) ∧
    run (transcription_filter_update 3000 (example_model "models/missing.bin"))
        (set_model_files (<["models/missing.bin" := true]> (model_files example_filter))
           example_filter)
      = (Some tt, w3) ∧
    whisper_context (gf w2) = whisper_context (gf w3) ∧
    whisper_thread (gf w2) = whisper_thread (gf w3).
Proof.
  destruct (download_completes_swap 3000 (example_model "models/missing.bin")
              example_filter true)
    as (w1 & w2 & w3 & evs & Hrun1 & _ & _ & Hc1 & Ht1 & Hrun2 & Hrun3 & Hc & Ht & _).
  - vm_compute. repeat split; try (eexists; reflexivity); lia.
  - vm_compute. discriminate.
  - vm_compute. reflexivity.
  - exists w1, w2, w3. repeat (split; [assumption|]). assumption.
Defined.

Lemma download_callback_race_witness :
  ∃ w1 w2 w3,
    run (transcription_filter_update 3000 (example_model "models/missing.bin")) example_filter
      = (Some tt, w1) ∧
    run (transcription_filter_update 3000 (example_model "models/ggml-base.bin")) w1
      = (Some tt, w2) ∧
    run (model_download_callback 0) w2 = (None, w3).
Proof.
  destruct (download_callback_race 3000 (example_model "models/missing.bin")
              (example_model "models/ggml-base.bin") example_filter)
    as (w1 & w2 & w3 & evs & Hrun1 & _ & _ & Hrun2 & _ & Hrun3).
  - vm_compute. repeat split; try (eexists; reflexivity); lia.
  - vm_compute. discriminate.
  - vm_compute. reflexivity.
  - vm_compute. discriminate.
  - vm_compute. eexists. reflexivity.
  - exists w1, w2, w3. repeat (split; [assumption|]). assumption.
Defined.

Lemma example_filter_inv : session_inv example_filter.
Proof.
  constructor.
  - exact example_filter_wf.
  - vm_compute. reflexivity.
  - vm_compute. reflexivity.
  - vm_compute. reflexivity.
Qed.

Lemma example_session_fits : Forall (callback_fits 2) example_session.
Proof.
  unfold example_session.
  repeat (apply Forall_cons; split; [first [exact I | packet_fits_example]|]).
  apply Forall_nil_2.
Qed.

Lemma session_keeps_books_witness :
  ∃ w', session 3000 example_session example_filter = Some w' ∧ session_inv w' ∧
    live_threads (trace w') = option_list (whisper_thread (gf w')) ∧
    live_handles (trace w') = option_list (whisper_context (gf w')) ∧
    held_after (trace w') = Some None.
Proof.
  apply (session_keeps_books 3000 example_session example_filter).
  - exact example_filter_inv.
  - exact example_session_fits.
Defined.

Lemma lifecycle_balanced_witness :
  ∃ w1 w2 w3,
    run (transcription_filter_create 3000 100 example_frames zero_is_empty example_settings 1)
      example_host
      = (Some (Some the_filter), w1) ∧
    session 3000 example_session w1 = Some w2 ∧
    run transcription_filter_destroy w2 = (Some tt, w3) ∧
    live_threads (trace w3) = [] ∧ live_handles (trace w3) = [] ∧
    held_after (trace w3) = Some None.
Proof.
  apply (lifecycle_balanced 3000 100 example_frames zero_is_empty example_settings 1
           example_session example_host).
  - reflexivity.
  - reflexivity.
  - vm_compute. reflexivity.
  - vm_compute. lia.
  - reflexivity.
  - reflexivity.
  - reflexivity.
  - exact example_session_fits.
Defined.

Lemma select_file_then_publish_witness :
  ∃ w1 w2,
    run (transcription_filter_update 3000 example_file_settings) example_filter
      = (Some tt, w1) ∧
    run (set_text_callback "a") w1 = (Some tt, w2) ∧
    files w2 = <["/tmp/captions.txt" := "a"]> (files example_filter) ∧
    sources w2 = sources example_filter.
Proof.
  apply (select_file_then_publish 3000 example_file_settings example_filter "a").
  - vm_compute. repeat split; try (eexists; reflexivity); lia.
  - vm_compute. reflexivity.
  - vm_compute. discriminate.
  - change (read_only example_filter) with (∅ : gset string). apply not_elem_of_empty.
Defined.

Lemma select_element_then_publish_witness :
  ∃ w1 w2,
    run (transcription_filter_update 3000 example_text_settings) example_filter
      = (Some tt, w1) ∧
    run (set_text_callback "a") w1 = (Some tt, w2) ∧
    source_named "captions" w2 = Some (with_text example_captions "a") ∧
    text_source (gf w2) = Some 7%nat ∧
    files w2 = files example_filter.
Proof.
  apply (select_element_then_publish 3000 example_text_settings example_filter "a"
           example_captions).
  - vm_compute. repeat split; try (eexists; reflexivity); lia.
  - change (selection example_text_settings) with "captions".
    rewrite !not_elem_of_cons. repeat split; try discriminate. apply not_elem_of_nil.
  - vm_compute. discriminate.
  - reflexivity.
Defined.

Lemma create_outcomes_witness :
  (∃ w', run (transcription_filter_create 3000 100 example_frames zero_is_empty
                example_settings 1) example_host = (Some (Some the_filter), w') ∧
     filter_wf (gf w') ∧ active (gf w') = true ∧ text_source_name (gf w') = None) ∧
  (∃ w', run (transcription_filter_create 3000 100 example_frames libstdcxx
                example_settings 1) example_host = (None, w') ∧
     trace w' = [EvInitContext "models/ggml-tiny.en.bin" (Some 1%nat);
                 EvStoreContext (Some 1%nat)] ∧
     whisper_ctx_mutex (gf w') = Some 3%nat ∧
     whisper_thread (gf w') = None).
Proof.
  split.
  - destruct (create_outcomes 3000 100 example_frames zero_is_empty example_settings 1
                example_host)
      as (r & w' & Hrun & _ & Hiff & _ & Hok & _).
    + vm_compute. lia.
    + assert (Hr : r = Some (Some the_filter)).
      { apply Hiff. split; [reflexivity|]. split; [reflexivity|]. vm_compute. reflexivity. }
      subst r. destruct (Hok eq_refl) as (Hwf & Hact & _ & _ & _ & _ & Hname & _).
      exists w'. split; [exact Hrun|]. split; [exact Hwf|]. split; [exact Hact|]. exact Hname.
  - destruct (create_outcomes 3000 100 example_frames libstdcxx example_settings 1
                example_host)
      as (r & w' & Hrun & _ & Hinst & Hnull & _ & _ & Hcrash).
    + vm_compute. lia.
    + destruct r as [[[]|]|].
      * destruct (proj1 Hinst eq_refl) as (_ & Hcontra & _).
        vm_compute in Hcontra. discriminate.
      * destruct (proj1 Hnull eq_refl) as (_ & Hcontra). exfalso. apply Hcontra.
        vm_compute. reflexivity.
      * exists w'. split; [exact Hrun|].
        destruct (Hcrash eq_refl) as (Htr & _ & Hth & _ & Hmc & _).
        split; [exact Htr|]. split; [exact Hmc|]. exact Hth.
Defined.

Lemma destroy_releases_once_witness :
  ∃ w' evs,
    run transcription_filter_destroy example_filter = (Some tt, w') ∧
    trace w' = trace example_filter ++ evs ∧
    NoDup evs ∧
    whisper_context (gf w') = None ∧
    whisper_thread (gf w') = None.
Proof.
  apply (destroy_releases_once example_filter 2 3 4).
  - reflexivity.
  - reflexivity.
  - reflexivity.
  - vm_compute. lia.
  - discriminate.
  - vm_compute. discriminate.
  - vm_compute. discriminate.
Defined.

Lemma update_applies_settings_witness :
  ∃ w' evs,
    run (transcription_filter_update 3000 example_wide_settings) example_filter
      = (Some tt, w') ∧
    log_level (gf w') = LOG_DEBUG ∧
    strategy (whisper_params (gf w')) = sampling_value WHISPER_SAMPLING_BEAM_SEARCH ∧
    n_threads (whisper_params (gf w')) = 4 ∧
    duration_ms (whisper_params (gf w')) = 3000 ∧
    trace w' = trace example_filter ++ evs ++ [EvLock 3; EvUnlock 3].
Proof.
  destruct (update_applies_settings 3000 example_wide_settings example_filter 3)
    as (w' & evs & Hrun & Hlevel & _ & _ & _ & _ & _ & Hstrategy & Hthreads & Hduration & Htr).
  - vm_compute. repeat split; try (eexists; reflexivity); lia.
  - reflexivity.
  - exists w', evs. split; [exact Hrun|]. split; [exact Hlevel|].
    split; [exact Hstrategy|]. split; [exact Hthreads|]. split; [exact Hduration|]. exact Htr.
Defined.


Lemma fresh_filter_ingest_witness :
  ∃ w1 w2,
    run (transcription_filter_create 3000 100 example_frames zero_is_empty example_settings 1)
      example_host
      = (Some (Some the_filter), w1) ∧
    ingest_all [example_packet; example_packet] w1
      = (Some [Some example_packet; Some example_packet], w2) ∧
    input_buffers (gf w2) !! 0%nat = Some (example_plane ++ example_plane) ∧
    input_buffers (gf w2) !! 2%nat = Some [] ∧
    info_buffer (gf w2) = [info_of example_packet; info_of example_packet].
Proof.
  destruct (fresh_filter_ingest 3000 100 example_frames zero_is_empty example_settings 1
              [example_packet; example_packet] example_host)
    as (w1 & w2 & Hrun1 & _ & _ & Hrun2 & Hbuf & Hinfo).
  - reflexivity.
  - reflexivity.
  - vm_compute. reflexivity.
  - vm_compute. lia.
  - exact example_packets_fit.
  - exists w1, w2. split; [exact Hrun1|]. split; [exact Hrun2|].
    split; [apply (Hbuf 0%nat); vm_compute; lia|].
    split; [apply (Hbuf 2%nat); vm_compute; lia|]. exact Hinfo.
Defined.
